(** * Heuristic AI-image scorer: a shallow embedding of [api/index.py]

    The development follows the layout of the Python module:
    string helpers and Python values, the generator-tag detector,
    binary64 arithmetic and the score aggregation, then the image
    pipeline ([extract_metadata], the three metrics, [analyze_image])
    over the operations of Pillow, piexif, numpy and scikit-image, which
    are kept abstract, as is what [str.lower] does outside ASCII. *)

From Stdlib Require Import Bool List String Ascii ZArith Lia Floats DecimalString
  Permutation.
Import ListNotations.

Open Scope string_scope.
Open Scope list_scope.

(** ** Python strings

    A [str] is modelled by the bytes of its UTF-8 encoding: a code point
    below 128 is one byte below 128, any other code point is a run of
    bytes from 128 up.

    [str.lower] replaces every code point by its lower-case mapping.  On
    a code point below 128 that is [lower_ascii]: [A-Z] go to [a-z],
    everything else stays.  The mapping of the other code points is that
    of the interpreter's Unicode database (U+212A goes to [k], U+0130 to
    [i] followed by U+0307, and U+03A3 to one of two letters according
    to the text around it); it stays abstract. *)
Module PyStr.

Definition lower_ascii (c : ascii) : ascii :=
  let n := nat_of_ascii c in
  if (65 <=? n)%nat && (n <=? 90)%nat then ascii_of_nat (n + 32) else c.

(** The byte of a code point below 128. *)
Definition is_ascii (c : ascii) : bool := (nat_of_ascii c <? 128)%nat.

(** [lower_run before run after]: what [str.lower] makes of [run], a
    maximal run of code points from 128 up, standing between the texts
    [before] and [after]. *)
Class Unicode : Type := {
  lower_run : string -> string -> string -> string
}.

Section Lower.
Context {U : Unicode}.

Definition flush (before run after : string) : string :=
  match run with
  | EmptyString => EmptyString
  | _ => lower_run before run after
  end.

(** [lower_at before run s]: the lower-casing of [s] where [s] follows
    [before ++ run] and [run] is the run of code points from 128 up
    read so far. *)
Fixpoint lower_at (before run s : string) : string :=
  match s with
  | EmptyString => flush before run EmptyString
  | String c s' =>
      if is_ascii c then
        (flush before run s
         ++ String (lower_ascii c)
              (lower_at (before ++ run ++ String c EmptyString) EmptyString s'))%string
      else lower_at before (run ++ String c EmptyString) s'
  end.

Definition lower (s : string) : string := lower_at EmptyString EmptyString s.

End Lower.

(** [lower_ascii] on every byte: [str.lower] on a text without a code
    point from 128 up. *)
Fixpoint ascii_lower (s : string) : string :=
  match s with
  | EmptyString => EmptyString
  | String c s' => String (lower_ascii c) (ascii_lower s')
  end.

Fixpoint all_ascii (s : string) : bool :=
  match s with
  | EmptyString => true
  | String c s' => is_ascii c && all_ascii s'
  end.

(** [kw in t] on strings: [kw] occurs in [t] as a contiguous run. *)
Fixpoint py_in (kw t : string) : bool :=
  prefix kw t ||
  match t with
  | EmptyString => false
  | String _ t' => py_in kw t'
  end.

(** [str(n)] for an [int]. *)
Definition str_of_int (n : Z) : string :=
  NilZero.string_of_int (Z.to_int n).

(** [len(s)]: the number of code points, which is the number of bytes
    that do not continue a code point (those outside [128, 192)). *)
Definition is_continuation (c : ascii) : bool :=
  let n := nat_of_ascii c in (128 <=? n)%nat && (n <? 192)%nat.

Fixpoint str_len (s : string) : nat :=
  match s with
  | EmptyString => 0
  | String c s' => if is_continuation c then str_len s' else S (str_len s')
  end.

(** The two readings of "occurs in" used by the statements below: as it
    stands, and up to the case of the letters [A-Z] and [a-z]. *)
Definition substring_of (kw t : string) : Prop :=
  exists a b, t = (a ++ kw ++ b)%string.

Definition substring_of_ci (kw t : string) : Prop :=
  exists a m b, t = (a ++ m ++ b)%string /\ ascii_lower m = kw.

End PyStr.
Import PyStr.

(** ** Python values held by a metadata record

    Leaves are [None], strings, integers, and objects of any other type
    (tuples, floats, rationals, ...), which the code only ever passes to
    [str()], [bool()] and [len()]: such an object is represented by what
    [str()] returns on it, [None] when [str()] raises, by its truth
    value, and by what [len()] returns on it, [None] when [len()]
    raises.  Mappings keep their insertion order and have string keys. *)
#[warnings="-register-all"]
Inductive pyobj : Type :=
| PNone
| PStr (s : string)
| PInt (n : Z)
| POther (repr : option string) (truthy : bool) (len : option nat)
| PList (items : list pyobj)
| PDict (entries : list (string * pyobj)).

Definition pydict := list (string * pyobj).

(** [str(obj)] on a leaf; [None] stands for a raised exception. *)
Definition py_str (obj : pyobj) : option string :=
  match obj with
  | PNone => Some "None"
  | PStr s => Some s
  | PInt n => Some (str_of_int n)
  | POther r _ _ => r
  | PList _ | PDict _ => None
  end.

(** [bool(obj)]. *)
Definition py_bool (obj : pyobj) : bool :=
  match obj with
  | PNone => false
  | PStr s => negb (s =? EmptyString)%string
  | PInt n => negb (n =? 0)%Z
  | POther _ b _ => b
  | PList l => match l with [] => false | _ => true end
  | PDict d => match d with [] => false | _ => true end
  end.

(** [d.get(k)]. *)
Fixpoint dict_get (k : string) (d : pydict) : option pyobj :=
  match d with
  | [] => None
  | (k', v) :: d' => if (k' =? k)%string then Some v else dict_get k d'
  end.

(** [d[k] = v]: overwrite in place, or append at the end. *)
Fixpoint dict_set (k : string) (v : pyobj) (d : pydict) : pydict :=
  match d with
  | [] => [(k, v)]
  | (k', v') :: d' =>
      if (k' =? k)%string then (k, v) :: d' else (k', v') :: dict_set k v d'
  end.

(** ** Generator tag detection *)

Definition GENERATOR_KEYWORDS : list string :=
  [ "stable diffusion"; "stability.ai"; "automatic1111"; "invokeai"; "comfyui";
    "midjourney"; "dall-e"; "dall·e"; "openai"; "novelai"; "runway"; "firefly";
    "leonardo"; "sdxl"; "genai"; "ai generated"; "clipdrop"; "ideogram"; "flux.1" ].

Definition generator_reason (kw : string) : string :=
  ("Generator tag detected: " ++ kw)%string.

(** The inner function [collect] appends to the list [texts] of the
    enclosing call; the list is threaded through explicitly. *)
Fixpoint collect {U : Unicode} (obj : pyobj) (texts : list string) {struct obj}
  : list string :=
  match obj with
  | PDict entries =>
      fold_left (fun acc kv => collect (snd kv) (acc ++ [lower (fst kv)]))
                entries texts
  | PList items =>
      fold_left (fun acc it => collect it acc) items texts
  | leaf =>
      match py_str leaf with
      | Some s => texts ++ [lower s]
      | None => texts
      end
  end.

Definition detect_generator_reasons_with {U : Unicode}
    (keywords : list string) (metadata : pyobj) : list string :=
  let texts := collect metadata [] in
  fold_left
    (fun reasons kw =>
       if existsb (fun t => py_in kw t) texts
       then reasons ++ [generator_reason kw]
       else reasons)
    keywords [].

Definition detect_generator_reasons {U : Unicode} (metadata : pyobj) : list string :=
  detect_generator_reasons_with GENERATOR_KEYWORDS metadata.

(** ** Python floats

    A Python [float] is an IEEE 754 binary64 number: Rocq's primitive
    [float].  Decimal literals denote the nearest binary64 value, as in
    Python. *)
Set Warnings "-inexact-float".
Open Scope float_scope.

Module PyFloat.

(** The builtin [min(a, b)]: [b] when [b < a], else [a]. *)
Definition py_min (a b : float) : float := if b <? a then b else a.

(** [np.clip(x, lo, hi)] on a scalar, as numpy's clip loop computes it:
    [min(max(x, lo), hi)], where both steps hand back a NaN first
    argument unchanged. *)
Definition np_max (a b : float) : float :=
  if is_nan a then a else if b <? a then a else b.

Definition np_min (a b : float) : float :=
  if is_nan a then a else if a <? b then a else b.

Definition np_clip (x lo hi : float) : float := np_min (np_max x lo) hi.

(** [float(n)] for an [int] below 2^63 (exact below 2^53). *)
Definition float_of_Z (n : Z) : float := of_uint63 (Uint63.of_Z n).

(** [round(x)] with one argument: the nearest integer, ties to even.
    Python raises on infinities and NaN; the callers below only round
    finite products, and [0] stands in for those cases. *)
Definition py_round (x : float) : Z :=
  match Prim2SF x with
  | S754_finite s m e =>
      let mag :=
        match e with
        | Zneg p =>
            let d := Z.pow_pos 2 p in
            let q := (Zpos m / d)%Z in
            let r := (Zpos m mod d)%Z in
            match (2 * r ?= d)%Z with
            | Lt => q
            | Gt => (q + 1)%Z
            | Eq => if Z.even q then q else (q + 1)%Z
            end
        | _ => (Zpos m * 2 ^ e)%Z
        end in
      if s then (- mag)%Z else mag
  | _ => 0%Z
  end.

(** [a <= x <= b] as Python evaluates it on floats. *)
Definition between (a x b : float) : Prop :=
  (a <=? x) = true /\ (x <=? b) = true.

End PyFloat.
Import PyFloat.

(** ** numpy float32

    The grayscale grid holds binary32 values; their arithmetic is the
    IEEE specification at precision 24. *)
Module F32.

Definition f32 : Type := spec_float.
Definition prec32 : Z := 24.
Definition emax32 : Z := 128.

Definition of_float (x : float) : f32 :=
  match Prim2SF x with
  | S754_finite s m e => binary_round prec32 emax32 s m e
  | other => other
  end.

Definition of_Z (n : Z) : f32 := binary_normalize prec32 emax32 n 0 false.

(** Widening to binary64, which is exact. *)
Definition to_float (x : f32) : float :=
  match x with
  | S754_finite s m e => SF2Prim (binary_round prec emax s m e)
  | other => SF2Prim other
  end.

Definition add : f32 -> f32 -> f32 := SFadd prec32 emax32.
Definition sub : f32 -> f32 -> f32 := SFsub prec32 emax32.
Definition mul : f32 -> f32 -> f32 := SFmul prec32 emax32.
Definition div : f32 -> f32 -> f32 := SFdiv prec32 emax32.
Definition abs : f32 -> f32 := SFabs.

End F32.

(** A two-dimensional numpy array of float32, [shape = (rows, cols)]. *)
Record ndarray : Type := {
  rows : nat;
  cols : nat;
  at_ : nat -> nat -> F32.f32
}.

Definition nd_map (f : F32.f32 -> F32.f32) (a : ndarray) : ndarray :=
  {| rows := rows a; cols := cols a; at_ := fun r c => f (at_ a r c) |}.

Definition nd_map2 (f : F32.f32 -> F32.f32 -> F32.f32) (a b : ndarray) : ndarray :=
  {| rows := rows a; cols := cols a; at_ := fun r c => f (at_ a r c) (at_ b r c) |}.

(** [a[:, c]] and [a[r, :]]. *)
Definition column (a : ndarray) (c : nat) : list F32.f32 :=
  map (fun r => at_ a r c) (seq 0 (rows a)).

Definition row (a : ndarray) (r : nat) : list F32.f32 :=
  map (fun c => at_ a r c) (seq 0 (cols a)).

(** [range(start, stop, step)] for a positive step. *)
Definition py_range (start stop step : nat) : list nat :=
  map (fun i => start + i * step)%nat
      (seq 0 ((stop - start + (step - 1)) / step)).

(** ** Errors *)

Definition exn : Type := string.

Inductive result (A : Type) : Type :=
| Ok (a : A)
| Raise (e : exn).
Arguments Ok {A} a.
Arguments Raise {A} e.

Definition bind {A B : Type} (r : result A) (k : A -> result B) : result B :=
  match r with
  | Ok a => k a
  | Raise e => Raise e
  end.

Notation "x <- r ;; k" := (bind r (fun x => k))
  (at level 61, r at next level, right associativity).

(** [try: body except Exception: handler]. *)
Definition try_except {A : Type} (body : result A) (handler : A) : A :=
  match body with
  | Ok a => a
  | Raise _ => handler
  end.

(** [len(obj)]. *)
Definition py_len (obj : pyobj) : result Z :=
  match obj with
  | PNone => Raise "TypeError: object of type 'NoneType' has no len()"
  | PStr s => Ok (Z.of_nat (str_len s))
  | PInt _ => Raise "TypeError: object of type 'int' has no len()"
  | POther _ _ (Some n) => Ok (Z.of_nat n)
  | POther _ _ None => Raise "TypeError: object has no len()"
  | PList l => Ok (Z.of_nat (List.length l))
  | PDict d => Ok (Z.of_nat (List.length d))
  end.

(** ** Images and the libraries around them *)

(** A value of [img.info]: raw bytes, or any other Python object. *)
Inductive info_value : Type :=
| InfoBytes (b : list Byte.byte)
| InfoObj (o : pyobj).

(** A value of a piexif tag: raw bytes, or any other Python object. *)
Inductive exif_value : Type :=
| ExifBytes (b : list Byte.byte)
| ExifObj (o : pyobj).

(** One entry of the mapping [piexif.load] returns: a tag directory, or
    something that is not a [dict] (the thumbnail). *)
Inductive ifd_entry : Type :=
| IfdDict (tags : list (Z * exif_value))
| IfdOther.

Definition exif_dict : Type := list (string * ifd_entry).

(** A decoded [PIL.Image.Image].  Pillow refuses to identify a file with
    a dimension below one, hence [positive]; [size = (width, height)].
    The pixel store belongs to Pillow and stays abstract. *)
Record Image (raster : Type) : Type := {
  format : option string;
  mode : string;
  size : positive * positive;
  info : list (string * info_value);
  pixels : raster
}.
Arguments format {raster} _.
Arguments mode {raster} _.
Arguments size {raster} _.
Arguments info {raster} _.
Arguments pixels {raster} _.

(** The operations of Pillow, piexif, numpy and scikit-image the module
    calls.  Those the module calls under [try], and those whose argument
    the module does not keep inside their domain, return a [result]. *)
Class Libs (raster : Type) : Type := {
  (** [Image.open(io.BytesIO(data))] *)
  Image_open : list Byte.byte -> result (Image raster);
  (** [ImageOps.exif_transpose(img)] *)
  ImageOps_exif_transpose : Image raster -> result (Image raster);
  (** [img.resize(new_size, Image.BICUBIC)] *)
  Image_resize : Image raster -> Z * Z -> result (Image raster);
  (** [img.tobytes()] *)
  Image_tobytes : Image raster -> result (list Byte.byte);
  (** [np.asarray(img.convert(m), dtype=np.float32)[..., k]] *)
  np_asarray_f32 : Image raster -> string -> nat -> ndarray;
  (** [piexif.load(data)] *)
  piexif_load : info_value -> result exif_dict;
  (** [piexif.TAGS[ifd_name][tag_id]["name"]]; [None] is a failed lookup *)
  piexif_TAGS : string -> Z -> option string;
  (** [value.decode("utf-8", "ignore")] *)
  bytes_decode_utf8_ignore : list Byte.byte -> result string;
  (** [np.mean] of a one-dimensional float32 array *)
  np_mean : list F32.f32 -> F32.f32;
  (** [np.std] of a two-dimensional float32 array *)
  np_std : ndarray -> F32.f32;
  (** [skimage.filters.laplace] *)
  laplace : ndarray -> ndarray;
  (** [skimage.measure.shannon_entropy] *)
  shannon_entropy : ndarray -> float
}.

Section Pipeline.
Context {U : Unicode} {raster : Type} {L : Libs raster}.

Let image : Type := Image raster.

(** *** Image utilities *)

Definition _load_image_from_bytes (data : list Byte.byte) : result image :=
  img <- Image_open data ;;
  img <- ImageOps_exif_transpose img ;;
  Ok img.

Definition _pil_to_nd_gray (img : image) : ndarray :=
  if negb ((mode img =? "L")%string || (mode img =? "LA")%string) then
    let c255 := F32.of_float 255.0 in
    let arr k := nd_map (fun x => F32.div x c255) (np_asarray_f32 img "RGB" k) in
    let scaled w k := nd_map (fun x => F32.mul (F32.of_float w) x) (arr k) in
    nd_map2 F32.add
      (nd_map2 F32.add (scaled 0.299 0%nat) (scaled 0.587 1%nat))
      (scaled 0.114 2%nat)
  else
    nd_map (fun x => F32.div x (F32.of_float 255.0)) (np_asarray_f32 img "L" 0).

Definition _resize_for_metrics_with (max_side : Z) (img : image) : result image :=
  let '(w, h) := size img in
  let scale :=
    py_min 1.0 (float_of_Z max_side / float_of_Z (Z.max (Zpos w) (Zpos h))) in
  if scale <? 1.0 then
    let new_size := (py_round (float_of_Z (Zpos w) * scale),
                     py_round (float_of_Z (Zpos h) * scale)) in
    Image_resize img new_size
  else Ok img.

Definition _resize_for_metrics (img : image) : result image :=
  _resize_for_metrics_with 1024 img.

(** *** Metadata extraction *)

Definition info_truthy (v : info_value) : bool :=
  match v with
  | InfoBytes b => match b with [] => false | _ => true end
  | InfoObj o => py_bool o
  end.

Fixpoint info_get (k : string) (d : list (string * info_value)) : option info_value :=
  match d with
  | [] => None
  | (k', v) :: d' => if (k' =? k)%string then Some v else info_get k d'
  end.

Definition bytes_placeholder (b : list Byte.byte) : pyobj :=
  PDict [("type", PStr "bytes"); ("length", PInt (Z.of_nat (List.length b)))].

(** The loop over [img.info], building [info]. *)
Definition collect_info (entries : list (string * info_value)) : pydict :=
  fold_left
    (fun acc kv =>
       match snd kv with
       | InfoBytes b => dict_set (fst kv) (bytes_placeholder b) acc
       | InfoObj o => dict_set (fst kv) o acc
       end)
    entries [].

(** [len(v)] on a value of [img.info]. *)
Definition info_len (v : info_value) : result Z :=
  match v with
  | InfoBytes b => Ok (Z.of_nat (List.length b))
  | InfoObj o => py_len o
  end.

(** The loop over the tags of one directory, building [readable_ifd]. *)
Definition readable_tags (ifd_name : string) (tags : list (Z * exif_value)) : pydict :=
  fold_left
    (fun readable_ifd tv =>
       let '(tag_id, value) := tv in
       let tag_name :=
         match piexif_TAGS ifd_name tag_id with
         | Some name => name
         | None => str_of_int tag_id
         end in
       match value with
       | ExifBytes b =>
           let text :=
             try_except (bytes_decode_utf8_ignore b)
               ("<bytes:" ++ str_of_int (Z.of_nat (List.length b)) ++ ">")%string in
           dict_set tag_name (PStr text) readable_ifd
       | ExifObj o => dict_set tag_name o readable_ifd
       end)
    tags [].

(** The loop over the directories, building [exif_data]. *)
Definition readable_exif (loaded : exif_dict) : pydict :=
  fold_left
    (fun exif_data entry =>
       match snd entry with
       | IfdDict tags =>
           match readable_tags (fst entry) tags with
           | [] => exif_data
           | readable_ifd => dict_set (fst entry) (PDict readable_ifd) exif_data
           end
       | IfdOther => exif_data
       end)
    loaded [].

(** The [try] block of [extract_metadata]: both calls of [piexif.load]
    and [img.tobytes()] may raise, which leaves [exif_data] empty. *)
Definition load_exif (img : image) : result exif_dict :=
  match info_get "exif" (info img) with
  | Some exif_bytes =>
      if info_truthy exif_bytes then piexif_load exif_bytes
      else raw <- Image_tobytes img ;; piexif_load (InfoBytes raw)
  | None => raw <- Image_tobytes img ;; piexif_load (InfoBytes raw)
  end.

Definition exif_data_of (img : image) : pydict :=
  try_except (loaded <- load_exif img ;; Ok (readable_exif loaded)) [].

Definition extract_metadata (img : image) : result pydict :=
  let meta : pydict := [] in
  let meta :=
    dict_set "format"
      (match format img with Some f => PStr f | None => PNone end) meta in
  let meta := dict_set "mode" (PStr (mode img)) meta in
  let meta :=
    dict_set "size"
      (PDict [("width", PInt (Zpos (fst (size img))));
              ("height", PInt (Zpos (snd (size img))))]) meta in
  let img_info := info img in
  let info := collect_info img_info in
  let meta := match info with [] => meta | _ => dict_set "pil_info" (PDict info) meta end in
  let icc := info_get "icc_profile" img_info in
  meta <-
    match icc with
    | Some v =>
        if info_truthy v then
          n <- info_len v ;; Ok (dict_set "icc_profile_length" (PInt n) meta)
        else Ok meta
    | None => Ok meta
    end ;;
  let exif_data := exif_data_of img in
  let meta := match exif_data with [] => meta | _ => dict_set "exif" (PDict exif_data) meta end in
  Ok meta.

(** *** Heuristic metrics *)

(** One pass of the two boundary loops: [np.mean(np.abs(a - b))] of two
    slices. *)
Definition mean_abs_diff (a b : list F32.f32) : F32.f32 :=
  np_mean (map (fun p => F32.abs (F32.sub (fst p) (snd p))) (combine a b)).

(** The lists [v_edges] (columns at multiples of 8) and [h_edges] (rows
    at multiples of 8) that [compute_blockiness] builds. *)
Definition v_edges (gray : ndarray) : list F32.f32 :=
  let W := cols gray in
  fold_left
    (fun v_edges c =>
       if (c <? W)%nat
       then v_edges ++ [mean_abs_diff (column gray c) (column gray (c - 1))]
       else v_edges)
    (py_range 8 W 8) [].

Definition h_edges (gray : ndarray) : list F32.f32 :=
  let H := rows gray in
  fold_left
    (fun h_edges r =>
       if (r <? H)%nat
       then h_edges ++ [mean_abs_diff (row gray r) (row gray (r - 1))]
       else h_edges)
    (py_range 8 H 8) [].

Definition compute_blockiness (gray : ndarray) : float :=
  let H := rows gray in
  let W := cols gray in
  if (H <? 16)%nat || (W <? 16)%nat then 0.0 else
  let all_edges := v_edges gray ++ h_edges gray in
  match all_edges with
  | [] => 0.0
  | _ =>
      let val := F32.to_float (np_mean all_edges) in
      np_clip val 0.0 1.0
  end.

Definition compute_noise (gray : ndarray) : float :=
  let lap := laplace gray in
  let noise := F32.to_float (np_std lap) in
  np_clip (noise * 2.0) 0.0 1.0.

Definition compute_entropy (gray : ndarray) : float :=
  let ent := shannon_entropy gray in
  np_clip (ent / 8.0) 0.0 1.0.

(** *** Analysis *)

Record MetricSet : Type := {
  blockiness : float;
  noise_estimate : float;
  hist_entropy : float
}.

Record AnalysisResult : Type := {
  score : float;
  label : string;
  reasons : list string;
  metadata : pydict;
  metrics : MetricSet
}.

Definition analyze_image (img : image) : result AnalysisResult :=
  img_small <- _resize_for_metrics img ;;
  let gray := _pil_to_nd_gray img_small in
  metadata <- extract_metadata img ;;
  let blockiness := compute_blockiness gray in
  let noise := compute_noise gray in
  let entropy := compute_entropy gray in
  let metrics :=
    {| blockiness := blockiness; noise_estimate := noise; hist_entropy := entropy |} in
  let reasons : list string := [] in
  let gen_reasons := detect_generator_reasons (PDict metadata) in
  let reasons := reasons ++ gen_reasons in
  let has_exif :=
    match dict_get "exif" metadata with
    | Some v => py_bool v
    | None => false
    end in
  let reasons :=
    if negb has_exif then reasons ++ ["No EXIF metadata present"%string] else reasons in
  let reasons :=
    if entropy <? 0.35 then reasons ++ ["Low histogram entropy"%string] else reasons in
  let reasons :=
    if noise <? 0.20 then reasons ++ ["Low high-frequency noise"%string] else reasons in
  let reasons :=
    if (blockiness <? 0.05)
       && negb (match format img with Some f => (f =? "PNG")%string | None => false end)
    then reasons ++ ["Very low JPEG blockiness"%string] else reasons in
  let score := 0.0 in
  let score := match gen_reasons with [] => score | _ => score + 0.6 end in
  let score := if negb has_exif then score + 0.15 else score in
  let score := score + (0.35 - py_min entropy 0.35) / 0.35 * 0.1 in
  let score := score + (0.20 - py_min noise 0.20) / 0.20 * 0.1 in
  let score := score + (0.05 - py_min blockiness 0.05) / 0.05 * 0.05 in
  let score := np_clip score 0.0 1.0 in
  let label :=
    if 0.75 <=? score then "Likely AI-generated"%string
    else if 0.45 <=? score then "Possibly AI-generated"%string
    else "Likely human-captured"%string in
  Ok {| score := score; label := label; reasons := reasons;
        metadata := metadata; metrics := metrics |}.

(** *** The entry point

    What both routes do with the bytes they obtained: a failure of the
    loader is caught and answered as an invalid image; [analyze_image]
    runs outside any handler, so what it raises escapes. *)
Inductive outcome : Type :=
| Analysed (r : AnalysisResult)
| InvalidImage (e : exn)
| Uncaught (e : exn).

Definition analyze (data : list Byte.byte) : outcome :=
  match _load_image_from_bytes data with
  | Raise e => InvalidImage e
  | Ok img =>
      match analyze_image img with
      | Ok r => Analysed r
      | Raise e => Uncaught e
      end
  end.

End Pipeline.

(** ** Routes

    The two POST views and the health check.  Flask's request object is
    represented by what the views read from it; fetching a URL and
    rendering a result as JSON are Flask's and urllib's business and
    stay abstract.  A view that lets an exception escape is a [Raise]. *)

(** [k in obj] for a string [k]: key lookup in a mapping, equality with
    an element in a list, containment in a string; anything a JSON
    parser can yield besides (numbers, booleans, null) is not iterable. *)
Definition py_contains (k : string) (obj : pyobj) : result bool :=
  match obj with
  | PDict d => Ok (match dict_get k d with Some _ => true | None => false end)
  | PList l =>
      Ok (existsb (fun x => match x with PStr s => (s =? k)%string | _ => false end) l)
  | PStr s => Ok (py_in k s)
  | PNone | PInt _ | POther _ _ _ => Raise "TypeError: argument is not iterable"
  end.

(** [obj[k]] for a string [k]. *)
Definition py_getitem (k : string) (obj : pyobj) : result pyobj :=
  match obj with
  | PDict d =>
      match dict_get k d with
      | Some v => Ok v
      | None => Raise "KeyError"
      end
  | PList _ => Raise "TypeError: list indices must be integers or slices, not str"
  | PStr _ => Raise "TypeError: string indices must be integers"
  | PNone | PInt _ | POther _ _ _ => Raise "TypeError: object is not subscriptable"
  end.

(** What a view sends back: a JSON document and a status code. *)
Inductive document : Type :=
| StatusDoc (status : string)
| ErrorDoc (error : string)
| ResultDoc (rendered : string).

Definition response : Type := (document * Z)%type.

(** [request.files] of an upload: field names and the bytes [read()]
    returns for them. *)
Definition upload_request : Type := list (string * list Byte.byte).

Fixpoint files_get (k : string) (files : upload_request) : option (list Byte.byte) :=
  match files with
  | [] => None
  | (k', v) :: files' => if (k' =? k)%string then Some v else files_get k files'
  end.

(** Network and rendering. *)
Class Web : Type := {
  (** [request.get_json(force=True)] on a request body *)
  get_json : list Byte.byte -> result pyobj;
  (** [urllib.request.urlopen(url)] followed by [resp.read()] *)
  urlopen_read : pyobj -> result (list Byte.byte);
  (** [jsonify(result)] *)
  jsonify : AnalysisResult -> result string
}.

Section Routes.
Context {U : Unicode} {raster : Type} {L : Libs raster} {W : Web}.

Definition health : result response := Ok (StatusDoc "ok", 200%Z).

Definition analyze_upload (files : upload_request) : result response :=
  match files_get "file" files with
  | None => Ok (ErrorDoc "Missing 'file' in multipart form-data", 400%Z)
  | Some data =>
      match data with
      | [] => Ok (ErrorDoc "Empty file", 400%Z)
      | _ =>
          match _load_image_from_bytes data with
          | Raise e => Ok (ErrorDoc ("Invalid image: " ++ e), 400%Z)
          | Ok img =>
              result <- analyze_image img ;;
              rendered <- jsonify result ;;
              Ok (ResultDoc rendered, 200%Z)
          end
      end
  end.

Definition analyze_url (body : list Byte.byte) : result response :=
  let payload := try_except (get_json body) PNone in
  if negb (py_bool payload) then Ok (ErrorDoc "Provide JSON with 'url'", 400%Z)
  else
    has_url <- py_contains "url" payload ;;
    if negb has_url then Ok (ErrorDoc "Provide JSON with 'url'", 400%Z)
    else
      url <- py_getitem "url" payload ;;
      match urlopen_read url with
      | Raise e => Ok (ErrorDoc ("Failed to fetch URL: " ++ e), 400%Z)
      | Ok data =>
          match _load_image_from_bytes data with
          | Raise e => Ok (ErrorDoc ("Invalid image from URL: " ++ e), 400%Z)
          | Ok img =>
              result <- analyze_image img ;;
              rendered <- jsonify result ;;
              Ok (ResultDoc rendered, 200%Z)
          end
      end.

End Routes.

(** ** Reference notions the statements are phrased with *)
Module Spec.

(** All keys and leaf values of a record, lower-cased, in document
    order. *)
Fixpoint tokens {U : Unicode} (obj : pyobj) : list string :=
  match obj with
  | PDict entries =>
      flat_map (fun kv => lower (fst kv) :: tokens (snd kv)) entries
  | PList items => flat_map tokens items
  | leaf =>
      match py_str leaf with
      | Some s => [lower s]
      | None => []
      end
  end.

(** A keyword is found when some token contains it. *)
Definition found {U : Unicode} (md : pyobj) (kw : string) : bool :=
  existsb (fun t => py_in kw t) (tokens md).

(** [text_at s obj]: the text [s] is a key, or the text of a leaf value,
    somewhere inside [obj]. *)
Inductive text_at (s : string) : pyobj -> Prop :=
| at_none : py_str PNone = Some s -> text_at s PNone
| at_str : forall v, py_str (PStr v) = Some s -> text_at s (PStr v)
| at_int : forall n, py_str (PInt n) = Some s -> text_at s (PInt n)
| at_other : forall r b n,
    py_str (POther r b n) = Some s -> text_at s (POther r b n)
| at_item : forall items it, In it items -> text_at s it -> text_at s (PList items)
| at_key : forall entries v, In (s, v) entries -> text_at s (PDict entries)
| at_value : forall entries k v,
    In (k, v) entries -> text_at s v -> text_at s (PDict entries).

(** The five terms of the score. *)
Definition ramp (c k x : float) : float := (c - py_min x c) / c * k.

Definition signature_term {U : Unicode} (md : pydict) : float :=
  if existsb (found (PDict md)) GENERATOR_KEYWORDS then 0.60 else 0.

Definition exif_absent (md : pydict) : bool :=
  match dict_get "exif" md with
  | None => true
  | Some _ => false
  end.

Definition exif_absent_or_empty (md : pydict) : bool :=
  match dict_get "exif" md with
  | None | Some (PDict []) => true
  | Some _ => false
  end.

Definition exif_term (md : pydict) : float :=
  if exif_absent md then 0.15 else 0.

Definition clamp01 (x : float) : float := np_clip x 0 1.

Definition score_formula {U : Unicode} (md : pydict) (m : MetricSet) : float :=
  clamp01 (signature_term md + exif_term md
           + ramp 0.35 0.10 (hist_entropy m)
           + ramp 0.20 0.10 (noise_estimate m)
           + ramp 0.05 0.05 (blockiness m)).

(** The reason list, section by section. *)
Definition when (b : bool) (s : string) : list string := if b then [s] else [].

Definition is_png (fmt : option string) : bool :=
  match fmt with
  | Some f => (f =? "PNG")%string
  | None => false
  end.

Definition reasons_in_order {U : Unicode}
    (fmt : option string) (md : pydict) (m : MetricSet) : list string :=
  map generator_reason (filter (found (PDict md)) GENERATOR_KEYWORDS)
  ++ when (exif_absent_or_empty md) "No EXIF metadata present"
  ++ when (hist_entropy m <? 0.35) "Low histogram entropy"
  ++ when (noise_estimate m <? 0.20) "Low high-frequency noise"
  ++ when ((blockiness m <? 0.05) && negb (is_png fmt)) "Very low JPEG blockiness".

(** The four reasons that do not name a generator. *)
Definition fixed_reasons : list string :=
  ["No EXIF metadata present"; "Low histogram entropy";
   "Low high-frequency noise"; "Very low JPEG blockiness"]%string.

(** The label that goes with a score. *)
Definition label_for (score : float) : string :=
  if 0.75 <=? score then "Likely AI-generated"
  else if 0.45 <=? score then "Possibly AI-generated"
  else "Likely human-captured".

(** A number that is zero, positive, or plus infinity. *)
Definition SFnonneg (x : spec_float) : Prop :=
  match x with
  | S754_zero _ => True
  | S754_infinity s => s = false
  | S754_finite s _ _ => s = false
  | S754_nan => False
  end.

Definition nonneg (x : float) : Prop := SFnonneg (Prim2SF x).

(** A positive finite constant. *)
Definition positive_finite (c : float) : Prop :=
  exists m e, Prim2SF c = S754_finite false m e.

End Spec.
Import Spec.

(** ** Further notions

    What an entry of [img.info] becomes in the record, the ICC step of
    [extract_metadata] taken alone and the record around its outcome,
    the key and the value a tag is stored with, the cells the blockiness
    reads, what both views do once they hold the bytes, and what it
    means for the libraries to answer a second call as the first. *)
Definition info_to_meta (v : info_value) : pyobj :=
  match v with
  | InfoBytes b => bytes_placeholder b
  | InfoObj o => o
  end.

Section Record.
Context {raster : Type} {L : Libs raster}.

(** Nothing to add, a length to add, or the exception of [len()]. *)
Definition icc_step (img : Image raster) : result (option Z) :=
  match info_get "icc_profile" (info img) with
  | Some v => if info_truthy v then n <- info_len v ;; Ok (Some n) else Ok None
  | None => Ok None
  end.

Definition record_with (icc : option Z) (img : Image raster) : pydict :=
  let meta : pydict :=
    [("format"%string, match format img with Some f => PStr f | None => PNone end);
     ("mode"%string, PStr (mode img));
     ("size"%string,
      PDict [("width"%string, PInt (Zpos (fst (size img))));
             ("height"%string, PInt (Zpos (snd (size img))))])] in
  let meta :=
    match collect_info (info img) with
    | [] => meta
    | d => dict_set "pil_info" (PDict d) meta
    end in
  let meta :=
    match icc with
    | Some n => dict_set "icc_profile_length" (PInt n) meta
    | None => meta
    end in
  match exif_data_of img with
  | [] => meta
  | d => dict_set "exif" (PDict d) meta
  end.

End Record.

Definition on_block_boundary (r c : nat) : bool :=
  ((7 <=? c)%nat && ((c mod 8 =? 0)%nat || (c mod 8 =? 7)%nat))
  || ((7 <=? r)%nat && ((r mod 8 =? 0)%nat || (r mod 8 =? 7)%nat)).

Section Views.
Context {U : Unicode} {raster : Type} {L : Libs raster} {W : Web}.

Definition tag_name (ifd_name : string) (tag_id : Z) : string :=
  match piexif_TAGS ifd_name tag_id with
  | Some name => name
  | None => str_of_int tag_id
  end.

Definition tag_value (value : exif_value) : pyobj :=
  match value with
  | ExifBytes b =>
      PStr (try_except (bytes_decode_utf8_ignore b)
              ("<bytes:" ++ str_of_int (Z.of_nat (List.length b)) ++ ">")%string)
  | ExifObj o => o
  end.

Definition answer (prefix : string) (data : list Byte.byte) : result response :=
  match analyze data with
  | InvalidImage e => Ok (ErrorDoc (prefix ++ e), 400%Z)
  | Uncaught e => Raise e
  | Analysed r => rendered <- jsonify r ;; Ok (ResultDoc rendered, 200%Z)
  end.

End Views.

Section TwoCalls.
Context {raster : Type} (L1 L2 : Libs raster).


End TwoCalls.

(** ** Magnitudes

    A non-negative finite binary64 number counted in units of 2^-2200,
    which is fine enough for every exact product and quotient of two
    such numbers; [up] bounds what rounding to nearest can add to a
    value: one part in 2^52, or one unit of the least exponent. *)
Definition grid : Z := 2200.

Definition units (x : spec_float) : option Z :=
  match x with
  | S754_zero _ => Some 0%Z
  | S754_finite false m e => Some (Zpos m * 2 ^ (e + grid))%Z
  | _ => None
  end.

Definition up (V : Z) : Z :=
  Z.shiftr (V * (2 ^ 52 + 1) + 2 ^ (grid - 1074 + 52))%Z 52%Z.

Definition at_most (x : float) (A : Z) : Prop :=
  exists u, units (Prim2SF x) = Some u /\ (u <= A)%Z.

Definition float_units (c : float) : Z :=
  match units (Prim2SF c) with
  | Some u => u
  | None => 0%Z
  end.

Definition quotient_bound : Z := (2 ^ grid + 2 ^ (grid - 50))%Z.

Definition product_bound (uk : Z) : Z :=
  (Z.shiftr (up quotient_bound * uk) grid + 1)%Z.

Definition ramp_bound (k : float) : Z := up (product_bound (float_units k)).

Definition ramp_in_range (c k : float) : bool :=
  ((float_units c <=? 2 ^ (grid + 900))
   && (up (float_units c) * 2 ^ grid <=? quotient_bound * float_units c)
   && (quotient_bound <=? 2 ^ (grid + 900))
   && (product_bound (float_units k) <=? 2 ^ (grid + 900)))%Z.

Definition score_bound_without_tag : Z :=
  up (up (up (float_units 0.15 + ramp_bound 0.10) + ramp_bound 0.10)
      + ramp_bound 0.05).

Definition scale_bound : Z := (2 ^ grid - 2 ^ (grid - 11))%Z.

(** ** A small executable instance of the library interface

    Enough to run the pipeline on concrete inputs: a raw container made
    of a four-byte header (width and height, big-endian) and one byte
    per pixel, and the same behind the byte 0x89, with which PNG files
    begin, which the opener tags as PNG; a resize that keeps the
    top-left pixel of each cell and, like Pillow's, rejects an empty
    target; an orientation step that returns a copy; simple stand-ins
    for the numeric routines; and a lower-casing that knows one mapping
    outside ASCII. *)
Module Demo.

(** U+212A KELVIN SIGN, which lower-cases to [k]; any other run of code
    points from 128 up is left as it is. *)
Definition kelvin_sign : string :=
  String "226"%char (String "132"%char (String "170"%char EmptyString)).

#[export] Instance unicode : Unicode := {|
  lower_run := fun _ run _ => if (run =? kelvin_sign)%string then "k"%string else run
|}.

Definition be16 (hi lo : Byte.byte) : nat :=
  Byte.to_nat hi * 256 + Byte.to_nat lo.

Definition plane_of (w h : nat) (payload : list Byte.byte) : ndarray :=
  {| rows := h; cols := w;
     at_ := fun r c =>
       F32.of_Z (Z.of_nat (Byte.to_nat (nth (r * w + c) payload Byte.x00))) |}.

Definition open_raw (data : list Byte.byte) : result (Image ndarray) :=
  match data with
  | w1 :: w0 :: h1 :: h0 :: payload =>
      let w := be16 w1 w0 in
      let h := be16 h1 h0 in
      if ((0 <? w) && (0 <? h) && (List.length payload =? w * h))%nat
      then Ok {| format := Some "RAW"%string; mode := "L"%string;
                 size := (Pos.of_nat w, Pos.of_nat h);
                 info := []; pixels := plane_of w h payload |}
      else Raise "UnidentifiedImageError"%string
  | _ => Raise "UnidentifiedImageError"%string
  end.

Definition open (data : list Byte.byte) : result (Image ndarray) :=
  match data with
  | Byte.x89 :: rest =>
      img <- open_raw rest ;;
      Ok {| format := Some "PNG"%string; mode := mode img; size := size img;
            info := info img; pixels := pixels img |}
  | _ => open_raw data
  end.

Definition resize (img : Image ndarray) (new_size : Z * Z) : result (Image ndarray) :=
  let '(w, h) := new_size in
  if ((w <? 1) || (h <? 1))%Z
  then Raise "ValueError: height and width must be > 0"%string
  else
    let '(w0, h0) := size img in
    let src := pixels img in
    Ok {| format := None; mode := mode img;
          size := (Z.to_pos w, Z.to_pos h);
          info := info img;
          pixels :=
            {| rows := Z.to_nat h; cols := Z.to_nat w;
               at_ := fun r c =>
                 at_ src (r * Pos.to_nat h0 / Z.to_nat h)
                         (c * Pos.to_nat w0 / Z.to_nat w) |} |}.

(** Every non-empty EXIF blob is read as a single [Software] tag. *)
Definition load (v : info_value) : result exif_dict :=
  match v with
  | InfoBytes ((_ :: _) as b) => Ok [("0th"%string, IfdDict [(305%Z, ExifBytes b)])]
  | _ => Raise "InvalidImageDataError"%string
  end.

Definition tags (ifd_name : string) (tag_id : Z) : option string :=
  if ((ifd_name =? "0th")%string && (tag_id =? 305)%Z)%bool
  then Some "Software"%string else None.

(** No orientation to apply: a copy, which as in Pillow carries no
    format. *)
Definition transpose (img : Image ndarray) : result (Image ndarray) :=
  Ok {| format := None; mode := mode img; size := size img;
        info := info img; pixels := pixels img |}.

Definition mean (l : list F32.f32) : F32.f32 :=
  F32.div (fold_left F32.add l (F32.of_Z 0)) (F32.of_Z (Z.of_nat (List.length l))).

#[export] Instance libs : Libs ndarray := {|
  Image_open := open;
  ImageOps_exif_transpose := transpose;
  Image_resize := resize;
  Image_tobytes := fun _ => Ok [];
  np_asarray_f32 := fun img _ _ => pixels img;
  piexif_load := load;
  piexif_TAGS := tags;
  bytes_decode_utf8_ignore := fun b => Ok (string_of_list_byte b);
  np_mean := mean;
  np_std := fun a => mean (row a 0);
  laplace := fun a => a;
  shannon_entropy := fun a => F32.to_float (mean (row a 0))
|}.

(** A 1 x 1 gray file, a 1 x 2048 gray file, and two decoded pictures. *)
Definition tiny_file : list Byte.byte :=
  [Byte.x00; Byte.x01; Byte.x00; Byte.x01; Byte.x80].

Definition tall_file : list Byte.byte :=
  [Byte.x00; Byte.x01; Byte.x08; Byte.x00] ++ repeat Byte.x80 2048.

Definition tall_picture : Image ndarray :=
  {| format := None; mode := "L"%string; size := (1, 2048)%positive;
     info := []; pixels := plane_of 1 2048 (repeat Byte.x80 2048) |}.

Definition flat_plane (w h : nat) (v : Z) : ndarray :=
  {| rows := h; cols := w; at_ := fun _ _ => F32.of_Z v |}.

Definition png_picture : Image ndarray :=
  {| format := Some "PNG"%string; mode := "RGB"%string; size := (32, 32)%positive;
     info := [("Software"%string, InfoObj (PStr "Made with MidJourney v6"))];
     pixels := flat_plane 32 32 128 |}.

Definition jpeg_picture : Image ndarray :=
  {| format := Some "JPEG"%string; mode := "RGB"%string; size := (8, 8)%positive;
     info := [("exif"%string, InfoBytes [Byte.x43; Byte.x61; Byte.x6d])];
     pixels := flat_plane 8 8 40 |}.

(** Stand-ins for the web side: a body is a brace followed by the URL,
    or a quote followed by the text of a JSON string; two URLs can be
    fetched; a result is rendered by its label. *)
Definition parse_json (body : list Byte.byte) : result pyobj :=
  match body with
  | Byte.x7b :: rest => Ok (PDict [("url"%string, PStr (string_of_list_byte rest))])
  | Byte.x22 :: rest => Ok (PStr (string_of_list_byte rest))
  | _ => Raise "BadRequest"%string
  end.

Definition fetch (url : pyobj) : result (list Byte.byte) :=
  match url with
  | PStr u =>
      if (u =? "demo://tiny")%string then Ok tiny_file
      else if (u =? "demo://tall")%string then Ok tall_file
      else Raise "URLError"%string
  | _ => Raise "AttributeError"%string
  end.

#[export] Instance web : Web := {|
  get_json := parse_json;
  urlopen_read := fetch;
  jsonify := fun r => Ok (label r)
|}.

(** A picture whose EXIF blob spells a generator, a grid that differs
    from a flat one in a single cell away from every block boundary, and
    a request body naming the first demo URL. *)
Definition tagged_picture : Image ndarray :=
  {| format := Some "JPEG"%string; mode := "RGB"%string; size := (8, 8)%positive;
     info := [("exif"%string, InfoBytes [Byte.x53; Byte.x44; Byte.x58; Byte.x4c])];
     pixels := flat_plane 8 8 40 |}.

Definition dented_plane (w h : nat) (v : Z) : ndarray :=
  {| rows := h; cols := w;
     at_ := fun r c => if ((r =? 1) && (c =? 1))%nat then F32.of_Z 0 else F32.of_Z v |}.

Definition tiny_body : list Byte.byte :=
  Byte.x7b :: list_byte_of_string "demo://tiny".

Definition plain_picture : Image ndarray :=
  {| format := Some "PNG"%string; mode := "L"%string; size := (32, 32)%positive;
     info := []; pixels := flat_plane 32 32 90 |}.

(** The record of [png_picture]. *)
Definition png_record : pydict :=
  [("format"%string, PStr "PNG"); ("mode"%string, PStr "RGB");
   ("size"%string, PDict [("width"%string, PInt 32); ("height"%string, PInt 32)]);
   ("pil_info"%string, PDict [("Software"%string, PStr "Made with MidJourney v6")])].

(** A 32 x 32 file of one shade of gray in the container tagged PNG,
    what the opener makes of it, what the loader hands back, and the
    record of that. *)
Definition png_file : list Byte.byte :=
  [Byte.x89; Byte.x00; Byte.x20; Byte.x00; Byte.x20] ++ repeat Byte.x5a 1024.

Definition png_opened : Image ndarray :=
  {| format := Some "PNG"%string; mode := "L"%string; size := (32, 32)%positive;
     info := []; pixels := plane_of 32 32 (repeat Byte.x5a 1024) |}.

Definition png_loaded : Image ndarray :=
  {| format := None; mode := "L"%string; size := (32, 32)%positive;
     info := []; pixels := plane_of 32 32 (repeat Byte.x5a 1024) |}.

Definition png_file_record : pydict :=
  [("format"%string, PNone); ("mode"%string, PStr "L");
   ("size"%string, PDict [("width"%string, PInt 32); ("height"%string, PInt 32)])].

(** A picture whose [icc_profile] is a number, one whose [icc_profile]
    is a text of three code points in five bytes, and a value spelling a
    generator with the Kelvin sign for its K. *)
Definition odd_picture : Image ndarray :=
  {| format := None; mode := "L"%string; size := (8, 8)%positive;
     info := [("icc_profile"%string, InfoObj (PInt 7))];
     pixels := flat_plane 8 8 40 |}.

Definition text_icc_picture : Image ndarray :=
  {| format := None; mode := "L"%string; size := (8, 8)%positive;
     info := [("icc_profile"%string, InfoObj (PStr ("s" ++ kelvin_sign ++ "R")))];
     pixels := flat_plane 8 8 40 |}.

Definition kelvin_tag : pyobj :=
  PDict [("Software"%string, PStr ("INVO" ++ kelvin_sign ++ "EAI"))].


(** A 1 x 4096 gray file and the picture it decodes to. *)
Definition thin_file : list Byte.byte :=
  [Byte.x00; Byte.x01; Byte.x10; Byte.x00] ++ repeat Byte.x80 4096.

Definition thin_picture : Image ndarray :=
  {| format := None; mode := "L"%string; size := (1, 4096)%positive;
     info := []; pixels := plane_of 1 4096 (repeat Byte.x80 4096) |}.

End Demo.

(** * Properties *)

(** ** Strings *)

Lemma string_app_assoc (a b c : string) :
  ((a ++ b) ++ c = a ++ b ++ c)%string.
Proof. induction a as [|x a IH]; simpl; [reflexivity | now rewrite IH]. Qed.

Lemma string_app_nil_r (a : string) : (a ++ EmptyString)%string = a.
Proof. induction a as [|x a IH]; simpl; [reflexivity | now rewrite IH]. Qed.

Lemma lower_ascii_is_ascii (c : ascii) : is_ascii (lower_ascii c) = is_ascii c.
Proof. destruct c as [[] [] [] [] [] [] [] []]; reflexivity. Qed.

Lemma ascii_lower_all_ascii (m : string) :
  all_ascii (ascii_lower m) = all_ascii m.
Proof.
  induction m as [|c m IH]; simpl; [reflexivity|].
  now rewrite lower_ascii_is_ascii, IH.
Qed.

Section Lowering.
Context {U : Unicode}.

(** A stretch of ASCII that is read with no run pending is lower-cased
    byte by byte. *)
Lemma lower_at_ascii (m : string) :
  all_ascii m = true ->
  forall before b,
    lower_at before EmptyString (m ++ b)
    = (ascii_lower m ++ lower_at (before ++ m) EmptyString b)%string.
Proof.
  induction m as [|c m IH]; intros Hm before b.
  - simpl. now rewrite string_app_nil_r.
  - simpl in Hm. apply andb_true_iff in Hm as [Hc Hm].
    cbn [append lower_at ascii_lower]. rewrite Hc. cbn [flush append].
    rewrite (IH Hm), string_app_assoc. reflexivity.
Qed.

(** On a text without a code point from 128 up, [str.lower] is
    [ascii_lower]. *)
Lemma lower_of_ascii (s : string) :
  all_ascii s = true -> lower s = ascii_lower s.
Proof.
  intros Hs. unfold lower.
  rewrite <- (string_app_nil_r s) at 1. rewrite (lower_at_ascii s Hs).
  cbn [lower_at flush]. apply string_app_nil_r.
Qed.

(** Wherever a stretch of ASCII stands, its lower-casing stands in the
    lower-cased text. *)
Lemma lower_at_segment (m b : string) :
  all_ascii m = true ->
  forall a before run,
    exists x y,
      lower_at before run (a ++ m ++ b) = (x ++ ascii_lower m ++ y)%string.
Proof.
  intros Hm. induction a as [|d a IH]; intros before run.
  - destruct m as [|c m].
    + exists EmptyString, (lower_at before run b). reflexivity.
    + simpl in Hm. apply andb_true_iff in Hm as [Hc Hm].
      cbn [append lower_at ascii_lower]. rewrite Hc.
      rewrite (lower_at_ascii m Hm). eexists. eexists. reflexivity.
  - cbn [append lower_at]. destruct (is_ascii d).
    + destruct (IH (before ++ run ++ String d EmptyString)%string EmptyString)
        as (x & y & Hxy).
      rewrite Hxy.
      exists (flush before run (String d (a ++ m ++ b)) ++ String (lower_ascii d) x)%string, y.
      rewrite string_app_assoc. reflexivity.
    + apply IH.
Qed.

End Lowering.

Lemma prefix_app (kw t : string) :
  prefix kw t = true <-> exists b, t = (kw ++ b)%string.
Proof.
  revert t; induction kw as [|c kw IH]; intros t.
  - split; [intros _; now exists t | intros _; now destruct t].
  - destruct t as [|d t]; simpl.
    + split; [discriminate | intros [b Hb]; discriminate].
    + destruct (Ascii.ascii_dec c d) as [->|Hcd].
      * rewrite IH. split; intros [b Hb]; exists b; [now rewrite Hb | now inversion Hb].
      * split; [discriminate | intros [b Hb]; inversion Hb; now elim Hcd].
Qed.

Lemma py_in_substring (kw t : string) :
  py_in kw t = true <-> substring_of kw t.
Proof.
  unfold substring_of. induction t as [|d t IH].
  - cbn [py_in]. rewrite orb_false_r, prefix_app. split.
    + intros [b Hb]. now exists EmptyString, b.
    + intros [[|x a] [b Hb]]; [now exists b | discriminate].
  - cbn [py_in]. rewrite orb_true_iff, prefix_app, IH. split.
    + intros [[b Hb] | [a [b Hb]]].
      * now exists EmptyString, b.
      * exists (String d a), b. simpl. now rewrite Hb.
    + intros [[|x a] [b Hb]].
      * left. now exists b.
      * right. exists a, b. now inversion Hb.
Qed.

Section Detector.
Context {U : Unicode}.

(** A keyword of ASCII letters that occurs in a text, in whatever case,
    occurs in the lower-cased text. *)
Lemma py_in_lower_ci (kw s : string) :
  all_ascii kw = true -> substring_of_ci kw s -> py_in kw (lower s) = true.
Proof.
  intros Hkw (a & m & b & -> & Hm). apply py_in_substring.
  assert (Hascii : all_ascii m = true)
    by (now rewrite <- ascii_lower_all_ascii, Hm).
  destruct (lower_at_segment m b Hascii a EmptyString EmptyString) as (x & y & Hxy).
  exists x, y. unfold lower. now rewrite Hxy, Hm.
Qed.

(** ** The detector *)

Lemma pyobj_nested_ind (P : pyobj -> Prop) :
  P PNone ->
  (forall s, P (PStr s)) ->
  (forall n, P (PInt n)) ->
  (forall r b n, P (POther r b n)) ->
  (forall items, Forall P items -> P (PList items)) ->
  (forall entries, Forall (fun kv => P (snd kv)) entries -> P (PDict entries)) ->
  forall o, P o.
Proof.
  intros HN HS HI HO HL HD. fix IH 1. intros [ | s | n | r b len | items | entries].
  - exact HN.
  - apply HS.
  - apply HI.
  - apply HO.
  - apply HL. induction items as [|it items IHl]; constructor; [apply IH | exact IHl].
  - apply HD. induction entries as [|[k v] entries IHl]; constructor; [apply IH | exact IHl].
Qed.

Lemma collect_tokens (obj : pyobj) :
  forall texts, collect obj texts = texts ++ tokens obj.
Proof.
  induction obj as [ | s | n | r b len | items IH | entries IH] using pyobj_nested_ind;
    intros texts; simpl.
  - reflexivity.
  - reflexivity.
  - reflexivity.
  - destruct r; [reflexivity | now rewrite app_nil_r].
  - revert texts. induction IH as [|it items Hit _ IHl]; intros texts; simpl.
    + now rewrite app_nil_r.
    + now rewrite Hit, IHl, app_assoc.
  - revert texts. induction IH as [|[k v] entries Hv _ IHl]; intros texts; simpl.
    + now rewrite app_nil_r.
    + simpl in Hv. rewrite Hv, IHl, <- !app_assoc. reflexivity.
Qed.

Lemma tokens_text_at (obj : pyobj) (t : string) :
  In t (tokens obj) <-> exists s, text_at s obj /\ t = lower s.
Proof.
  induction obj as [ | v | n | r b len | items IH | entries IH] using pyobj_nested_ind; simpl.
  - split.
    + intros [<-|[]]. exists "None"%string. split; [now constructor | reflexivity].
    + intros (s & Hs & ->). inversion Hs as [H| | | | | | ]. inversion H. now left.
  - split.
    + intros [<-|[]]. exists v. split; [now constructor | reflexivity].
    + intros (s & Hs & ->). inversion Hs as [ |? H| | | | | ]. inversion H. now left.
  - split.
    + intros [<-|[]]. exists (str_of_int n). split; [now constructor | reflexivity].
    + intros (s & Hs & ->). inversion Hs as [ | |? H| | | | ]. inversion H. now left.
  - split.
    + destruct r as [s|]; [intros [<-|[]] | intros []].
      exists s. split; [now constructor | reflexivity].
    + intros (s & Hs & ->). inversion Hs as [ | | |? ? ? H| | | ]. simpl in H. subst r. now left.
  - rewrite in_flat_map. rewrite Forall_forall in IH. split.
    + intros (it & Hin & Ht). apply (IH it Hin) in Ht as (s & Hs & ->).
      exists s. split; [now apply at_item with it | reflexivity].
    + intros (s & Hs & ->). inversion Hs as [ | | | |? it Hin Hit| | ]. subst.
      exists it. split; [exact Hin | apply (IH it Hin); now exists s].
  - rewrite in_flat_map. rewrite Forall_forall in IH. split.
    + intros ([k v] & Hin & [<- | Ht]).
      * exists k. split; [now apply at_key with v | reflexivity].
      * apply (IH (k, v) Hin) in Ht as (s & Hs & ->).
        exists s. split; [now apply at_value with k v | reflexivity].
    + intros (s & Hs & ->).
      inversion Hs as [ | | | | |? v Hin|? k v Hin Hv]; subst.
      * exists (s, v). split; [exact Hin | now left].
      * exists (k, v). split; [exact Hin | right; apply (IH (k, v) Hin); now exists s].
Qed.

Lemma keyword_loop (texts : list string) (keywords : list string) :
  forall acc,
    fold_left
      (fun reasons kw =>
         if existsb (fun t => py_in kw t) texts
         then reasons ++ [generator_reason kw] else reasons)
      keywords acc
    = acc ++ map generator_reason
               (filter (fun kw => existsb (fun t => py_in kw t) texts) keywords).
Proof.
  induction keywords as [|kw kws IH]; intros acc; simpl.
  - now rewrite app_nil_r.
  - rewrite IH. destruct (existsb _ texts); simpl; [now rewrite <- app_assoc | reflexivity].
Qed.

Lemma detect_with_filter (keywords : list string) (md : pyobj) :
  detect_generator_reasons_with keywords md
  = map generator_reason (filter (found md) keywords).
Proof.
  unfold detect_generator_reasons_with, found.
  rewrite keyword_loop, collect_tokens. reflexivity.
Qed.

Lemma found_iff (md : pyobj) (kw : string) :
  found md kw = true <->
  exists s, text_at s md /\ substring_of kw (lower s).
Proof.
  unfold found. rewrite existsb_exists. split.
  - intros (t & Hin & Hsub). apply tokens_text_at in Hin as (s & Hs & ->).
    exists s. split; [exact Hs | now apply py_in_substring].
  - intros (s & Hs & Hsub). exists (lower s). split.
    + apply tokens_text_at. now exists s.
    + now apply py_in_substring.
Qed.

Lemma generator_reason_inj (a b : string) :
  generator_reason a = generator_reason b -> a = b.
Proof. unfold generator_reason. simpl. intros H. now inversion H. Qed.

Lemma keywords_nodup : NoDup GENERATOR_KEYWORDS.
Proof.
  unfold GENERATOR_KEYWORDS.
  repeat (constructor; [simpl; intros H; repeat (destruct H as [H|H]; [discriminate H|]); exact H |]).
  constructor.
Qed.

Lemma nodup_map_reason (l : list string) :
  NoDup l -> NoDup (map generator_reason l).
Proof.
  induction 1 as [|kw l Hnot _ IH]; simpl; constructor; [|exact IH].
  intros Hin. apply in_map_iff in Hin as (kw' & Heq & Hin).
  apply generator_reason_inj in Heq. now subst.
Qed.

Lemma detect_nodup (md : pyobj) : NoDup (detect_generator_reasons md).
Proof.
  unfold detect_generator_reasons. rewrite detect_with_filter.
  apply nodup_map_reason, NoDup_filter, keywords_nodup.
Qed.

Lemma detect_in (md : pyobj) (r : string) :
  In r (detect_generator_reasons md) <->
  exists kw, In kw GENERATOR_KEYWORDS /\ found md kw = true /\ r = generator_reason kw.
Proof.
  unfold detect_generator_reasons. rewrite detect_with_filter, in_map_iff. split.
  - intros (kw & <- & Hin). apply filter_In in Hin as [Hin Hf]. now exists kw.
  - intros (kw & Hin & Hf & ->). exists kw. split; [reflexivity | now apply filter_In].
Qed.

Lemma midjourney_is_keyword : In "midjourney"%string GENERATOR_KEYWORDS.
Proof. unfold GENERATOR_KEYWORDS. do 5 right. left. reflexivity. Qed.

Lemma found_reason (md : pyobj) (kw : string) :
  In kw GENERATOR_KEYWORDS -> found md kw = true ->
  In (generator_reason kw) (detect_generator_reasons md).
Proof.
  intros Hkw Hfound. apply detect_in. exists kw.
  split; [exact Hkw|]. split; [exact Hfound | reflexivity].
Qed.

End Detector.

Lemma filter_nil_existsb {A : Type} (f : A -> bool) (l : list A) :
  match filter f l with [] => existsb f l = false | _ :: _ => existsb f l = true end.
Proof.
  induction l as [|a l IH]; simpl; [reflexivity|].
  destruct (f a); simpl; [reflexivity | exact IH].
Qed.

(** ** Binary64 comparisons *)

Lemma SFcompare_antisym (x y : spec_float) :
  SFcompare y x = option_map CompOpp (SFcompare x y).
Proof.
  destruct x as [sx|sx| |sx mx ex], y as [sy|sy| |sy my ey]; simpl;
    try reflexivity; try (destruct sx; reflexivity); try (destruct sy; reflexivity);
    try (destruct sx, sy; reflexivity).
  pose proof (Pos.compare_cont_antisym mx my Eq) as Hm. simpl in Hm.
  destruct sx, sy; simpl; try reflexivity;
    rewrite (Z.compare_antisym ex ey); destruct (ex ?= ey)%Z; simpl; try reflexivity;
    rewrite <- Hm; destruct (Pos.compare_cont Eq mx my); reflexivity.
Qed.

Lemma ltb_leb (a b : float) : (a <? b) = true -> (a <=? b) = true.
Proof.
  rewrite ltb_spec, leb_spec. unfold SFltb, SFleb.
  destruct (SFcompare (Prim2SF a) (Prim2SF b)) as [[ | | ]|]; easy.
Qed.

Lemma ltb_not_leb (a b : float) : (a <? b) = true -> (b <=? a) = false.
Proof.
  rewrite ltb_spec, leb_spec. unfold SFltb, SFleb.
  rewrite (SFcompare_antisym (Prim2SF a) (Prim2SF b)).
  destruct (SFcompare (Prim2SF a) (Prim2SF b)) as [[ | | ]|]; easy.
Qed.

Lemma SFcompare_refl_not_nan (x : spec_float) :
  x <> S754_nan -> SFcompare x x = Some Eq.
Proof.
  destruct x as [s|s| |s m e]; simpl; intros H; try reflexivity.
  - destruct s; reflexivity.
  - now elim H.
  - rewrite Z.compare_refl, Pos.compare_cont_refl. destruct s; reflexivity.
Qed.

Lemma is_nan_spec (x : float) : is_nan x = true <-> Prim2SF x = S754_nan.
Proof.
  unfold is_nan. rewrite eqb_spec. unfold SFeqb. split.
  - destruct (Prim2SF x) as [s|s| |s m e] eqn:E; try reflexivity; intros H;
      rewrite SFcompare_refl_not_nan in H; discriminate.
  - intros ->. reflexivity.
Qed.

Lemma is_nan_false (x : float) : is_nan x = false <-> Prim2SF x <> S754_nan.
Proof.
  rewrite <- is_nan_spec. destruct (is_nan x); split; congruence.
Qed.

Lemma leb_not_nan_r (a b : float) : (a <=? b) = true -> is_nan b = false.
Proof.
  rewrite leb_spec. intros H. apply is_nan_false. intros E. rewrite E in H.
  destruct (Prim2SF a); discriminate.
Qed.

Lemma SFltb_leb_trans (x y z : spec_float) :
  SFltb x y = true -> SFleb y z = true -> SFltb x z = true.
Proof.
  unfold SFltb, SFleb.
  destruct x as [sx|sx| |sx mx ex], y as [sy|sy| |sy my ey], z as [sz|sz| |sz mz ez];
    simpl; try easy;
    try (destruct sx; easy); try (destruct sy; easy); try (destruct sz; easy);
    try (destruct sx, sy; easy); try (destruct sy, sz; easy); try (destruct sx, sz; easy);
    try (destruct sx, sy, sz; easy).
  fold (Pos.compare mx my) (Pos.compare my mz) (Pos.compare mx mz).
  destruct sx, sy, sz; simpl; try easy;
    destruct (Z.compare_spec ex ey), (Z.compare_spec ey ez), (Z.compare_spec ex ez);
    simpl; try easy; try lia;
    destruct (Pos.compare_spec mx my), (Pos.compare_spec my mz), (Pos.compare_spec mx mz);
    simpl; try easy; try lia.
Qed.

Lemma ltb_leb_trans (a b c : float) :
  (a <? b) = true -> (b <=? c) = true -> (a <? c) = true.
Proof. rewrite !ltb_spec, leb_spec. apply SFltb_leb_trans. Qed.

(** ** Clipping *)

Lemma np_clip_between (x : float) :
  is_nan x = false -> between 0 (np_clip x 0 1) 1.
Proof.
  intros Hx. unfold np_clip, np_max, np_min, between. rewrite Hx.
  destruct (0 <? x) eqn:H0.
  - rewrite Hx. destruct (x <? 1) eqn:H1.
    + split; now apply ltb_leb.
    + split; reflexivity.
  - split; reflexivity.
Qed.

Lemma np_clip_nan (x : float) : is_nan x = true -> np_clip x 0 1 = x.
Proof.
  intros Hx. unfold np_clip, np_max, np_min. now rewrite Hx, Hx.
Qed.

Lemma clip_keeps_lower_bound (c x : float) :
  (0 <? c) = true -> (c <=? 1) = true -> (c <=? x) = true ->
  (c <=? np_clip x 0 1) = true.
Proof.
  intros H0 H1 Hx. unfold np_clip, np_max, np_min.
  rewrite (leb_not_nan_r _ _ Hx), (ltb_leb_trans 0 c x H0 Hx), (leb_not_nan_r _ _ Hx).
  destruct (x <? 1); assumption.
Qed.

(** ** Signs of rounded results *)

Lemma iter_pos_invariant {A : Type} (f : A -> A) (P : A -> Prop) :
  (forall x, P x -> P (f x)) -> forall p x, P x -> P (iter_pos f p x).
Proof.
  intros Hf. induction p as [p IH|p IH| ]; intros x Hx; simpl; auto.
Qed.

Lemma shr_1_nonneg (mrs : shr_record) :
  (0 <= shr_m mrs)%Z -> (0 <= shr_m (shr_1 mrs))%Z.
Proof.
  destruct mrs as [m r s]. simpl. destruct m as [|[p|p| ]|p]; simpl; lia.
Qed.

Lemma shr_nonneg (mrs : shr_record) (e n : Z) :
  (0 <= shr_m mrs)%Z -> (0 <= shr_m (fst (shr mrs e n)))%Z.
Proof.
  intros H. unfold shr. destruct n as [|p|p]; simpl; auto.
  apply iter_pos_invariant; [apply shr_1_nonneg | exact H].
Qed.

Lemma shr_fexp_nonneg (p em m e : Z) (l : location) :
  (0 <= m)%Z -> (0 <= shr_m (fst (shr_fexp p em m e l)))%Z.
Proof.
  intros H. unfold shr_fexp. apply shr_nonneg.
  destruct l as [|[ | | ]]; exact H.
Qed.

Lemma round_nearest_even_nonneg (m : Z) (l : location) :
  (0 <= m)%Z -> (0 <= round_nearest_even m l)%Z.
Proof.
  intros H. destruct l as [|[ | | ]]; simpl; try lia. destruct (Z.even m); lia.
Qed.

Lemma binary_round_aux_nonneg (p em m e : Z) (l : location) :
  (0 <= m)%Z -> SFnonneg (binary_round_aux p em false m e l).
Proof.
  intros H. unfold binary_round_aux.
  pose proof (shr_fexp_nonneg p em m e l H) as H1.
  destruct (shr_fexp p em m e l) as [mrs' e']. simpl in H1.
  pose proof (shr_fexp_nonneg p em _ e' loc_Exact
                (round_nearest_even_nonneg _ (loc_of_shr_record mrs') H1)) as H2.
  destruct (shr_fexp p em (round_nearest_even _ _) e' loc_Exact) as [mrs'' e''].
  simpl in H2. destruct (shr_m mrs'') as [|q|q]; simpl.
  - exact I.
  - destruct (e'' <=? em - p)%Z; reflexivity.
  - lia.
Qed.

Lemma binary_round_aux_not_nan (p em : Z) (s : bool) (m e : Z) (l : location) :
  (0 <= m)%Z -> binary_round_aux p em s m e l <> S754_nan.
Proof.
  intros H. unfold binary_round_aux.
  pose proof (shr_fexp_nonneg p em m e l H) as H1.
  destruct (shr_fexp p em m e l) as [mrs' e']. simpl in H1.
  pose proof (shr_fexp_nonneg p em _ e' loc_Exact
                (round_nearest_even_nonneg _ (loc_of_shr_record mrs') H1)) as H2.
  destruct (shr_fexp p em (round_nearest_even _ _) e' loc_Exact) as [mrs'' e''].
  simpl in H2. destruct (shr_m mrs'') as [|q|q].
  - discriminate.
  - destruct (e'' <=? em - p)%Z; discriminate.
  - lia.
Qed.

Lemma binary_round_nonneg (p em : Z) (m : positive) (e : Z) :
  SFnonneg (binary_round p em false m e).
Proof.
  unfold binary_round. destruct (shl_align m e _) as [mz ez].
  apply binary_round_aux_nonneg. lia.
Qed.

Lemma binary_normalize_nonneg (p em m e : Z) :
  (0 <= m)%Z -> SFnonneg (binary_normalize p em m e false).
Proof.
  intros H. destruct m as [|q|q]; simpl; [exact I | apply binary_round_nonneg | lia].
Qed.

Lemma SFadd_nonneg (p em : Z) (x y : spec_float) :
  SFnonneg x -> SFnonneg y -> SFnonneg (SFadd p em x y).
Proof.
  destruct x as [sx|sx| |sx mx ex], y as [sy|sy| |sy my ey]; simpl;
    intros Hx Hy; subst; try easy.
  - destruct sx, sy; exact I.
  - apply binary_normalize_nonneg. simpl. lia.
Qed.

Lemma SFmul_nonneg (p em : Z) (x : spec_float) (m : positive) (e : Z) :
  SFnonneg x -> SFnonneg (SFmul p em x (S754_finite false m e)).
Proof.
  destruct x as [sx|sx| |sx mx ex]; simpl; intros Hx; subst; try easy.
  apply binary_round_aux_nonneg. lia.
Qed.

Lemma SFdiv_nonneg (p em : Z) (x : spec_float) (m : positive) (e : Z) :
  SFnonneg x -> SFnonneg (SFdiv p em x (S754_finite false m e)).
Proof.
  destruct x as [sx|sx| |sx mx ex]; simpl; intros Hx; subst; try easy.
  unfold SFdiv_core_binary.
  set (e' := Z.min _ _). set (m' := match (ex - e - e')%Z with Z0 => _ | Zpos _ => _ | Zneg _ => _ end).
  assert (Hm' : (0 <= m')%Z).
  { unfold m'. destruct (ex - e - e')%Z; try lia. apply Z.shiftl_nonneg. lia. }
  pose proof (Z_div_mod m' (Zpos m) ltac:(lia)) as Hdm.
  unfold Z.div_eucl in Hdm |- *. fold (Z.div_eucl m' (Z.pos m)) in *.
  destruct (Z.div_eucl m' (Z.pos m)) as [q r].
  apply binary_round_aux_nonneg. nia.
Qed.

Lemma digits2_pos_bounds (m : positive) :
  (2 ^ (Zpos (digits2_pos m) - 1) <= Zpos m < 2 ^ Zpos (digits2_pos m))%Z.
Proof.
  induction m as [m IH|m IH| ]; simpl digits2_pos.
  - rewrite Pos2Z.inj_succ.
    replace (Z.succ (Zpos (digits2_pos m)) - 1)%Z with (Z.succ (Zpos (digits2_pos m) - 1))%Z by lia.
    rewrite !Z.pow_succ_r by lia. lia.
  - rewrite Pos2Z.inj_succ.
    replace (Z.succ (Zpos (digits2_pos m)) - 1)%Z with (Z.succ (Zpos (digits2_pos m) - 1))%Z by lia.
    rewrite !Z.pow_succ_r by lia. lia.
  - simpl. lia.
Qed.

Lemma iter_xO_value (m d : positive) :
  Zpos (Pos.iter xO m d) = (Zpos m * 2 ^ Zpos d)%Z.
Proof.
  revert m. induction d as [|d IH] using Pos.peano_ind; intros m.
  - simpl. lia.
  - rewrite Pos.iter_succ, Pos2Z.inj_succ, Z.pow_succ_r by lia.
    rewrite Pos2Z.inj_xO, IH. lia.
Qed.

(** A valid binary64 mantissa has at most 53 digits, exactly 53 above
    the least exponent. *)
Lemma bounded_digits (m : positive) (e : Z) :
  bounded prec emax m e = true ->
  (-1074 <= e)%Z /\ (Zpos (digits2_pos m) <= 53)%Z /\
  ((-1074 < e)%Z -> Zpos (digits2_pos m) = 53%Z).
Proof.
  unfold bounded, canonical_mantissa, fexp, SpecFloat.emin, prec, emax.
  intros H. apply andb_true_iff in H as [H _]. apply Z.eqb_eq in H. lia.
Qed.

Lemma SFsub_nonneg (mc : positive) (ec : Z) (x : spec_float) :
  let c := S754_finite false mc ec in
  valid_binary c = true -> valid_binary x = true ->
  SFnonneg x ->
  SFltb c x = false ->
  SFnonneg (SFsub prec emax c x).
Proof.
  destruct x as [sx|sx| |sx mx ex]; intros c Vc Vx Hx Hlt; subst c;
    [reflexivity | simpl in Hx; subst sx; discriminate Hlt | easy | ].
  simpl in Hx. subst sx. unfold SFsub, cond_Zopp.
  apply binary_normalize_nonneg.
  unfold SFltb, SFcompare in Hlt.
  apply bounded_digits in Vc as (Hec & Hdc & Hnc).
  apply bounded_digits in Vx as (Hex & Hdx & _).
  pose proof (digits2_pos_bounds mc) as Bc.
  pose proof (digits2_pos_bounds mx) as Bx.
  destruct (Z.compare_spec ec ex) as [Heq|Hl|Hg]; [| discriminate |].
  - subst ex. rewrite Z.min_id. unfold shl_align. rewrite Z.sub_diag. cbn [fst].
    fold (Pos.compare mc mx) in Hlt.
    destruct (Pos.compare_spec mc mx); try discriminate; lia.
  - rewrite Z.min_r by lia. unfold shl_align. rewrite Z.sub_diag. cbn [fst].
    destruct (ex - ec)%Z as [|d|d] eqn:Hd; try lia. cbn [fst].
    rewrite iter_xO_value.
    rewrite (Hnc ltac:(lia)) in Bc. change (2 ^ (53 - 1))%Z with 4503599627370496%Z in Bc.
    assert (2 ^ Zpos (digits2_pos mx) <= 2 ^ 53)%Z by (apply Z.pow_le_mono_r; lia).
    change (2 ^ 53)%Z with 9007199254740992%Z in *.
    assert (2 ^ 1 <= 2 ^ Zpos d)%Z by (apply Z.pow_le_mono_r; lia).
    change (2 ^ 1)%Z with 2%Z in *. nia.
Qed.

(** ** Non-negative binary64 numbers *)

Lemma nonneg_not_nan (x : float) : nonneg x -> is_nan x = false.
Proof.
  unfold nonneg. intros H. apply is_nan_false. intros E. now rewrite E in H.
Qed.

Lemma leb0_nonneg (x : float) : (0 <=? x) = true -> nonneg x.
Proof.
  rewrite leb_spec. unfold nonneg. change (Prim2SF 0) with (S754_zero false).
  destruct (Prim2SF x) as [s|s| |s m e]; simpl; try easy; destruct s; easy.
Qed.

Lemma between_nonneg (x : float) : between 0 x 1 -> nonneg x.
Proof. intros [H _]. now apply leb0_nonneg. Qed.

Lemma nonneg_add (a b : float) : nonneg a -> nonneg b -> nonneg (a + b).
Proof.
  unfold nonneg. rewrite add_spec. apply SFadd_nonneg.
Qed.

Lemma positive_finite_consts :
  positive_finite 0.35 /\ positive_finite 0.2 /\ positive_finite 0.05 /\
  positive_finite 0.1 /\ positive_finite 2 /\ positive_finite 8.
Proof.
  unfold positive_finite. repeat split; do 2 eexists; vm_compute; reflexivity.
Qed.

Lemma nonneg_ramp (c k x : float) :
  positive_finite c -> positive_finite k -> nonneg x -> nonneg (ramp c k x).
Proof.
  intros (mc & ec & Hc) (mk & ek & Hk) Hx. unfold ramp, nonneg.
  rewrite mul_spec, div_spec, sub_spec, Hk, Hc.
  apply SFmul_nonneg, SFdiv_nonneg.
  pose proof (Prim2SF_valid c) as Vc. rewrite Hc in Vc.
  unfold py_min. destruct (c <? x) eqn:E.
  - rewrite Hc. apply SFsub_nonneg; try exact Vc; [reflexivity|].
    unfold SFltb. now rewrite SFcompare_refl_not_nan.
  - apply SFsub_nonneg; [exact Vc | apply Prim2SF_valid | exact Hx |].
    now rewrite <- Hc, <- ltb_spec.
Qed.

Lemma nonneg_clip_between (x : float) : nonneg x -> between 0 (np_clip x 0 1) 1.
Proof. intros H. apply np_clip_between, nonneg_not_nan, H. Qed.

Lemma mul_not_nan (x c : float) :
  positive_finite c -> is_nan x = false -> is_nan (x * c) = false.
Proof.
  intros (m & e & Hc). rewrite !is_nan_false, mul_spec, Hc. unfold SF64mul.
  destruct (Prim2SF x) as [sx|sx| |sx mx ex]; simpl; intros Hx; try easy.
  apply binary_round_aux_not_nan. lia.
Qed.

Lemma div_not_nan (x c : float) :
  positive_finite c -> is_nan x = false -> is_nan (x / c) = false.
Proof.
  intros (m & e & Hc). rewrite !is_nan_false, div_spec, Hc. unfold SF64div.
  destruct (Prim2SF x) as [sx|sx| |sx mx ex]; simpl; intros Hx; try easy.
  unfold SFdiv_core_binary.
  set (e' := Z.min _ _).
  set (m' := match (ex - e - e')%Z with Z0 => _ | Zpos _ => _ | Zneg _ => _ end).
  assert (Hm' : (0 <= m')%Z).
  { unfold m'. destruct (ex - e - e')%Z; try lia. apply Z.shiftl_nonneg. lia. }
  pose proof (Z_div_mod m' (Zpos m) ltac:(lia)) as Hdm.
  unfold Z.div_eucl in Hdm |- *. fold (Z.div_eucl m' (Z.pos m)) in *.
  destruct (Z.div_eucl m' (Z.pos m)) as [q r].
  apply binary_round_aux_not_nan. nia.
Qed.

(** ** Rounding keeps a sum above its first summand *)

Lemma shr_1_half (mrs : shr_record) :
  (0 <= shr_m mrs)%Z -> shr_m (shr_1 mrs) = (shr_m mrs / 2)%Z.
Proof.
  destruct mrs as [m r s]. cbn [shr_m shr_1]. destruct m as [|[p|p| ]|p]; cbn [shr_m]; intros H.
  - reflexivity.
  - rewrite Pos2Z.inj_xI. apply (Z.div_unique _ 2 (Zpos p) 1); lia.
  - rewrite Pos2Z.inj_xO. apply (Z.div_unique _ 2 (Zpos p) 0); lia.
  - reflexivity.
  - lia.
Qed.

Lemma iter_shr_1_div (p : positive) :
  forall mrs, (0 <= shr_m mrs)%Z ->
    shr_m (iter_pos shr_1 p mrs) = (shr_m mrs / 2 ^ Zpos p)%Z.
Proof.
  assert (Hinv : forall q mrs, (0 <= shr_m mrs)%Z -> (0 <= shr_m (iter_pos shr_1 q mrs))%Z).
  { intros q mrs. apply (iter_pos_invariant shr_1 (fun x => 0 <= shr_m x)%Z).
    apply shr_1_nonneg. }
  induction p as [p IH|p IH| ]; intros mrs H; simpl iter_pos.
  - assert (Hpow : (0 < 2 ^ Z.pos p)%Z) by (apply Z.pow_pos_nonneg; lia).
    rewrite IH by (apply Hinv, shr_1_nonneg, H).
    rewrite IH by (apply shr_1_nonneg, H). rewrite shr_1_half by exact H.
    rewrite !Z.div_div by lia.
    f_equal. rewrite Pos2Z.inj_xI, Z.pow_add_r, Z.pow_mul_r by lia.
    change (2 ^ 2)%Z with 4%Z. change (2 ^ 1)%Z with 2%Z.
    replace (4 ^ Z.pos p)%Z with (2 ^ Z.pos p * 2 ^ Z.pos p)%Z; [lia|].
    rewrite <- Z.pow_add_r by lia. replace (Z.pos p + Z.pos p)%Z with (2 * Z.pos p)%Z by lia.
    now rewrite Z.pow_mul_r by lia.
  - assert (Hpow : (0 < 2 ^ Z.pos p)%Z) by (apply Z.pow_pos_nonneg; lia).
    rewrite IH by (apply Hinv, H). rewrite IH by exact H.
    rewrite Z.div_div by lia.
    f_equal. rewrite Pos2Z.inj_xO. rewrite <- Z.pow_add_r by lia. f_equal. lia.
  - rewrite shr_1_half by exact H. reflexivity.
Qed.

Lemma shr_fexp_value (m e : Z) (l : location) :
  (0 <= m)%Z ->
  snd (shr_fexp prec emax m e l) = Z.max e (fexp prec emax (Zdigits2 m + e)) /\
  shr_m (fst (shr_fexp prec emax m e l))
  = (m / 2 ^ (snd (shr_fexp prec emax m e l) - e))%Z.
Proof.
  intros Hm. unfold shr_fexp, shr.
  assert (Hrec : shr_m (shr_record_of_loc m l) = m) by (destruct l as [|[ | | ]]; reflexivity).
  destruct (fexp prec emax (Zdigits2 m + e) - e)%Z as [|p|p] eqn:Hn; cbn [fst snd].
  - split; [lia|]. rewrite Z.sub_diag, Hrec. simpl. now rewrite Z.div_1_r.
  - split; [lia|]. rewrite iter_shr_1_div by (now rewrite Hrec).
    rewrite Hrec. f_equal. f_equal. lia.
  - split; [lia|]. rewrite Z.sub_diag, Hrec. simpl. now rewrite Z.div_1_r.
Qed.

Lemma round_nearest_even_bounds (m : Z) (l : location) :
  (m <= round_nearest_even m l <= m + 1)%Z.
Proof.
  destruct l as [|[ | | ]]; simpl; try lia. destruct (Z.even m); lia.
Qed.

Lemma div_pow2_lower (a n k : Z) :
  (0 <= n)%Z -> (0 <= k)%Z -> (2 ^ (n + k) <= a)%Z -> (2 ^ k <= a / 2 ^ n)%Z.
Proof.
  intros Hn Hk Ha. apply Z.div_le_lower_bound; [apply Z.pow_pos_nonneg; lia|].
  now rewrite <- Z.pow_add_r by lia.
Qed.

Lemma fexp_digits_lower (mx : positive) (ex ez : Z) (M : positive) :
  bounded prec emax mx ex = true -> (ez <= ex)%Z ->
  (Zpos mx * 2 ^ (ex - ez) <= Zpos M)%Z ->
  (ex <= fexp prec emax (Zpos (digits2_pos M) + ez))%Z.
Proof.
  intros Hb Hez HM. apply bounded_digits in Hb as (Hex & Hdx & Hnx).
  unfold fexp, SpecFloat.emin, prec, emax.
  destruct (Z.eq_dec ex (-1074)) as [->|Hne]; [lia|].
  pose proof (digits2_pos_bounds mx) as Bx. rewrite (Hnx ltac:(lia)) in Bx.
  change (2 ^ (53 - 1))%Z with (2 ^ 52)%Z in Bx.
  pose proof (digits2_pos_bounds M) as BM.
  assert (Hp : (0 < 2 ^ (ex - ez))%Z) by (apply Z.pow_pos_nonneg; lia).
  assert (Hlow : (2 ^ (52 + (ex - ez)) <= Zpos M)%Z).
  { rewrite Z.pow_add_r by lia. nia. }
  assert (Hlt : (2 ^ (52 + (ex - ez)) < 2 ^ Zpos (digits2_pos M))%Z) by lia.
  apply Z.pow_lt_mono_r_iff in Hlt; lia.
Qed.

(** Rounding [M * 2^ez] gives at least any canonical number below it. *)
Lemma binary_round_aux_lower_bound
    (M : positive) (ez : Z) (mc : positive) (ec : Z) (mx : positive) (ex : Z) :
  (-1074 <= ez)%Z ->
  bounded prec emax mx ex = true -> (ez <= ex)%Z ->
  (Zpos mx * 2 ^ (ex - ez) <= Zpos M)%Z ->
  (ec < ex \/ (ec = ex /\ Zpos mc <= Zpos mx))%Z ->
  SFleb (S754_finite false mc ec)
        (binary_round_aux prec emax false (Zpos M) ez loc_Exact) = true.
Proof.
  intros Hez Hb Hle HM Hc.
  pose proof (fexp_digits_lower mx ex ez M Hb Hle HM) as F1.
  unfold binary_round_aux.
  destruct (shr_fexp_value (Zpos M) ez loc_Exact ltac:(lia)) as [He1 Hm1].
  destruct (shr_fexp prec emax (Zpos M) ez loc_Exact) as [mrs1 e1].
  cbn [fst snd] in He1, Hm1. cbn [Zdigits2] in He1.
  set (m1 := shr_m mrs1) in *.
  pose proof (round_nearest_even_bounds m1 (loc_of_shr_record mrs1)) as Hm2.
  set (m2 := round_nearest_even m1 (loc_of_shr_record mrs1)) in *.
  pose proof (digits2_pos_bounds M) as BM.
  (* the first shift leaves a positive mantissa *)
  assert (H1 : (1 <= m1)%Z).
  { rewrite Hm1. change 1%Z with (2 ^ 0)%Z.
    destruct (Z.eq_dec e1 ez) as [->|Hne].
    - rewrite Z.sub_diag. simpl. rewrite Z.div_1_r. lia.
    - assert (He1' : e1 = (Zpos (digits2_pos M) + ez - 53)%Z).
      { revert He1 Hne. unfold fexp, SpecFloat.emin, prec, emax. lia. }
      apply Z.le_trans with (2 ^ 52)%Z; [apply Z.pow_le_mono_r; lia|].
      apply div_pow2_lower; try lia.
      replace (e1 - ez + 52)%Z with (Zpos (digits2_pos M) - 1)%Z by lia. lia. }
  assert (H1x : e1 = ex -> (Zpos mx <= m1)%Z).
  { intros ->. rewrite Hm1.
    apply Z.le_trans with (Zpos mx * 2 ^ (ex - ez) / 2 ^ (ex - ez))%Z.
    - rewrite Z.div_mul; [lia|]. apply Z.pow_nonzero; lia.
    - apply Z.div_le_mono; [apply Z.pow_pos_nonneg; lia | exact HM]. }
  destruct (shr_fexp_value m2 e1 loc_Exact ltac:(lia)) as [He3 Hm3].
  destruct (shr_fexp prec emax m2 e1 loc_Exact) as [mrs2 e3].
  cbn [fst snd] in He3, Hm3.
  destruct m2 as [|q2|q2] eqn:Em2; try lia. cbn [Zdigits2] in He3.
  pose proof (digits2_pos_bounds q2) as B2.
  assert (H3 : (1 <= shr_m mrs2)%Z /\ (e3 = e1 -> shr_m mrs2 = Zpos q2)).
  { rewrite Hm3. destruct (Z.eq_dec e3 e1) as [->|Hne].
    - rewrite Z.sub_diag. simpl. rewrite Z.div_1_r. split; [lia | reflexivity].
    - split; [|intros; contradiction].
      assert (He3' : e3 = (Zpos (digits2_pos q2) + e1 - 53)%Z).
      { revert He3 Hne He1. unfold fexp, SpecFloat.emin, prec, emax. lia. }
      apply Z.le_trans with (2 ^ 52)%Z; [change 1%Z with (2 ^ 0)%Z; apply Z.pow_le_mono_r; lia|].
      apply div_pow2_lower; try lia.
      replace (e3 - e1 + 52)%Z with (Zpos (digits2_pos q2) - 1)%Z by lia. lia. }
  destruct H3 as [H3 H3e].
  destruct (shr_m mrs2) as [|q3|q3] eqn:Em3; try lia.
  destruct (e3 <=? emax - prec)%Z; [|reflexivity].
  unfold SFleb, SFcompare.
  destruct (Z.compare_spec ec e3) as [Heq|Hlt|Hgt]; [|reflexivity|lia].
  fold (Pos.compare mc q3).
  assert (e3 = e1) by lia. assert (e1 = ex) by lia.
  specialize (H3e ltac:(assumption)). specialize (H1x ltac:(assumption)).
  destruct (Pos.compare_spec mc q3); try reflexivity. lia.
Qed.

Lemma shl_align_value (m : positive) (e ez : Z) :
  (ez <= e)%Z -> Zpos (fst (shl_align m e ez)) = (Zpos m * 2 ^ (e - ez))%Z.
Proof.
  intros H. unfold shl_align. destruct (ez - e)%Z as [|d|d] eqn:Hd; cbn [fst]; try lia.
  - replace (e - ez)%Z with 0%Z by lia. simpl. lia.
  - rewrite iter_xO_value. f_equal. f_equal. lia.
Qed.

Lemma SFadd_lower_bound (mc : positive) (ec : Z) (x t : spec_float) :
  valid_binary x = true -> valid_binary t = true -> SFnonneg t ->
  SFleb (S754_finite false mc ec) x = true ->
  SFleb (S754_finite false mc ec) (SFadd prec emax x t) = true.
Proof.
  intros Vx Vt Ht Hle.
  destruct x as [sx|sx| |sx mx ex]; try discriminate Hle.
  - destruct sx; [discriminate Hle|].
    destruct t as [st|st| |st mt et]; simpl in Ht; subst; try easy.
  - destruct sx; [discriminate Hle|].
    destruct t as [st|st| |st mt et]; simpl in Ht; subst; try easy.
    unfold SFadd, cond_Zopp.
    pose proof Vx as Bx. apply bounded_digits in Bx as (Hex & _ & _).
    apply bounded_digits in Vt as (Het & _ & _).
    set (ez := Z.min ex et).
    assert (Hez : (ez <= ex)%Z) by (unfold ez; lia).
    pose proof (shl_align_value mx ex ez Hez) as Hx'.
    set (mx' := fst (shl_align mx ex ez)) in *.
    set (mt' := fst (shl_align mt et ez)).
    change (Zpos mx' + Zpos mt')%Z with (Zpos (mx' + mt')).
    assert (HM : (Zpos mx * 2 ^ (ex - ez) <= Zpos (mx' + mt'))%Z) by lia.
    cbn [binary_normalize]. unfold binary_round.
    pose proof (fexp_digits_lower mx ex ez (mx' + mt') Vx Hez HM) as F1.
    unfold shl_align.
    destruct (fexp prec emax (Zpos (digits2_pos (mx' + mt')) + ez) - ez)%Z eqn:Hd; try lia;
      (apply binary_round_aux_lower_bound with mx ex; try assumption; [unfold ez; lia|];
       revert Hle; unfold SFleb, SFcompare; fold (Pos.compare mc mx);
       destruct (Z.compare_spec ec ex); [|intros _; now left|discriminate];
       destruct (Pos.compare_spec mc mx); try discriminate; intros _; right; lia).
Qed.

Lemma add_keeps_lower_bound (c x t : float) :
  positive_finite c -> (c <=? x) = true -> nonneg t -> (c <=? x + t) = true.
Proof.
  intros (mc & ec & Hc) Hle Ht. rewrite leb_spec in *. rewrite add_spec, Hc in *.
  apply SFadd_lower_bound; try apply Prim2SF_valid; assumption.
Qed.

(** ** Score, label and reasons as functions of metadata and metrics *)

Section Aggregation.
Context {U : Unicode}.

Lemma score_formula_between (md : pydict) (m : MetricSet) :
  nonneg (hist_entropy m) -> nonneg (noise_estimate m) -> nonneg (blockiness m) ->
  between 0 (score_formula md m) 1.
Proof.
  intros He Hn Hb. unfold score_formula, clamp01.
  destruct positive_finite_consts as (P35 & P20 & P05 & P10 & _).
  apply nonneg_clip_between. repeat apply nonneg_add.
  - unfold signature_term. destruct (existsb _ _); unfold nonneg; vm_compute; auto.
  - unfold exif_term. destruct (exif_absent md); unfold nonneg; vm_compute; auto.
  - now apply nonneg_ramp.
  - now apply nonneg_ramp.
  - now apply nonneg_ramp.
Qed.

Lemma score_formula_lower_bound (md : pydict) (m : MetricSet) :
  signature_term md = 0.60 ->
  nonneg (hist_entropy m) -> nonneg (noise_estimate m) -> nonneg (blockiness m) ->
  (0.60 <=? score_formula md m) = true.
Proof.
  intros Hsig He Hn Hb. unfold score_formula, clamp01. rewrite Hsig.
  destruct positive_finite_consts as (P35 & P20 & P05 & P10 & _).
  assert (P60 : positive_finite 0.60) by (do 2 eexists; vm_compute; reflexivity).
  apply clip_keeps_lower_bound; [reflexivity | reflexivity |].
  repeat (apply add_keeps_lower_bound; [exact P60 | | now apply nonneg_ramp]).
  unfold exif_term. destruct (exif_absent md); reflexivity.
Qed.

Lemma signature_term_found (d : pydict) (kw : string) :
  In kw GENERATOR_KEYWORDS -> found (PDict d) kw = true -> signature_term d = 0.60.
Proof.
  intros Hkw Hfound. unfold signature_term.
  replace (existsb (found (PDict d)) GENERATOR_KEYWORDS) with true; [reflexivity|].
  symmetry. apply existsb_exists. exists kw. split; [exact Hkw | exact Hfound].
Qed.

Lemma label_for_high (s : float) :
  (0.75 <=? s) = true -> label_for s = "Likely AI-generated".
Proof. unfold label_for. now intros ->. Qed.

Lemma label_for_middle (s : float) :
  (0.45 <=? s) = true -> (s <? 0.75) = true -> label_for s = "Possibly AI-generated".
Proof.
  unfold label_for. intros H1 H2. now rewrite (ltb_not_leb _ _ H2), H1.
Qed.

Lemma label_for_low (s : float) :
  (s <? 0.45) = true -> label_for s = "Likely human-captured".
Proof.
  unfold label_for. intros H.
  rewrite (ltb_not_leb _ _ (ltb_leb_trans s 0.45 0.75 H eq_refl)).
  now rewrite (ltb_not_leb _ _ H).
Qed.

Lemma fixed_reason_not_generated (r : string) (kws : list string) :
  (forall kw, r <> generator_reason kw) -> ~ In r (map generator_reason kws).
Proof.
  intros Hr Hin. apply in_map_iff in Hin as (kw & Heq & _). now apply (Hr kw).
Qed.

Lemma nodup_app_fixed (g w : list string) :
  NoDup g -> NoDup w -> (forall r, In r w -> ~ In r g) -> NoDup (g ++ w).
Proof.
  intros Hg Hw Hdisj. induction Hg as [|a g Ha _ IH]; simpl; [exact Hw|].
  constructor.
  - intros Hin. apply in_app_or in Hin as [Hin|Hin]; [now apply Ha|].
    apply (Hdisj a Hin). now left.
  - apply IH. intros r Hr Hin. apply (Hdisj r Hr). now right.
Qed.

Lemma fixed_reasons_apart (r : string) :
  In r fixed_reasons -> forall kw, r <> generator_reason kw.
Proof.
  unfold fixed_reasons, generator_reason. simpl.
  intros [<-|[<-|[<-|[<-|[]]]]] kw; discriminate.
Qed.

Lemma whens_sub_fixed (b1 b2 b3 b4 : bool) :
  let w := when b1 "No EXIF metadata present"
           ++ when b2 "Low histogram entropy"
           ++ when b3 "Low high-frequency noise"
           ++ when b4 "Very low JPEG blockiness" in
  NoDup w /\ forall r, In r w -> In r fixed_reasons.
Proof.
  destruct b1, b2, b3, b4; simpl; (split; [|unfold fixed_reasons; simpl; tauto]);
    repeat (constructor; [simpl; intros H; repeat (destruct H as [H|H]; [discriminate H|]); exact H|]);
    constructor.
Qed.

Lemma reasons_in_order_nodup (fmt : option string) (md : pydict) (m : MetricSet) :
  NoDup (reasons_in_order fmt md m).
Proof.
  unfold reasons_in_order.
  destruct (whens_sub_fixed (exif_absent_or_empty md) (hist_entropy m <? 0.35)
              (noise_estimate m <? 0.2) ((blockiness m <? 0.05) && negb (is_png fmt)))
    as [Hnd Hsub].
  apply nodup_app_fixed.
  - apply nodup_map_reason, NoDup_filter, keywords_nodup.
  - exact Hnd.
  - intros r Hr. apply fixed_reason_not_generated, fixed_reasons_apart, Hsub, Hr.
Qed.

Lemma when_in (b : bool) (s r : string) : In r (when b s) <-> b = true /\ r = s.
Proof.
  destruct b; simpl; split.
  - intros [<-|[]]. now split.
  - intros [_ ->]. now left.
  - intros [].
  - intros [H _]. discriminate H.
Qed.

Lemma fixed_reason_membership
    (g : list string) (b1 b2 b3 b4 : bool) :
  (forall r, In r fixed_reasons -> ~ In r g) ->
  let all :=
    g ++ when b1 "No EXIF metadata present"
      ++ when b2 "Low histogram entropy"
      ++ when b3 "Low high-frequency noise"
      ++ when b4 "Very low JPEG blockiness" in
  (In "No EXIF metadata present"%string all <-> b1 = true) /\
  (In "Low histogram entropy"%string all <-> b2 = true) /\
  (In "Low high-frequency noise"%string all <-> b3 = true) /\
  (In "Very low JPEG blockiness"%string all <-> b4 = true).
Proof.
  intros Hg all. unfold all. clear all.
  assert (H1 := Hg "No EXIF metadata present"%string ltac:(unfold fixed_reasons; simpl; tauto)).
  assert (H2 := Hg "Low histogram entropy"%string ltac:(unfold fixed_reasons; simpl; tauto)).
  assert (H3 := Hg "Low high-frequency noise"%string ltac:(unfold fixed_reasons; simpl; tauto)).
  assert (H4 := Hg "Very low JPEG blockiness"%string ltac:(unfold fixed_reasons; simpl; tauto)).
  repeat split; rewrite ?in_app_iff, ?when_in;
    try (intros [Hin|[[Hb He]|[[Hb He]|[[Hb He]|[Hb He]]]]];
         [contradiction | try discriminate He; exact Hb ..]);
    intros Hb; tauto.
Qed.

Lemma found_reason_in_order
    (fmt : option string) (md : pydict) (m : MetricSet) (kw : string) :
  In kw GENERATOR_KEYWORDS -> found (PDict md) kw = true ->
  In (generator_reason kw) (reasons_in_order fmt md m).
Proof.
  intros Hkw Hfound. unfold reasons_in_order. apply in_or_app. left.
  apply in_map, filter_In. split; [exact Hkw | exact Hfound].
Qed.

End Aggregation.

(** ** Images that need no resize *)

Lemma scale_is_one_upto_1024 :
  forallb
    (fun m => negb (py_min 1.0 (float_of_Z 1024 / float_of_Z (Z.of_nat m)) <? 1.0))
    (seq 1 1024) = true.
Proof. vm_compute. reflexivity. Qed.

Lemma tall_target_size :
  py_min 1.0 (float_of_Z 1024 / float_of_Z (Z.max 1 2048)) = 0.5 /\
  (0.5 <? 1.0) = true /\
  py_round (float_of_Z 1 * 0.5) = 0%Z /\
  py_round (float_of_Z 2048 * 0.5) = 1024%Z.
Proof. repeat split; vm_compute; reflexivity. Qed.

Section Analysis.
Context {U : Unicode} {raster : Type} {L : Libs raster}.

(** ** The pipeline *)

Lemma resize_not_needed (img : Image raster) :
  (Z.max (Zpos (fst (size img))) (Zpos (snd (size img))) <= 1024)%Z ->
  _resize_for_metrics img = Ok img.
Proof.
  intros Hmax. unfold _resize_for_metrics, _resize_for_metrics_with.
  destruct (size img) as [w h]. cbn [fst snd] in Hmax.
  set (m := Z.max (Zpos w) (Zpos h)) in *.
  pose proof scale_is_one_upto_1024 as Hall. rewrite forallb_forall in Hall.
  specialize (Hall (Z.to_nat m)). rewrite Z2Nat.id in Hall by lia.
  rewrite (proj1 (negb_true_iff _) (Hall ltac:(apply in_seq; lia))). reflexivity.
Qed.

(** [extract_metadata] is its ICC step followed by the rest of the
    record; it raises exactly when [len()] does on a truthy
    [icc_profile]. *)
Lemma extract_metadata_spec (img : Image raster) :
  extract_metadata img = (icc <- icc_step img ;; Ok (record_with icc img)).
Proof.
  unfold extract_metadata, icc_step, record_with.
  destruct (info_get "icc_profile" (info img)) as [v|];
    [destruct (info_truthy v); [destruct (info_len v) as [n|e]|]|];
    cbn [bind]; try reflexivity;
    destruct (collect_info (info img)) as [|i is_];
    destruct (exif_data_of img) as [|x xs]; reflexivity.
Qed.

Lemma extract_metadata_ok (img : Image raster) (md : pydict) :
  extract_metadata img = Ok md ->
  exists icc, icc_step img = Ok icc /\ md = record_with icc img.
Proof.
  rewrite extract_metadata_spec. destruct (icc_step img) as [icc|e]; cbn [bind].
  - intros H. injection H as <-. now exists icc.
  - discriminate.
Qed.

Lemma icc_step_raises (img : Image raster) (e : exn) :
  icc_step img = Raise e <->
  exists v, info_get "icc_profile" (info img) = Some v /\
            info_truthy v = true /\ info_len v = Raise e.
Proof.
  unfold icc_step. destruct (info_get "icc_profile" (info img)) as [v|].
  - destruct (info_truthy v) eqn:Ht.
    + destruct (info_len v) as [n|e'] eqn:Hn; cbn [bind]; split.
      * discriminate.
      * intros (v' & Hv & _ & Hl). injection Hv as <-. congruence.
      * intros H. injection H as ->. now exists v.
      * intros (v' & Hv & _ & Hl). injection Hv as <-. congruence.
    + split; [discriminate|]. intros (v' & Hv & Ht' & _). injection Hv as <-. congruence.
  - split; [discriminate|]. intros (v' & Hv & _). discriminate Hv.
Qed.

Lemma extract_metadata_raises (img : Image raster) (e : exn) :
  extract_metadata img = Raise e <->
  exists v, info_get "icc_profile" (info img) = Some v /\
            info_truthy v = true /\ info_len v = Raise e.
Proof.
  rewrite <- icc_step_raises, extract_metadata_spec.
  destruct (icc_step img) as [icc|e']; cbn [bind]; split; congruence.
Qed.

Lemma exif_entry (img : Image raster) (icc : option Z) :
  dict_get "exif" (record_with icc img)
  = match exif_data_of img with
    | [] => None
    | d => Some (PDict d)
    end.
Proof.
  unfold record_with.
  destruct (collect_info (info img)) as [|i is_];
    destruct icc as [n|];
    destruct (exif_data_of img) as [|x xs]; reflexivity.
Qed.

Lemma format_entry (img : Image raster) (icc : option Z) :
  dict_get "format" (record_with icc img)
  = Some (match format img with Some f => PStr f | None => PNone end).
Proof.
  unfold record_with.
  destruct (collect_info (info img)) as [|i is_];
    destruct icc as [n|];
    destruct (exif_data_of img) as [|x xs]; reflexivity.
Qed.

Lemma has_exif_absent (img : Image raster) (icc : option Z) :
  match dict_get "exif" (record_with icc img) with
  | Some v => py_bool v
  | None => false
  end = negb (exif_absent (record_with icc img)).
Proof.
  unfold exif_absent. rewrite exif_entry. now destruct (exif_data_of img).
Qed.

Lemma exif_absent_or_empty_same (img : Image raster) (icc : option Z) :
  exif_absent_or_empty (record_with icc img) = exif_absent (record_with icc img).
Proof.
  unfold exif_absent_or_empty, exif_absent. rewrite exif_entry.
  now destruct (exif_data_of img).
Qed.

(** What [analyze_image] returns once the resize has succeeded and the
    record has been built. *)
Lemma analyze_image_returns (img small : Image raster) (md : pydict) :
  _resize_for_metrics img = Ok small ->
  extract_metadata img = Ok md ->
  exists res,
    analyze_image img = Ok res /\
    metadata res = md /\
    metrics res =
      {| blockiness := compute_blockiness (_pil_to_nd_gray small);
         noise_estimate := compute_noise (_pil_to_nd_gray small);
         hist_entropy := compute_entropy (_pil_to_nd_gray small) |} /\
    reasons res = reasons_in_order (format img) (metadata res) (metrics res) /\
    score res = score_formula (metadata res) (metrics res) /\
    label res = label_for (score res).
Proof.
  intros Hsmall Hmd. unfold analyze_image. rewrite Hsmall. cbn [bind].
  rewrite Hmd. cbn [bind].
  destruct (extract_metadata_ok img md Hmd) as (icc & _ & ->).
  eexists. split; [reflexivity|]. cbn [metadata metrics reasons score label].
  split; [reflexivity|]. split; [reflexivity|].
  set (gray := _pil_to_nd_gray small).
  unfold detect_generator_reasons. rewrite detect_with_filter.
  pose proof (filter_nil_existsb (found (PDict (record_with icc img)))
                GENERATOR_KEYWORDS) as Hgen.
  rewrite has_exif_absent, negb_involutive.
  split; [|split; [|reflexivity]].
  - unfold reasons_in_order. cbn [hist_entropy noise_estimate blockiness].
    rewrite exif_absent_or_empty_same.
    unfold when, is_png. cbn [app].
    destruct (exif_absent (record_with icc img)), (compute_entropy gray <? 0.35),
      (compute_noise gray <? 0.2),
      ((compute_blockiness gray <? 0.05)
       && negb match format img with Some f => (f =? "PNG")%string | None => false end);
      rewrite <- ?app_assoc; cbn [app]; rewrite ?app_nil_r; reflexivity.
  - unfold score_formula, signature_term, exif_term, clamp01, ramp.
    cbn [hist_entropy noise_estimate blockiness].
    destruct (filter (found (PDict (record_with icc img))) GENERATOR_KEYWORDS)
      as [|kw kws];
      rewrite Hgen; cbn [map]; destruct (exif_absent (record_with icc img)); reflexivity.
Qed.

(** What stops [analyze_image]: the resize, or [len()] of the ICC
    profile once the resize has succeeded. *)
Lemma analyze_image_raises (img : Image raster) (e : exn) :
  analyze_image img = Raise e <->
  _resize_for_metrics img = Raise e \/
  (exists small, _resize_for_metrics img = Ok small) /\ extract_metadata img = Raise e.
Proof.
  unfold analyze_image. destruct (_resize_for_metrics img) as [small|e1]; cbn [bind].
  - destruct (extract_metadata img) as [md|e2]; cbn [bind]; split.
    + discriminate.
    + intros [H|[_ H]]; discriminate H.
    + intros H. right. split; [now exists small | congruence].
    + intros [H|[_ H]]; [discriminate H | congruence].
  - split; [intros H; left; congruence
           | intros [H|[[small H] _]]; [congruence | discriminate H]].
Qed.

Lemma analyze_image_resized (img : Image raster) (res : AnalysisResult) :
  analyze_image img = Ok res ->
  exists small md, _resize_for_metrics img = Ok small /\ extract_metadata img = Ok md.
Proof.
  unfold analyze_image. destruct (_resize_for_metrics img) as [small|e];
    [|discriminate]. cbn [bind].
  destruct (extract_metadata img) as [md|e]; [|discriminate].
  intros _. now exists small, md.
Qed.

(** The mean is only taken on a grid of at least 16 x 16. *)
Lemma blockiness_between_on_grid (gray : ndarray) :
  ((16 <= rows gray)%nat -> (16 <= cols gray)%nat ->
   is_nan (F32.to_float (np_mean (v_edges gray ++ h_edges gray))) = false) ->
  between 0 (compute_blockiness gray) 1.
Proof.
  intros H. unfold compute_blockiness.
  destruct (rows gray <? 16)%nat eqn:Hr; [split; reflexivity|].
  destruct (cols gray <? 16)%nat eqn:Hc; [split; reflexivity|].
  apply Nat.ltb_ge in Hr, Hc. cbn [orb]. cbv zeta.
  destruct (v_edges gray ++ h_edges gray); [split; reflexivity|].
  apply np_clip_between. now apply H.
Qed.

Lemma noise_between (gray : ndarray) :
  is_nan (F32.to_float (np_std (laplace gray))) = false ->
  between 0 (compute_noise gray) 1.
Proof.
  intros H. unfold compute_noise. apply np_clip_between, mul_not_nan; [|exact H].
  apply positive_finite_consts.
Qed.

Lemma entropy_between (gray : ndarray) :
  is_nan (shannon_entropy gray) = false ->
  between 0 (compute_entropy gray) 1.
Proof.
  intros H. unfold compute_entropy. apply np_clip_between, div_not_nan; [|exact H].
  apply positive_finite_consts.
Qed.

(** ** Score and label *)

(** C1: whenever the resize step succeeds and the record is built, the
    analysis returns, and its score is the clamp to [0,1] of the sum of
    five terms: 0.60 if a generator signature was found, 0.15 if the
    EXIF sub-mapping is absent, and the three linear ramps on entropy,
    noise and blockiness. *)
Theorem C1_score_is_clamped_sum (img small : Image raster) (md : pydict) :
  _resize_for_metrics img = Ok small ->
  extract_metadata img = Ok md ->
  exists res,
    analyze_image img = Ok res /\
    (existsb (found (PDict (metadata res))) GENERATOR_KEYWORDS = true
     <-> detect_generator_reasons (PDict (metadata res)) <> []) /\
    (exif_absent (metadata res) = true <-> dict_get "exif" (metadata res) = None) /\
    score res =
      np_clip
        ((if existsb (found (PDict (metadata res))) GENERATOR_KEYWORDS then 0.60 else 0)
         + (if exif_absent (metadata res) then 0.15 else 0)
         + (0.35 - py_min (hist_entropy (metrics res)) 0.35) / 0.35 * 0.10
         + (0.20 - py_min (noise_estimate (metrics res)) 0.20) / 0.20 * 0.10
         + (0.05 - py_min (blockiness (metrics res)) 0.05) / 0.05 * 0.05)
        0 1.
Proof.
  intros Hsmall Hmd.
  destruct (analyze_image_returns img small md Hsmall Hmd)
    as (res & Hres & _ & _ & _ & Hscore & _).
  exists res. split; [exact Hres|]. split; [|split; [|exact Hscore]].
  - unfold detect_generator_reasons. rewrite detect_with_filter.
    pose proof (filter_nil_existsb (found (PDict (metadata res))) GENERATOR_KEYWORDS) as H.
    destruct (filter _ GENERATOR_KEYWORDS); rewrite H; simpl; split; congruence.
  - unfold exif_absent. destruct (dict_get "exif" (metadata res)); split; congruence.
Qed.

(** C2: the label is a function of the final score alone, with fixed
    thresholds and closed lower bounds: at least 0.75 gives "Likely
    AI-generated", at least 0.45 and below 0.75 gives "Possibly
    AI-generated", below 0.45 gives "Likely human-captured"; so 0.75 and
    0.45 fall in the upper class, 0.749999 and 0.449999 in the lower. *)
Theorem C2_label_thresholds (img small : Image raster) (md : pydict) :
  _resize_for_metrics img = Ok small ->
  extract_metadata img = Ok md ->
  exists res,
    analyze_image img = Ok res /\
    label res = label_for (score res) /\
    (forall s, (0.75 <=? s) = true -> label_for s = "Likely AI-generated") /\
    (forall s, (0.45 <=? s) = true -> (s <? 0.75) = true ->
               label_for s = "Possibly AI-generated") /\
    (forall s, (s <? 0.45) = true -> label_for s = "Likely human-captured") /\
    label_for 0.75 = "Likely AI-generated" /\
    label_for 0.749999 = "Possibly AI-generated" /\
    label_for 0.45 = "Possibly AI-generated" /\
    label_for 0.449999 = "Likely human-captured".
Proof.
  intros Hsmall Hmd.
  destruct (analyze_image_returns img small md Hsmall Hmd)
    as (res & Hres & _ & _ & _ & _ & Hlabel).
  exists res. split; [exact Hres|]. split; [exact Hlabel|].
  split; [exact label_for_high|]. split; [exact label_for_middle|].
  split; [exact label_for_low|]. repeat split; reflexivity.
Qed.

(** ** Generator signatures *)

(** C3: the detector flattens every key and every leaf value of the
    record, through nested mappings and lists, into tokens lower-cased
    by [str.lower]; it emits one reason per keyword of the fixed list
    that occurs in some token, in the order of that list and without
    repetition; so a keyword of ASCII letters that occurs in the record
    in any letter case, in a key or a value at any depth and with any
    text around it, is reported; in particular "midjourney" yields
    "Generator tag detected: midjourney", the signature term of the
    score is then 0.60, and the score itself is at least 0.60 when the
    three metrics lie in [0,1]. *)
Theorem C3_generator_signatures (md : pyobj) :
  (forall t, In t (tokens md) <-> exists s, text_at s md /\ t = lower s) /\
  detect_generator_reasons md
  = map generator_reason
      (filter (fun kw => existsb (fun t => py_in kw t) (tokens md)) GENERATOR_KEYWORDS) /\
  (forall kw,
      In (generator_reason kw) (detect_generator_reasons md) <->
      In kw GENERATOR_KEYWORDS /\
      exists s, text_at s md /\ substring_of kw (lower s)) /\
  NoDup (detect_generator_reasons md) /\
  (forall kw s,
      In kw GENERATOR_KEYWORDS -> all_ascii kw = true ->
      text_at s md -> substring_of_ci kw s ->
      In (generator_reason kw) (detect_generator_reasons md)) /\
  (forall s,
      text_at s md -> substring_of_ci "midjourney" s ->
      In "Generator tag detected: midjourney"%string (detect_generator_reasons md) /\
      (forall d, md = PDict d -> signature_term d = 0.60) /\
      (forall (img small : Image raster) (d : pydict),
          extract_metadata img = Ok d -> md = PDict d ->
          _resize_for_metrics img = Ok small ->
          exists res,
            analyze_image img = Ok res /\
            In "Generator tag detected: midjourney"%string (reasons res) /\
            score res =
              clamp01 (0.60 + exif_term (metadata res)
                       + ramp 0.35 0.10 (hist_entropy (metrics res))
                       + ramp 0.20 0.10 (noise_estimate (metrics res))
                       + ramp 0.05 0.05 (blockiness (metrics res))) /\
            (between 0 (hist_entropy (metrics res)) 1 ->
             between 0 (noise_estimate (metrics res)) 1 ->
             between 0 (blockiness (metrics res)) 1 ->
             (0.60 <=? score res) = true))).
Proof.
  split; [intros t; apply tokens_text_at|].
  split; [apply detect_with_filter|].
  split.
  { intros kw. rewrite detect_in. split.
    - intros (kw' & Hin & Hf & Heq). apply generator_reason_inj in Heq. subst kw'.
      split; [exact Hin | now apply found_iff].
    - intros (Hin & Hs). exists kw. split; [exact Hin|].
      split; [now apply found_iff | reflexivity]. }
  split; [apply detect_nodup|].
  assert (Hany : forall kw s,
             In kw GENERATOR_KEYWORDS -> all_ascii kw = true ->
             text_at s md -> substring_of_ci kw s -> found md kw = true).
  { intros kw s _ Hascii Hat Hci. apply found_iff. exists s. split; [exact Hat|].
    now apply py_in_substring, py_in_lower_ci. }
  split.
  { intros kw s Hkw Hascii Hat Hci.
    apply found_reason; [exact Hkw | now apply Hany with s]. }
  intros s Hat Hci.
  pose proof midjourney_is_keyword as Hkw.
  assert (Hfound : found md "midjourney" = true)
    by (now apply Hany with s).
  pose proof (found_reason md "midjourney" Hkw Hfound) as Hin.
  change (generator_reason "midjourney")
    with "Generator tag detected: midjourney"%string in Hin.
  assert (Hterm : forall d, md = PDict d -> signature_term d = 0.60).
  { intros d Hd. apply signature_term_found with "midjourney"%string; [exact Hkw|].
    rewrite <- Hd. exact Hfound. }
  split; [exact Hin|]. split; [exact Hterm|].
  intros img small d Hd Hmd Hsmall.
  destruct (analyze_image_returns img small d Hsmall Hd)
    as (res & Hres & Hmeta & _ & Hreasons & Hscore & _).
  exists res. split; [exact Hres|]. split.
  - rewrite Hreasons.
    apply (found_reason_in_order (format img) (metadata res) (metrics res)
             "midjourney" Hkw).
    rewrite Hmeta, <- Hmd. exact Hfound.
  - pose proof (Hterm (metadata res) ltac:(rewrite Hmeta; exact Hmd)) as Hsig.
    rewrite Hscore. split.
    + unfold score_formula. rewrite Hsig. reflexivity.
    + intros He Hn Hb.
      apply score_formula_lower_bound;
        [exact Hsig | apply between_nonneg, He | apply between_nonneg, Hn
         | apply between_nonneg, Hb].
Qed.

(** ** Reasons *)


(** An image whose [format] attribute is "PNG" is exempt: its reasons
    never contain "Very low JPEG blockiness", while its score is still
    clamped from a sum that contains the blockiness ramp. *)
Lemma png_format_is_exempt (img small : Image raster) (md : pydict) :
  _resize_for_metrics img = Ok small ->
  extract_metadata img = Ok md ->
  format img = Some "PNG"%string ->
  exists res,
    analyze_image img = Ok res /\
    ~ In "Very low JPEG blockiness"%string (reasons res) /\
    score res =
      clamp01 (signature_term (metadata res) + exif_term (metadata res)
               + ramp 0.35 0.10 (hist_entropy (metrics res))
               + ramp 0.20 0.10 (noise_estimate (metrics res))
               + (0.05 - py_min (blockiness (metrics res)) 0.05) / 0.05 * 0.05).
Proof.
  intros Hsmall Hmd Hpng.
  destruct (analyze_image_returns img small md Hsmall Hmd)
    as (res & Hres & _ & _ & Hreasons & Hscore & _).
  exists res. split; [exact Hres|]. split; [|exact Hscore].
  rewrite Hreasons. unfold reasons_in_order. rewrite Hpng. cbn [is_png].
  rewrite andb_false_r. cbn [when]. rewrite !in_app_iff.
  intros [Hin|[Hin|[Hin|[Hin|[]]]]].
  - revert Hin. apply fixed_reason_not_generated.
    apply fixed_reasons_apart. unfold fixed_reasons. simpl. tauto.
  - destruct (exif_absent_or_empty _); simpl in Hin; [destruct Hin as [H|[]]; discriminate H | exact Hin].
  - destruct (_ <? _); simpl in Hin; [destruct Hin as [H|[]]; discriminate H | exact Hin].
  - destruct (_ <? _); simpl in Hin; [destruct Hin as [H|[]]; discriminate H | exact Hin].
Qed.

(** The exemption looks at the [format] attribute only: on an image that
    carries no format the low-blockiness reason is emitted. *)
Lemma no_format_no_exemption (img small : Image raster) (md : pydict) :
  _resize_for_metrics img = Ok small ->
  extract_metadata img = Ok md ->
  format img = None ->
  exists res,
    analyze_image img = Ok res /\
    metadata res = md /\
    reasons res = reasons_in_order None (metadata res) (metrics res) /\
    score res = score_formula (metadata res) (metrics res) /\
    ((blockiness (metrics res) <? 0.05) = true ->
     In "Very low JPEG blockiness"%string (reasons res)).
Proof.
  intros Hsmall Hmd Hfmt.
  destruct (analyze_image_returns img small md Hsmall Hmd)
    as (res & Hres & Hmeta & _ & Hreasons & Hscore & _).
  rewrite Hfmt in Hreasons.
  exists res. split; [exact Hres|]. split; [exact Hmeta|].
  split; [exact Hreasons|]. split; [exact Hscore|]. intros Hb.
  rewrite Hreasons. unfold reasons_in_order. rewrite Hb. cbn [is_png negb andb when].
  rewrite !in_app_iff. do 4 right. now left.
Qed.

(** C5: the exemption is not reached by a PNG file.  Both routes analyse
    the picture [_load_image_from_bytes] hands back, which is the copy
    made by [ImageOps.exif_transpose], and a copy carries no format: a
    file that Pillow opens as PNG is analysed with no format, its
    record holds [None] under "format", and when its blockiness is
    below 0.05 its reasons do contain "Very low JPEG blockiness".  The
    blockiness ramp is in the sum the score is clamped from. *)
Theorem C5_png_file_is_not_exempt
    (data : list Byte.byte) (opened img small : Image raster) (md : pydict) :
  Image_open data = Ok opened ->
  format opened = Some "PNG"%string ->
  ImageOps_exif_transpose opened = Ok img ->
  format img = None ->
  _resize_for_metrics img = Ok small ->
  extract_metadata img = Ok md ->
  exists res,
    analyze data = Analysed res /\
    dict_get "format" (metadata res) = Some PNone /\
    (In "Very low JPEG blockiness"%string (reasons res)
     <-> (blockiness (metrics res) <? 0.05) = true) /\
    score res =
      clamp01 (signature_term (metadata res) + exif_term (metadata res)
               + ramp 0.35 0.10 (hist_entropy (metrics res))
               + ramp 0.20 0.10 (noise_estimate (metrics res))
               + (0.05 - py_min (blockiness (metrics res)) 0.05) / 0.05 * 0.05).
Proof.
  intros Hopen _ Htr Hfmt Hsmall Hmd.
  destruct (no_format_no_exemption img small md Hsmall Hmd Hfmt)
    as (res & Hres & Hmeta & Hreasons & Hscore & _).
  exists res. split.
  { unfold analyze, _load_image_from_bytes. rewrite Hopen. cbn [bind].
    rewrite Htr. cbn [bind]. now rewrite Hres. }
  split.
  { rewrite Hmeta. destruct (extract_metadata_ok img md Hmd) as (icc & _ & ->).
    rewrite format_entry, Hfmt. reflexivity. }
  split; [|exact Hscore].
  destruct (fixed_reason_membership
              (map generator_reason
                 (filter (found (PDict (metadata res))) GENERATOR_KEYWORDS))
              (exif_absent_or_empty (metadata res))
              (hist_entropy (metrics res) <? 0.35)
              (noise_estimate (metrics res) <? 0.20)
              ((blockiness (metrics res) <? 0.05) && negb (is_png None)))
    as (_ & _ & _ & M4).
  { intros r Hr. apply fixed_reason_not_generated, fixed_reasons_apart, Hr. }
  rewrite Hreasons. unfold reasons_in_order. rewrite M4.
  cbn [is_png negb]. now rewrite andb_true_r.
Qed.

(** ** Ranges *)

(** C7: as long as the raw readings handed back by numpy and
    scikit-image are numbers (the mean of the boundary differences is
    only asked for on a grid of at least 16 rows and 16 columns), the
    score and each of the three metrics lie in the closed interval
    [0,1], whenever the resize step succeeds and the record is built. *)
Theorem C7_score_and_metrics_in_unit_interval
    (img small : Image raster) (md : pydict) :
  _resize_for_metrics img = Ok small ->
  extract_metadata img = Ok md ->
  ((16 <= rows (_pil_to_nd_gray small))%nat ->
   (16 <= cols (_pil_to_nd_gray small))%nat ->
   is_nan (F32.to_float
             (np_mean (v_edges (_pil_to_nd_gray small)
                       ++ h_edges (_pil_to_nd_gray small)))) = false) ->
  is_nan (F32.to_float (np_std (laplace (_pil_to_nd_gray small)))) = false ->
  is_nan (shannon_entropy (_pil_to_nd_gray small)) = false ->
  exists res,
    analyze_image img = Ok res /\
    between 0 (score res) 1 /\
    between 0 (blockiness (metrics res)) 1 /\
    between 0 (noise_estimate (metrics res)) 1 /\
    between 0 (hist_entropy (metrics res)) 1.
Proof.
  intros Hsmall Hmd Hb Hn He.
  destruct (analyze_image_returns img small md Hsmall Hmd)
    as (res & Hres & _ & Hm & _ & Hscore & _).
  apply blockiness_between_on_grid in Hb.
  apply noise_between in Hn. apply entropy_between in He.
  exists res. split; [exact Hres|]. rewrite Hscore, Hm.
  cbn [blockiness noise_estimate hist_entropy].
  split; [|split; [exact Hb | split; [exact Hn | exact He]]].
  apply score_formula_between; cbn [blockiness noise_estimate hist_entropy];
    now apply between_nonneg.
Qed.

(** C8: a grid with fewer than 16 rows or fewer than 16 columns has
    blockiness exactly 0.0, and so has the result of analysing an image
    whose grid is that small, whenever the resize step succeeds and the
    record is built. *)
Theorem C8_small_grid_blockiness_zero (gray : ndarray) :
  (rows gray < 16 \/ cols gray < 16)%nat ->
  compute_blockiness gray = 0 /\
  (forall (img small : Image raster) (md : pydict),
      _resize_for_metrics img = Ok small -> extract_metadata img = Ok md ->
      _pil_to_nd_gray small = gray ->
      exists res, analyze_image img = Ok res /\ blockiness (metrics res) = 0).
Proof.
  intros Hsmall.
  assert (Hzero : compute_blockiness gray = 0).
  { unfold compute_blockiness.
    replace ((rows gray <? 16)%nat || (cols gray <? 16)%nat) with true; [reflexivity|].
    symmetry. apply orb_true_iff. rewrite !Nat.ltb_lt. exact Hsmall. }
  split; [exact Hzero|].
  intros img small md Hres Hmd Hgray.
  destruct (analyze_image_returns img small md Hres Hmd) as (res & Hr & _ & Hm & _).
  exists res. split; [exact Hr|]. rewrite Hm. cbn [blockiness]. now rewrite Hgray.
Qed.

(** ** What crosses the boundary *)

(** The loader's failure is the only source of an invalid-image answer. *)
Lemma invalid_image_iff_load_fails (data : list Byte.byte) (e : exn) :
  analyze data = InvalidImage e <-> _load_image_from_bytes data = Raise e.
Proof.
  unfold analyze. destruct (_load_image_from_bytes data) as [img|e'].
  - destruct (analyze_image img); split; discriminate.
  - split; congruence.
Qed.

(** A failure while reading EXIF is swallowed: the record simply has no
    [exif] key, and the analysis goes on and reports the absence. *)
Lemma exif_failure_is_recovered
    (img small : Image raster) (md : pydict) (e : exn) :
  load_exif img = Raise e ->
  extract_metadata img = Ok md ->
  dict_get "exif" md = None /\
  (_resize_for_metrics img = Ok small ->
   exists res, analyze_image img = Ok res /\
               In "No EXIF metadata present"%string (reasons res)).
Proof.
  intros Hload Hmd.
  assert (Hnone : dict_get "exif" md = None).
  { destruct (extract_metadata_ok img md Hmd) as (icc & _ & ->).
    rewrite exif_entry. unfold exif_data_of. now rewrite Hload. }
  split; [exact Hnone|]. intros Hsmall.
  destruct (analyze_image_returns img small md Hsmall Hmd)
    as (res & Hres & Hmeta & _ & Hreasons & _).
  exists res. split; [exact Hres|]. rewrite Hreasons. unfold reasons_in_order.
  apply in_or_app. right. apply in_or_app. left.
  unfold exif_absent_or_empty. rewrite Hmeta, Hnone. now left.
Qed.

(** Whatever escapes [analyze] comes out of the resize or, once the
    resize has succeeded, out of [len()] of the ICC profile. *)
Lemma uncaught_comes_from_resize_or_len (data : list Byte.byte) (e : exn) :
  analyze data = Uncaught e <->
  exists img,
    _load_image_from_bytes data = Ok img /\
    (_resize_for_metrics img = Raise e \/
     (exists small, _resize_for_metrics img = Ok small) /\
     extract_metadata img = Raise e).
Proof.
  unfold analyze. destruct (_load_image_from_bytes data) as [img|e'].
  - split.
    + intros H. exists img. split; [reflexivity|]. apply analyze_image_raises.
      destruct (analyze_image img); congruence.
    + intros (img' & Himg & H). injection Himg as <-.
      apply analyze_image_raises in H. now rewrite H.
  - split; [discriminate | intros (img & Himg & _); discriminate Himg].
Qed.

(** C9: bytes that decode to a picture one pixel wide and 2048 high are
    not an invalid image, yet the analysis asks the resize for a width
    of zero, and what the resize raises on that escapes uncaught. *)
Theorem C9_tall_picture_escapes
    (data : list Byte.byte) (img : Image raster) (e : exn) :
  _load_image_from_bytes data = Ok img ->
  size img = (1, 2048)%positive ->
  Image_resize img (0, 1024)%Z = Raise e ->
  analyze data = Uncaught e /\ forall e', analyze data <> InvalidImage e'.
Proof.
  intros Hload Hsize Hresize.
  assert (Hesc : analyze data = Uncaught e).
  { unfold analyze. rewrite Hload.
    unfold analyze_image, _resize_for_metrics, _resize_for_metrics_with.
    rewrite Hsize. destruct tall_target_size as (-> & -> & -> & ->).
    now rewrite Hresize. }
  split; [exact Hesc|]. intros e'. rewrite Hesc. discriminate.
Qed.

(** ** No repeated reason *)

(** C10: the reasons never repeat a string. *)
Theorem C10_reasons_have_no_duplicates (img small : Image raster) (md : pydict) :
  _resize_for_metrics img = Ok small ->
  extract_metadata img = Ok md ->
  exists res,
    analyze_image img = Ok res /\
    NoDup (detect_generator_reasons (PDict (metadata res))) /\
    NoDup (reasons res).
Proof.
  intros Hsmall Hmd.
  destruct (analyze_image_returns img small md Hsmall Hmd)
    as (res & Hres & _ & _ & Hreasons & _).
  exists res. split; [exact Hres|]. split; [apply detect_nodup|].
  rewrite Hreasons. apply reasons_in_order_nodup.
Qed.

End Analysis.

(** ** Two calls on the same bytes

    The module keeps nothing between two calls: its only module-level
    data is the keyword list, which is never written, and the list of
    tokens is created anew by every call of the detector.  What a call
    returns is therefore fixed by the bytes and by what the libraries
    answer. *)


Section Determinism.
Context {U : Unicode} {raster : Type} (L1 L2 : Libs raster).









End Determinism.

(** * Further properties *)

(** ** Mappings *)

Lemma dict_get_set_same (k : string) (v : pyobj) (d : pydict) :
  dict_get k (dict_set k v d) = Some v.
Proof.
  induction d as [|[k' v'] d IH]; simpl.
  - now rewrite String.eqb_refl.
  - destruct (k' =? k)%string eqn:E; simpl; [now rewrite String.eqb_refl | now rewrite E].
Qed.

Lemma dict_get_set_other (k k' : string) (v : pyobj) (d : pydict) :
  k <> k' -> dict_get k' (dict_set k v d) = dict_get k' d.
Proof.
  intros Hne. induction d as [|[k0 v0] d IH]; simpl.
  - destruct (k =? k')%string eqn:E; [apply String.eqb_eq in E; contradiction | reflexivity].
  - destruct (k0 =? k)%string eqn:E; simpl.
    + apply String.eqb_eq in E. subst k0.
      destruct (k =? k')%string eqn:E'; [apply String.eqb_eq in E'; contradiction | reflexivity].
    + destruct (k0 =? k')%string; [reflexivity | exact IH].
Qed.

Lemma dict_set_not_empty (k : string) (v : pyobj) (d : pydict) : dict_set k v d <> [].
Proof. destruct d as [|[k' v'] d]; simpl; [|destruct (k' =? k)%string]; discriminate. Qed.

Lemma dict_get_in (k : string) (v : pyobj) (d : pydict) :
  dict_get k d = Some v -> In (k, v) d.
Proof.
  induction d as [|[k' v'] d IH]; simpl; [discriminate|].
  destruct (k' =? k)%string eqn:E.
  - apply String.eqb_eq in E. intros H. injection H as <-. subst. now left.
  - intros H. right. now apply IH.
Qed.

Lemma dict_set_in (k : string) (v : pyobj) (d : pydict) (k0 : string) (v0 : pyobj) :
  In (k0, v0) (dict_set k v d) -> (k0, v0) = (k, v) \/ In (k0, v0) d.
Proof.
  induction d as [|[k' v'] d IH]; simpl.
  - intros [H|[]]. now left.
  - destruct (k' =? k)%string; simpl.
    + intros [H|H]; [now left | right; now right].
    + intros [H|H]; [right; now left|]. destruct (IH H); [now left | right; now right].
Qed.

(** A loop that sets one key per element, or skips the element. *)
Lemma set_loop_untouched {A : Type} (key : A -> string) (val : A -> option pyobj)
    (step : pydict -> A -> pydict) (k : string) (l : list A) :
  (forall acc a, step acc a
                 = match val a with Some v => dict_set (key a) v acc | None => acc end) ->
  ~ In k (map key l) ->
  forall acc, dict_get k (fold_left step l acc) = dict_get k acc.
Proof.
  intros Hstep. induction l as [|x l IH]; intros Hk acc; simpl; [reflexivity|].
  rewrite IH by (intros H; apply Hk; now right). rewrite Hstep.
  destruct (val x) as [v|]; [|reflexivity].
  apply dict_get_set_other. intros E. apply Hk. now left.
Qed.

Lemma set_loop_lookup {A : Type} (key : A -> string) (val : A -> option pyobj)
    (step : pydict -> A -> pydict) (l : list A) (a : A) (v : pyobj) :
  (forall acc a, step acc a
                 = match val a with Some v => dict_set (key a) v acc | None => acc end) ->
  NoDup (map key l) -> In a l -> val a = Some v ->
  forall acc, dict_get (key a) (fold_left step l acc) = Some v.
Proof.
  intros Hstep. induction l as [|x l IH]; intros Hnd Hin Hv acc; [destruct Hin|].
  inversion Hnd as [|? ? Hnot Hnd']; subst. simpl. destruct Hin as [->|Hin].
  - rewrite (set_loop_untouched key val step (key a) l Hstep Hnot).
    rewrite Hstep, Hv. apply dict_get_set_same.
  - now apply IH.
Qed.

(** ** Ranges with step 8 *)

Lemma py_range_8_length (stop : nat) :
  List.length (py_range 8 stop 8) = ((stop - 1) / 8)%nat.
Proof.
  unfold py_range. rewrite length_map, length_seq.
  destruct (Nat.le_gt_cases 8 stop) as [H|H].
  - f_equal. lia.
  - rewrite (Nat.div_small (stop - 1) 8) by lia.
    replace (stop - 8 + (8 - 1))%nat with 7%nat by lia. reflexivity.
Qed.

Lemma py_range_8_in (stop c : nat) :
  In c (py_range 8 stop 8) <->
  (8 <= c /\ c < stop /\ c mod 8 = 0)%nat.
Proof.
  unfold py_range. rewrite in_map_iff. split.
  - intros (i & <- & Hi). apply in_seq in Hi. destruct Hi as [_ Hi]. cbn [plus] in Hi.
    pose proof (Nat.Div0.mul_div_le (stop - 8 + (8 - 1)) 8) as Hd.
    assert (Hm : ((8 + i * 8) mod 8 = 0)%nat).
    { replace (8 + i * 8)%nat with ((1 + i) * 8)%nat by lia. apply Nat.Div0.mod_mul. }
    assert (8 * S i <= 8 * ((stop - 8 + (8 - 1)) / 8))%nat by (apply Nat.mul_le_mono_l; lia).
    lia.
  - intros (H8 & Hc & Hm). exists (c / 8 - 1)%nat.
    pose proof (Nat.div_mod_eq c 8) as Hdm. rewrite Hm in Hdm.
    assert (1 <= c / 8)%nat by lia.
    split; [lia|]. apply in_seq. split; [lia|]. cbn [plus].
    apply Nat.div_le_lower_bound; lia.
Qed.

Lemma guarded_appends {A : Type} (stop : nat) (f : nat -> A) (l : list nat) :
  (forall c, In c l -> (c < stop)%nat) ->
  forall acc,
    fold_left (fun acc c => if (c <? stop)%nat then acc ++ [f c] else acc) l acc
    = acc ++ map f l.
Proof.
  induction l as [|c l IH]; intros Hl acc; simpl.
  - now rewrite app_nil_r.
  - rewrite (proj2 (Nat.ltb_lt c stop) (Hl c (or_introl eq_refl))).
    rewrite IH by (intros c' Hc'; apply Hl; now right).
    now rewrite <- app_assoc.
Qed.

Lemma info_get_in (k : string) (v : info_value) (entries : list (string * info_value)) :
  NoDup (map fst entries) -> In (k, v) entries -> info_get k entries = Some v.
Proof.
  induction entries as [|[k' v'] entries IH]; simpl; [intros _ []|].
  intros Hnd [Heq|Hin]; inversion Hnd as [|? ? Hnot Hnd']; subst.
  - injection Heq as -> ->. now rewrite String.eqb_refl.
  - destruct (k' =? k)%string eqn:E.
    + apply String.eqb_eq in E. subst k'. elim Hnot.
      apply in_map_iff. now exists (k, v).
    + now apply IH.
Qed.

Section Metadata.
Context {raster : Type} {L : Libs raster}.

(** ** The record *)

(** *** The [info] loop *)

Lemma info_loop_not_empty (entries : list (string * info_value)) :
  forall acc, acc <> [] \/ entries <> [] ->
    fold_left
      (fun acc kv =>
         match snd kv with
         | InfoBytes b => dict_set (fst kv) (bytes_placeholder b) acc
         | InfoObj o => dict_set (fst kv) o acc
         end) entries acc <> [].
Proof.
  induction entries as [|[k v] entries IH]; intros acc H; simpl.
  - destruct H as [H|H]; [exact H | now elim H].
  - apply IH. left. destruct v; apply dict_set_not_empty.
Qed.

Lemma collect_info_empty (entries : list (string * info_value)) :
  collect_info entries = [] <-> entries = [].
Proof.
  split.
  - intros H. destruct entries as [|e entries]; [reflexivity|].
    exfalso. revert H. apply info_loop_not_empty. right. discriminate.
  - intros ->. reflexivity.
Qed.

Lemma info_get_none (k : string) (entries : list (string * info_value)) :
  ~ In k (map fst entries) -> info_get k entries = None.
Proof.
  induction entries as [|[k' v'] entries IH]; simpl; [reflexivity|].
  intros H. destruct (k' =? k)%string eqn:E.
  - apply String.eqb_eq in E. elim H. now left.
  - apply IH. intros Hin. apply H. now right.
Qed.

Lemma info_loop_lookup (k : string) (entries : list (string * info_value)) :
  NoDup (map fst entries) ->
  forall acc,
    dict_get k
      (fold_left
         (fun acc kv =>
            match snd kv with
            | InfoBytes b => dict_set (fst kv) (bytes_placeholder b) acc
            | InfoObj o => dict_set (fst kv) o acc
            end) entries acc)
    = match info_get k entries with
      | Some v => Some (info_to_meta v)
      | None => dict_get k acc
      end.
Proof.
  induction entries as [|[k0 v0] entries IH]; intros Hnd acc; simpl; [reflexivity|].
  inversion Hnd as [|? ? Hnot Hnd']; subst.
  rewrite (IH Hnd'). destruct (k0 =? k)%string eqn:E.
  - apply String.eqb_eq in E. subst k0. rewrite (info_get_none k entries Hnot).
    destruct v0; apply dict_get_set_same.
  - destruct (info_get k entries); [reflexivity|].
    assert (k0 <> k) by (intros ->; now rewrite String.eqb_refl in E).
    destruct v0; now apply dict_get_set_other.
Qed.

Lemma record_with_keys (img : Image raster) (icc : option Z) :
  map fst (record_with icc img)
  = ["format"; "mode"; "size"]
    ++ (match info img with [] => [] | _ :: _ => ["pil_info"] end)
    ++ (match icc with Some _ => ["icc_profile_length"] | None => [] end)
    ++ (match exif_data_of img with [] => [] | _ :: _ => ["exif"] end) /\
  NoDup (map fst (record_with icc img)) /\
  dict_get "format" (record_with icc img)
  = Some (match format img with Some f => PStr f | None => PNone end) /\
  dict_get "mode" (record_with icc img) = Some (PStr (mode img)) /\
  dict_get "size" (record_with icc img)
  = Some (PDict [("width", PInt (Zpos (fst (size img))));
                 ("height", PInt (Zpos (snd (size img))))]) /\
  dict_get "icc_profile_length" (record_with icc img)
  = match icc with Some n => Some (PInt n) | None => None end.
Proof.
  unfold record_with.
  pose proof (collect_info_empty (info img)) as Hinfo.
  destruct (info img) as [|e es].
  - rewrite (proj2 Hinfo eq_refl).
    destruct icc as [n|], (exif_data_of img) as [|x xs];
      (split; [reflexivity|]); (split; [|repeat split; reflexivity]);
      repeat (constructor; [simpl; intros H; repeat (destruct H as [H|H]; [discriminate H|]); exact H|]);
      constructor.
  - destruct (collect_info (e :: es)) as [|c cs];
      [destruct Hinfo as [Hinfo _]; discriminate (Hinfo eq_refl)|].
    destruct icc as [n|], (exif_data_of img) as [|x xs];
      (split; [reflexivity|]); (split; [|repeat split; reflexivity]);
      repeat (constructor; [simpl; intros H; repeat (destruct H as [H|H]; [discriminate H|]); exact H|]);
      constructor.
Qed.

Lemma icc_step_ok (img : Image raster) (icc : option Z) :
  icc_step img = Ok icc ->
  match info_get "icc_profile" (info img) with
  | Some v =>
      if info_truthy v then exists n, info_len v = Ok n /\ icc = Some n
      else icc = None
  | None => icc = None
  end.
Proof.
  unfold icc_step. destruct (info_get "icc_profile" (info img)) as [v|].
  - destruct (info_truthy v).
    + destruct (info_len v) as [n|e]; cbn [bind]; [|discriminate].
      intros H. injection H as <-. now exists n.
    + intros H. now injection H as <-.
  - intros H. now injection H as <-.
Qed.

(** X1: [extract_metadata] raises exactly when [img.info] holds a truthy
    [icc_profile] on which [len()] raises, and then it raises what
    [len()] raises.  Otherwise it returns a record whose keys are, in
    order: [format], [mode], [size] always; [pil_info] exactly when
    [img.info] has an entry; [icc_profile_length] exactly when
    [img.info] holds a truthy [icc_profile], bytes or not, with its
    [len()] for value; [exif] exactly when some tag was read.  The first
    three hold the image's own format, mode and dimensions. *)
Theorem X1_metadata_keys_and_basics (img : Image raster) :
  (forall e,
      extract_metadata img = Raise e <->
      exists v, info_get "icc_profile" (info img) = Some v /\
                info_truthy v = true /\ info_len v = Raise e) /\
  (forall md,
      extract_metadata img = Ok md ->
      map fst md
      = ["format"; "mode"; "size"]
        ++ (match info img with [] => [] | _ :: _ => ["pil_info"] end)
        ++ (match info_get "icc_profile" (info img) with
            | Some v => if info_truthy v then ["icc_profile_length"] else []
            | None => []
            end)
        ++ (match exif_data_of img with [] => [] | _ :: _ => ["exif"] end) /\
      NoDup (map fst md) /\
      dict_get "format" md
      = Some (match format img with Some f => PStr f | None => PNone end) /\
      dict_get "mode" md = Some (PStr (mode img)) /\
      dict_get "size" md
      = Some (PDict [("width", PInt (Zpos (fst (size img))));
                     ("height", PInt (Zpos (snd (size img))))]) /\
      (forall v,
          info_get "icc_profile" (info img) = Some v -> info_truthy v = true ->
          exists n, info_len v = Ok n /\
                    dict_get "icc_profile_length" md = Some (PInt n))).
Proof.
  split; [intros e; apply extract_metadata_raises|].
  intros md Hmd. destruct (extract_metadata_ok img md Hmd) as (icc & Hicc & ->).
  apply icc_step_ok in Hicc.
  destruct (record_with_keys img icc) as (Hkeys & Hnd & Hf & Hm & Hs & Hlen).
  split; [|split; [exact Hnd|split; [exact Hf|split; [exact Hm|split; [exact Hs|]]]]].
  - rewrite Hkeys. destruct (info_get "icc_profile" (info img)) as [v|].
    + destruct (info_truthy v); [destruct Hicc as (n & _ & ->) | subst icc]; reflexivity.
    + subst icc. reflexivity.
  - intros v Hv Ht. rewrite Hv, Ht in Hicc. destruct Hicc as (n & Hn & ->).
    exists n. split; [exact Hn | exact Hlen].
Qed.

Lemma collect_info_lookup (k : string) (entries : list (string * info_value)) :
  NoDup (map fst entries) ->
  dict_get k (collect_info entries)
  = match info_get k entries with
    | Some v => Some (info_to_meta v)
    | None => None
    end.
Proof. intros Hnd. unfold collect_info. now rewrite (info_loop_lookup k entries Hnd []). Qed.

Lemma pil_info_entry (img : Image raster) (icc : option Z) :
  dict_get "pil_info" (record_with icc img)
  = match collect_info (info img) with
    | [] => None
    | d => Some (PDict d)
    end.
Proof.
  unfold record_with.
  destruct (collect_info (info img)) as [|c cs];
    destruct icc as [n|], (exif_data_of img) as [|x xs]; reflexivity.
Qed.

(** X2: no raw bytes in [pil_info] of a record that was built: a bytes
    value of [img.info] appears as a placeholder carrying its length,
    any other value appears as it is, and nothing else appears. *)
Theorem X2_pil_info_holds_placeholders
    (img : Image raster) (md : pydict) (k : string) :
  extract_metadata img = Ok md ->
  NoDup (map fst (info img)) ->
  match info_get k (info img) with
  | Some (InfoBytes b) =>
      exists d, dict_get "pil_info" md = Some (PDict d) /\
                dict_get k d
                = Some (PDict [("type", PStr "bytes");
                               ("length", PInt (Z.of_nat (List.length b)))])
  | Some (InfoObj o) =>
      exists d, dict_get "pil_info" md = Some (PDict d) /\
                dict_get k d = Some o
  | None =>
      forall d, dict_get "pil_info" md = Some (PDict d) ->
                dict_get k d = None
  end.
Proof.
  intros Hmd Hnd. destruct (extract_metadata_ok img md Hmd) as (icc & _ & ->).
  pose proof (collect_info_lookup k (info img) Hnd) as Hlook.
  rewrite pil_info_entry.
  destruct (info_get k (info img)) as [[b|o]|] eqn:Hget.
  - destruct (collect_info (info img)) as [|c cs]; [discriminate Hlook|].
    exists (c :: cs). split; [reflexivity | exact Hlook].
  - destruct (collect_info (info img)) as [|c cs]; [discriminate Hlook|].
    exists (c :: cs). split; [reflexivity | exact Hlook].
  - intros d Hd. destruct (collect_info (info img)) as [|c cs]; [discriminate Hd|].
    injection Hd as <-. exact Hlook.
Qed.

(** ** EXIF *)

Lemma readable_tags_empty (ifd_name : string) (tags : list (Z * exif_value)) :
  readable_tags ifd_name tags = [] <-> tags = [].
Proof.
  split; [|intros ->; reflexivity].
  intros H. destruct tags as [|t tags]; [reflexivity|]. exfalso. revert H.
  unfold readable_tags. simpl fold_left.
  set (step := fun (readable_ifd : pydict) (tv : Z * exif_value) => _).
  assert (Hgo : forall l acc, acc <> [] -> fold_left step l acc <> []).
  { induction l as [|[i v] l IH]; intros acc Hacc; simpl; [exact Hacc|].
    apply IH. unfold step. destruct v; apply dict_set_not_empty. }
  apply Hgo. unfold step. destruct t as [i [b|o]]; simpl; discriminate.
Qed.

Lemma some_directory_has_a_tag (loaded : exif_dict) :
  (forall name tags, In (name, IfdDict tags) loaded -> tags = []) \/
  (exists name tags, In (name, IfdDict tags) loaded /\ tags <> []).
Proof.
  induction loaded as [|[n e] l [IH|(name & tags & Hin & Hne)]].
  - left. intros ? ? [].
  - destruct e as [[|t tags]|].
    + left. intros name tags [Heq|Hin]; [now injection Heq as _ <- | now apply (IH name)].
    + right. exists n, (t :: tags). split; [now left | discriminate].
    + left. intros name tags [Heq|Hin]; [discriminate Heq | now apply (IH name)].
  - right. exists name, tags. split; [now right | exact Hne].
Qed.

(** What the directory loop keeps: only directories that hold a tag. *)
Lemma readable_exif_entries (loaded : exif_dict) :
  forall name v,
    In (name, v) (readable_exif loaded) ->
    exists tags, tags <> [] /\ In (name, IfdDict tags) loaded /\
                 v = PDict (readable_tags name tags).
Proof.
  unfold readable_exif.
  set (step := fun (exif_data : pydict) (entry : string * ifd_entry) => _).
  assert (Hgo : forall l acc name v,
             In (name, v) (fold_left step l acc) ->
             In (name, v) acc \/
             exists tags, tags <> [] /\ In (name, IfdDict tags) l /\
                          v = PDict (readable_tags name tags)).
  { induction l as [|[n e] l IH]; intros acc name v Hin; simpl in Hin; [now left|].
    destruct (IH _ _ _ Hin) as [Hacc|(tags & Hne & Hl & Hv)].
    - unfold step in Hacc. cbn [fst snd] in Hacc. destruct e as [tags|]; [|now left].
      destruct (readable_tags n tags) as [|r rs] eqn:Hr; [now left|].
      apply dict_set_in in Hacc as [Heq|Hacc]; [|now left].
      injection Heq as -> ->. right. exists tags. split.
      + intros ->. discriminate Hr.
      + split; [now left | now rewrite Hr].
    - right. exists tags. split; [exact Hne|]. split; [now right | exact Hv]. }
  intros name v Hin. destruct (Hgo _ _ _ _ Hin) as [[]|H]. exact H.
Qed.

Lemma readable_exif_empty (loaded : exif_dict) :
  readable_exif loaded = [] <->
  forall name tags, In (name, IfdDict tags) loaded -> tags = [].
Proof.
  unfold readable_exif.
  set (step := fun (exif_data : pydict) (entry : string * ifd_entry) => _).
  assert (Hgo : forall l acc,
             fold_left step l acc = [] <->
             acc = [] /\ forall name tags, In (name, IfdDict tags) l -> tags = []).
  { induction l as [|[n e] l IH]; intros acc; simpl.
    - split; [intros ->; split; [reflexivity | intros ? ? []] | now intros [-> _]].
    - rewrite IH. unfold step at 1. cbn [fst snd]. destruct e as [tags|].
      + destruct (readable_tags n tags) as [|r rs] eqn:Hr.
        * apply readable_tags_empty in Hr. subst tags. split.
          -- intros [-> H]. split; [reflexivity|].
             intros name tags [Heq|Hin]; [now injection Heq as _ <- | now apply (H name)].
          -- intros [-> H]. split; [reflexivity|]. intros name tags Hin.
             apply (H name). now right.
        * split.
          -- intros [Habs _]. now apply dict_set_not_empty in Habs.
          -- intros [_ H]. specialize (H n tags (or_introl eq_refl)). subst tags.
             discriminate Hr.
      + split; intros [-> H]; (split; [reflexivity|]); intros name tags.
        * intros [Heq|Hin]; [discriminate Heq | now apply (H name)].
        * intros Hin. apply (H name). now right. }
  rewrite Hgo. split; [now intros [_ H] | intros H; now split].
Qed.

Lemma exif_data_of_spec (img : Image raster) :
  exif_data_of img
  = match load_exif img with
    | Ok loaded => readable_exif loaded
    | Raise _ => []
    end.
Proof. unfold exif_data_of. now destruct (load_exif img). Qed.

Lemma exif_key_present_iff (img : Image raster) (icc : option Z) :
  dict_get "exif" (record_with icc img) <> None <->
  exists loaded name tags,
    load_exif img = Ok loaded /\ In (name, IfdDict tags) loaded /\ tags <> [].
Proof.
  rewrite exif_entry, exif_data_of_spec.
  destruct (load_exif img) as [loaded|e].
  - pose proof (readable_exif_empty loaded) as He.
    destruct (readable_exif loaded) as [|x xs]; split.
    + intros H. now elim H.
    + intros (l' & name & tags & Hl & Hin & Hne). injection Hl as <-.
      elim Hne. apply (proj1 He eq_refl name tags Hin).
    + intros _. exists loaded.
      destruct (some_directory_has_a_tag loaded) as [Hall|(name & tags & Hex)].
      * destruct He as [_ He]. discriminate (He Hall).
      * exists name, tags. split; [reflexivity | exact Hex].
    + discriminate.
  - split; [intros H; now elim H | intros (l' & _ & _ & Hl & _); discriminate Hl].
Qed.

Lemma exif_key_contents (img : Image raster) (icc : option Z) (v : pyobj) :
  dict_get "exif" (record_with icc img) = Some v ->
  exists loaded exif_data,
    load_exif img = Ok loaded /\ v = PDict exif_data /\ exif_data <> [] /\
    forall name d, In (name, d) exif_data ->
      exists tags, tags <> [] /\ In (name, IfdDict tags) loaded /\
                   d = PDict (readable_tags name tags) /\
                   readable_tags name tags <> [].
Proof.
  rewrite exif_entry, exif_data_of_spec.
  intros Hv. destruct (load_exif img) as [loaded|e]; [|discriminate Hv].
  pose proof (readable_exif_entries loaded) as Hent.
  destruct (readable_exif loaded) as [|x xs] eqn:Hr; [discriminate Hv|].
  injection Hv as <-. exists loaded, (x :: xs).
  split; [reflexivity|]. split; [reflexivity|]. split; [discriminate|].
  intros name d Hin. destruct (Hent name d Hin) as (tags & Hne & Hl & Hd).
  exists tags. split; [exact Hne|]. split; [exact Hl|]. split; [exact Hd|].
  intros Habs. apply readable_tags_empty in Habs. contradiction.
Qed.

(** X3: a record that was built has an [exif] key exactly when piexif
    returned something in which some directory holds at least one tag;
    what is stored are then non-empty mappings, one per such directory,
    and never the thumbnail. *)
Theorem X3_exif_key_iff_some_tag (img : Image raster) (md : pydict) :
  extract_metadata img = Ok md ->
  (dict_get "exif" md <> None <->
   exists loaded name tags,
     load_exif img = Ok loaded /\ In (name, IfdDict tags) loaded /\ tags <> []) /\
  (forall v, dict_get "exif" md = Some v ->
     exists loaded exif_data,
       load_exif img = Ok loaded /\ v = PDict exif_data /\ exif_data <> [] /\
       forall name d, In (name, d) exif_data ->
         exists tags, tags <> [] /\ In (name, IfdDict tags) loaded /\
                      d = PDict (readable_tags name tags) /\
                      readable_tags name tags <> []).
Proof.
  intros Hmd. destruct (extract_metadata_ok img md Hmd) as (icc & _ & ->).
  split; [apply exif_key_present_iff | apply exif_key_contents].
Qed.

Lemma readable_tags_lookup (ifd_name : string) (tags : list (Z * exif_value))
    (tag_id : Z) (value : exif_value) :
  NoDup (map (fun tv => tag_name ifd_name (fst tv)) tags) ->
  In (tag_id, value) tags ->
  dict_get (tag_name ifd_name tag_id) (readable_tags ifd_name tags)
  = Some (tag_value value).
Proof.
  intros Hnd Hin. unfold readable_tags.
  apply (set_loop_lookup (fun tv => tag_name ifd_name (fst tv))
           (fun tv => Some (tag_value (snd tv))) _ tags (tag_id, value));
    [|exact Hnd | exact Hin | reflexivity].
  intros acc [i [b|o]]; reflexivity.
Qed.

Lemma readable_exif_lookup (loaded : exif_dict) (name : string)
    (tags : list (Z * exif_value)) :
  NoDup (map fst loaded) -> In (name, IfdDict tags) loaded -> tags <> [] ->
  dict_get name (readable_exif loaded) = Some (PDict (readable_tags name tags)).
Proof.
  intros Hnd Hin Hne. unfold readable_exif.
  apply (set_loop_lookup fst
           (fun entry =>
              match snd entry with
              | IfdDict tags =>
                  match readable_tags (fst entry) tags with
                  | [] => None
                  | readable_ifd => Some (PDict readable_ifd)
                  end
              | IfdOther => None
              end) _ loaded (name, IfdDict tags));
    [|exact Hnd | exact Hin |].
  - intros acc [n [t|]]; cbn [fst snd]; [|reflexivity].
    destruct (readable_tags n t); reflexivity.
  - cbn [fst snd]. pose proof (readable_tags_empty name tags) as He.
    destruct (readable_tags name tags) as [|x xs]; [|reflexivity].
    elim Hne. now apply He.
Qed.

End Metadata.

(** ** Detection and the order of entries *)

Section Order.
Context {U : Unicode}.

Lemma existsb_permutation {A : Type} (f : A -> bool) (l l' : list A) :
  Permutation l l' -> existsb f l = existsb f l'.
Proof.
  intros H. apply eq_true_iff_eq. rewrite !existsb_exists. split;
    intros (x & Hin & Hx); exists x; (split; [|exact Hx]).
  - now apply (Permutation_in _ H).
  - now apply (Permutation_in _ (Permutation_sym H)).
Qed.

Lemma tokens_permutation (d d' : pydict) :
  Permutation d d' -> Permutation (tokens (PDict d)) (tokens (PDict d')).
Proof.
  intros H. cbn [tokens].
  induction H as [|x l l' H IH|x y l|l l' l'' H1 IH1 H2 IH2]; cbn [flat_map].
  - constructor.
  - now apply Permutation_app_head.
  - rewrite !app_assoc. apply Permutation_app_tail, Permutation_app_comm.
  - now transitivity (flat_map (fun kv => lower (fst kv) :: tokens (snd kv)) l').
Qed.

Lemma found_permutation (d d' : pydict) (kw : string) :
  Permutation d d' -> found (PDict d) kw = found (PDict d') kw.
Proof. intros H. apply existsb_permutation, tokens_permutation, H. Qed.

Lemma found_app (d1 d2 : pydict) (kw : string) :
  found (PDict (d1 ++ d2)) kw = found (PDict d1) kw || found (PDict d2) kw.
Proof. unfold found. cbn [tokens]. now rewrite flat_map_app, existsb_app. Qed.

(** X4: the reasons the detector gives do not depend on the order in
    which the record lists its entries. *)
Theorem X4_detection_ignores_entry_order (d d' : pydict) :
  Permutation d d' ->
  detect_generator_reasons (PDict d) = detect_generator_reasons (PDict d').
Proof.
  intros H. unfold detect_generator_reasons. rewrite !detect_with_filter. f_equal.
  apply filter_ext. intros kw. now apply found_permutation.
Qed.

(** X5: a keyword is reported for two records put together exactly when
    it is reported for one of them: entries never mask one another, and
    a keyword is never matched across two entries. *)
Theorem X5_detection_of_joined_records (d1 d2 : pydict) (kw : string) :
  In (generator_reason kw) (detect_generator_reasons (PDict (d1 ++ d2))) <->
  In (generator_reason kw) (detect_generator_reasons (PDict d1)) \/
  In (generator_reason kw) (detect_generator_reasons (PDict d2)).
Proof.
  assert (Hin : forall md, In (generator_reason kw) (detect_generator_reasons md) <->
                           In kw GENERATOR_KEYWORDS /\ found md kw = true).
  { intros md. unfold detect_generator_reasons. rewrite detect_with_filter, in_map_iff.
    split.
    - intros (kw' & Heq & Hf). apply generator_reason_inj in Heq. subst kw'.
      now apply filter_In in Hf.
    - intros Hf. exists kw. split; [reflexivity | now apply filter_In]. }
  rewrite !Hin, found_app, orb_true_iff. tauto.
Qed.

End Order.

Section Findings.
Context {U : Unicode} {raster : Type} {L : Libs raster}.

(** ** What the analysis makes of the record *)

(** X6: the reason "No EXIF metadata present" is given exactly when
    piexif found no directory holding a tag, which includes every
    failure while reading EXIF: such a failure never stops the
    analysis, it only leaves the record without an [exif] key. *)
Theorem X6_exif_reason_iff_no_tag (img small : Image raster) (md : pydict) :
  _resize_for_metrics img = Ok small ->
  extract_metadata img = Ok md ->
  exists res,
    analyze_image img = Ok res /\
    (In "No EXIF metadata present" (reasons res) <->
     ~ exists loaded name tags,
         load_exif img = Ok loaded /\ In (name, IfdDict tags) loaded /\ tags <> []) /\
    (forall e, load_exif img = Raise e ->
       dict_get "exif" (metadata res) = None /\
       In "No EXIF metadata present" (reasons res)).
Proof.
  intros Hsmall Hmd.
  destruct (analyze_image_returns img small md Hsmall Hmd)
    as (res & Hres & Hmeta & _ & Hreasons & _).
  destruct (extract_metadata_ok img md Hmd) as (icc & _ & ->).
  exists res. split; [exact Hres|].
  destruct (fixed_reason_membership
              (map generator_reason
                 (filter (found (PDict (metadata res))) GENERATOR_KEYWORDS))
              (exif_absent_or_empty (metadata res))
              (hist_entropy (metrics res) <? 0.35)
              (noise_estimate (metrics res) <? 0.20)
              ((blockiness (metrics res) <? 0.05) && negb (is_png (format img))))
    as (M1 & _).
  { intros r Hr. apply fixed_reason_not_generated, fixed_reasons_apart, Hr. }
  assert (Hiff : In "No EXIF metadata present" (reasons res) <->
                 dict_get "exif" (record_with icc img) = None).
  { rewrite Hreasons. unfold reasons_in_order. rewrite M1, Hmeta.
    rewrite exif_absent_or_empty_same. unfold exif_absent.
    destruct (dict_get "exif" (record_with icc img)); split; congruence. }
  pose proof (exif_key_present_iff img icc) as Hkey.
  split.
  - rewrite Hiff, <- Hkey.
    destruct (dict_get "exif" (record_with icc img)); split; try congruence.
    intros H. elim H. discriminate.
  - intros e He.
    assert (Hnone : dict_get "exif" (record_with icc img) = None).
    { rewrite exif_entry, exif_data_of_spec, He. reflexivity. }
    split; [now rewrite Hmeta | now apply Hiff].
Qed.


(** X7: a text found in [img.info], as a key or inside a value that is
    not raw bytes, reaches the detector: if it contains a listed keyword
    in any letter case, the analysis reports that generator. *)
Theorem X7_info_text_is_detected
    (img small : Image raster) (md : pydict) (k : string) (o : pyobj)
    (kw s : string) :
  _resize_for_metrics img = Ok small ->
  extract_metadata img = Ok md ->
  NoDup (map fst (info img)) ->
  In (k, InfoObj o) (info img) ->
  s = k \/ text_at s o ->
  In kw GENERATOR_KEYWORDS ->
  substring_of kw (lower s) ->
  exists res,
    analyze_image img = Ok res /\
    In (generator_reason kw) (detect_generator_reasons (PDict (metadata res))) /\
    In (generator_reason kw) (reasons res).
Proof.
  intros Hsmall Hmd Hnd Hin Hs Hkw Hsub.
  destruct (analyze_image_returns img small md Hsmall Hmd)
    as (res & Hres & Hmeta & _ & Hreasons & _).
  destruct (extract_metadata_ok img md Hmd) as (icc & _ & ->).
  exists res. split; [exact Hres|].
  pose proof (collect_info_lookup k (info img) Hnd) as Hk.
  rewrite (info_get_in k (InfoObj o) (info img) Hnd Hin) in Hk. cbn [info_to_meta] in Hk.
  pose proof (pil_info_entry img icc) as Hd.
  destruct (collect_info (info img)) as [|c cs]; [discriminate Hk|].
  set (d := c :: cs) in *.
  apply dict_get_in in Hd. apply dict_get_in in Hk.
  assert (Hat : text_at s (PDict (record_with icc img))).
  { apply at_value with "pil_info" (PDict d); [exact Hd|].
    destruct Hs as [->|Hs]; [now apply at_key with o | now apply at_value with k o]. }
  assert (Hfound : found (PDict (metadata res)) kw = true).
  { rewrite Hmeta. apply found_iff. now exists s. }
  split; [now apply found_reason|].
  rewrite Hreasons. now apply found_reason_in_order.
Qed.

(** X8: a text held by an EXIF tag reaches the detector: when the bytes of
    a tag decode to a text that contains a listed keyword in any letter
    case, the analysis reports that generator, and does not report
    missing EXIF. *)
Theorem X8_exif_text_is_detected
    (img small : Image raster) (md : pydict) (loaded : exif_dict) (name : string)
    (tags : list (Z * exif_value)) (tag_id : Z) (b : list Byte.byte)
    (s kw : string) :
  _resize_for_metrics img = Ok small ->
  extract_metadata img = Ok md ->
  load_exif img = Ok loaded ->
  NoDup (map fst loaded) ->
  In (name, IfdDict tags) loaded ->
  NoDup (map (fun tv => tag_name name (fst tv)) tags) ->
  In (tag_id, ExifBytes b) tags ->
  bytes_decode_utf8_ignore b = Ok s ->
  In kw GENERATOR_KEYWORDS ->
  substring_of kw (lower s) ->
  exists res,
    analyze_image img = Ok res /\
    In (generator_reason kw) (reasons res) /\
    ~ In "No EXIF metadata present" (reasons res).
Proof.
  intros Hsmall Hmd Hload Hnd Hin Hndt Hint Hdec Hkw Hsub.
  destruct (analyze_image_returns img small md Hsmall Hmd)
    as (res & Hres & Hmeta & _ & Hreasons & _).
  destruct (extract_metadata_ok img md Hmd) as (icc & _ & ->).
  exists res. split; [exact Hres|].
  assert (Hne : tags <> []) by (intros ->; destruct Hint).
  pose proof (readable_exif_lookup loaded name tags Hnd Hin Hne) as Hdir.
  pose proof (readable_tags_lookup name tags tag_id (ExifBytes b) Hndt Hint) as Htag.
  cbn [tag_value] in Htag. rewrite Hdec in Htag. cbn [try_except] in Htag.
  assert (Hexif : dict_get "exif" (record_with icc img)
                  = Some (PDict (readable_exif loaded))).
  { rewrite exif_entry, exif_data_of_spec, Hload.
    destruct (readable_exif loaded); [discriminate Hdir | reflexivity]. }
  split.
  - rewrite Hreasons. apply found_reason_in_order; [exact Hkw|].
    rewrite Hmeta. apply found_iff. exists s. split; [|exact Hsub].
    apply at_value with "exif" (PDict (readable_exif loaded));
      [now apply dict_get_in|].
    apply at_value with name (PDict (readable_tags name tags));
      [now apply dict_get_in|].
    apply at_value with (tag_name name tag_id) (PStr s); [now apply dict_get_in|].
    now constructor.
  - destruct (fixed_reason_membership
                (map generator_reason
                   (filter (found (PDict (metadata res))) GENERATOR_KEYWORDS))
                (exif_absent_or_empty (metadata res))
                (hist_entropy (metrics res) <? 0.35)
                (noise_estimate (metrics res) <? 0.20)
                ((blockiness (metrics res) <? 0.05) && negb (is_png (format img))))
      as (M1 & _).
    { intros r Hr. apply fixed_reason_not_generated, fixed_reasons_apart, Hr. }
    rewrite Hreasons. unfold reasons_in_order. rewrite M1, Hmeta.
    rewrite exif_absent_or_empty_same. unfold exif_absent. rewrite Hexif. discriminate.
Qed.

(** X9: an image whose longer side is at most 1024 pixels is never handed
    to the resize: [_resize_for_metrics] gives back the image itself,
    and when the record of such an image is built, the three metrics of
    the result are those measured on the image itself. *)
Theorem X9_small_image_is_analysed_as_is (img : Image raster) (md : pydict) :
  (Z.max (Zpos (fst (size img))) (Zpos (snd (size img))) <= 1024)%Z ->
  extract_metadata img = Ok md ->
  _resize_for_metrics img = Ok img /\
  exists res,
    analyze_image img = Ok res /\
    metadata res = md /\
    metrics res =
      {| blockiness := compute_blockiness (_pil_to_nd_gray img);
         noise_estimate := compute_noise (_pil_to_nd_gray img);
         hist_entropy := compute_entropy (_pil_to_nd_gray img) |} /\
    forall data, _load_image_from_bytes data = Ok img -> analyze data = Analysed res.
Proof.
  intros Hmax Hmd. split; [exact (resize_not_needed img Hmax)|].
  destruct (analyze_image_returns img img md (resize_not_needed img Hmax) Hmd)
    as (res & Hres & Hmeta & Hm & _).
  exists res. split; [exact Hres|]. split; [exact Hmeta|]. split; [exact Hm|].
  intros data Hload. unfold analyze. now rewrite Hload, Hres.
Qed.

(** X10: every reason is one of the four fixed sentences or the sentence
    naming one of the nineteen listed keywords, and there are never more
    than twenty-three of them. *)
Theorem X10_reasons_vocabulary (img : Image raster) (res : AnalysisResult) :
  analyze_image img = Ok res ->
  (forall r, In r (reasons res) ->
     In r fixed_reasons \/
     exists kw, In kw GENERATOR_KEYWORDS /\ r = generator_reason kw) /\
  (List.length (reasons res) <= 23)%nat.
Proof.
  intros Hres. destruct (analyze_image_resized img res Hres) as (small & md & Hsmall & Hmd).
  destruct (analyze_image_returns img small md Hsmall Hmd)
    as (res' & Hres' & _ & _ & Hreasons & _).
  rewrite Hres in Hres'. injection Hres' as <-.
  rewrite Hreasons. unfold reasons_in_order. split.
  - intros r. rewrite !in_app_iff, !when_in, in_map_iff.
    intros [(kw & <- & Hkw)|[[_ ->]|[[_ ->]|[[_ ->]|[_ ->]]]]].
    + right. exists kw. split; [|reflexivity]. now apply filter_In in Hkw.
    + left. unfold fixed_reasons. simpl. tauto.
    + left. unfold fixed_reasons. simpl. tauto.
    + left. unfold fixed_reasons. simpl. tauto.
    + left. unfold fixed_reasons. simpl. tauto.
  - rewrite !length_app, length_map.
    pose proof (filter_length_le (found (PDict (metadata res))) GENERATOR_KEYWORDS) as Hf.
    change (List.length GENERATOR_KEYWORDS) with 19%nat in Hf.
    assert (Hw : forall b s, (List.length (when b s) <= 1)%nat)
      by (intros [] s; simpl; lia).
    pose proof (Hw (exif_absent_or_empty (metadata res)) "No EXIF metadata present").
    pose proof (Hw (hist_entropy (metrics res) <? 0.35) "Low histogram entropy").
    pose proof (Hw (noise_estimate (metrics res) <? 0.20) "Low high-frequency noise").
    pose proof (Hw ((blockiness (metrics res) <? 0.05) && negb (is_png (format img)))
                  "Very low JPEG blockiness").
    lia.
Qed.

(** X11: once a listed keyword occurs in the record, the score is at least
    0.6 whatever the pixels say, so the label is never "Likely
    human-captured"; if moreover the record has no [exif] key, the score
    is at least 0.75 and the label is "Likely AI-generated". *)
Theorem X11_generator_tag_decides_label
    (img small : Image raster) (md : pydict) (kw : string) :
  _resize_for_metrics img = Ok small ->
  extract_metadata img = Ok md ->
  ((16 <= rows (_pil_to_nd_gray small))%nat ->
   (16 <= cols (_pil_to_nd_gray small))%nat ->
   is_nan (F32.to_float
             (np_mean (v_edges (_pil_to_nd_gray small)
                       ++ h_edges (_pil_to_nd_gray small)))) = false) ->
  is_nan (F32.to_float (np_std (laplace (_pil_to_nd_gray small)))) = false ->
  is_nan (shannon_entropy (_pil_to_nd_gray small)) = false ->
  In kw GENERATOR_KEYWORDS ->
  found (PDict md) kw = true ->
  exists res,
    analyze_image img = Ok res /\
    (0.6 <=? score res) = true /\
    label res <> "Likely human-captured" /\
    (dict_get "exif" (metadata res) = None ->
     (0.75 <=? score res) = true /\ label res = "Likely AI-generated").
Proof.
  intros Hsmall Hmd Hb Hn He Hkw Hfound.
  destruct (analyze_image_returns img small md Hsmall Hmd)
    as (res & Hres & Hmeta & Hm & _ & Hscore & Hlabel).
  apply blockiness_between_on_grid, between_nonneg in Hb.
  apply noise_between, between_nonneg in Hn.
  apply entropy_between, between_nonneg in He.
  exists res. split; [exact Hres|].
  assert (Hsig : signature_term (metadata res) = 0.60).
  { rewrite Hmeta. exact (signature_term_found _ kw Hkw Hfound). }
  assert (H60 : (0.6 <=? score res) = true).
  { rewrite Hscore. apply score_formula_lower_bound; [exact Hsig | | | ];
      rewrite Hm; assumption. }
  split; [exact H60|]. split.
  - rewrite Hlabel. unfold label_for.
    pose proof (ltb_leb _ _ (ltb_leb_trans 0.45 0.6 (score res) eq_refl H60)) as H45.
    rewrite H45. destruct (0.75 <=? score res); discriminate.
  - intros Hnone.
    assert (H75 : (0.75 <=? score res) = true).
    { rewrite Hscore. unfold score_formula, clamp01, exif_term, exif_absent.
      rewrite Hsig, Hnone.
      destruct positive_finite_consts as (P35 & P20 & P05 & P10 & P005).
      assert (P75 : positive_finite 0.75) by (do 2 eexists; vm_compute; reflexivity).
      apply clip_keeps_lower_bound; [reflexivity | reflexivity |].
      repeat (apply add_keeps_lower_bound;
              [exact P75 | | apply nonneg_ramp; [assumption.. | rewrite Hm; assumption]]).
      reflexivity. }
    split; [exact H75|]. rewrite Hlabel. now apply label_for_high.
Qed.

(** ** Blockiness *)

Lemma v_edges_map (gray : ndarray) :
  v_edges gray
  = map (fun c => mean_abs_diff (column gray c) (column gray (c - 1)))
        (py_range 8 (cols gray) 8).
Proof.
  unfold v_edges. cbv zeta.
  rewrite (guarded_appends (cols gray)
             (fun c => mean_abs_diff (column gray c) (column gray (c - 1)))).
  - reflexivity.
  - intros c Hc. now apply py_range_8_in in Hc.
Qed.

Lemma h_edges_map (gray : ndarray) :
  h_edges gray
  = map (fun r => mean_abs_diff (row gray r) (row gray (r - 1)))
        (py_range 8 (rows gray) 8).
Proof.
  unfold h_edges. cbv zeta.
  rewrite (guarded_appends (rows gray)
             (fun r => mean_abs_diff (row gray r) (row gray (r - 1)))).
  - reflexivity.
  - intros r Hr. now apply py_range_8_in in Hr.
Qed.

(** X12: the test inside each of the two loops never fails: there is one
    reading per column, and one per row, whose index is a positive
    multiple of 8, so (W-1)/8 and (H-1)/8 of them; hence a grid of at
    least 16 by 16 always has readings, the fallback for an empty list
    is never taken, and the blockiness is the clipped mean of the
    readings. *)
Theorem X12_blockiness_readings (gray : ndarray) :
  v_edges gray
  = map (fun c => mean_abs_diff (column gray c) (column gray (c - 1)))
        (py_range 8 (cols gray) 8) /\
  h_edges gray
  = map (fun r => mean_abs_diff (row gray r) (row gray (r - 1)))
        (py_range 8 (rows gray) 8) /\
  List.length (v_edges gray) = ((cols gray - 1) / 8)%nat /\
  List.length (h_edges gray) = ((rows gray - 1) / 8)%nat /\
  ((16 <= rows gray)%nat -> (16 <= cols gray)%nat ->
   v_edges gray <> [] /\ h_edges gray <> [] /\
   compute_blockiness gray
   = np_clip (F32.to_float (np_mean (v_edges gray ++ h_edges gray))) 0 1).
Proof.
  split; [apply v_edges_map|]. split; [apply h_edges_map|].
  assert (Hv : List.length (v_edges gray) = ((cols gray - 1) / 8)%nat)
    by (rewrite v_edges_map, length_map; apply py_range_8_length).
  assert (Hh : List.length (h_edges gray) = ((rows gray - 1) / 8)%nat)
    by (rewrite h_edges_map, length_map; apply py_range_8_length).
  split; [exact Hv|]. split; [exact Hh|]. intros HH HW.
  assert (Hpos : forall n, (16 <= n)%nat -> (1 <= (n - 1) / 8)%nat)
    by (intros n Hn; apply Nat.div_le_lower_bound; lia).
  assert (Hv' : v_edges gray <> []).
  { intros E. rewrite E in Hv. specialize (Hpos _ HW). cbn [List.length] in Hv. lia. }
  assert (Hh' : h_edges gray <> []).
  { intros E. rewrite E in Hh. specialize (Hpos _ HH). cbn [List.length] in Hh. lia. }
  split; [exact Hv'|]. split; [exact Hh'|].
  unfold compute_blockiness.
  rewrite (proj2 (Nat.ltb_ge _ _) HH), (proj2 (Nat.ltb_ge _ _) HW). cbn [orb]. cbv zeta.
  destruct (v_edges gray) as [|x xs]; [now elim Hv'|]. reflexivity.
Qed.

(** X13: the blockiness looks at nothing but the cells next to a block
    boundary: two grids of one shape that agree on them have the same
    blockiness. *)
Theorem X13_blockiness_reads_boundaries_only (g g' : ndarray) :
  rows g = rows g' -> cols g = cols g' ->
  (forall r c, (r < rows g)%nat -> (c < cols g)%nat ->
     on_block_boundary r c = true -> at_ g r c = at_ g' r c) ->
  compute_blockiness g = compute_blockiness g'.
Proof.
  intros Hr Hc Hat.
  assert (Hm7 : forall n, (8 <= n)%nat -> (n mod 8 = 0)%nat -> ((n - 1) mod 8 = 7)%nat).
  { intros n Hn Hm. pose proof (Nat.div_mod_eq n 8) as Hd. rewrite Hm in Hd.
    replace (n - 1)%nat with (7 + (n / 8 - 1) * 8)%nat by lia.
    now rewrite Nat.Div0.mod_add. }
  assert (Hb : forall n, (8 <= n)%nat -> (n mod 8 = 0)%nat ->
               ((7 <=? n)%nat && ((n mod 8 =? 0)%nat || (n mod 8 =? 7)%nat) = true) /\
               ((7 <=? n - 1)%nat
                && (((n - 1) mod 8 =? 0)%nat || ((n - 1) mod 8 =? 7)%nat) = true)).
  { intros n Hn Hm. rewrite (Hm7 n Hn Hm), Hm. cbn [Nat.eqb orb].
    rewrite !andb_true_r. split; apply Nat.leb_le; lia. }
  assert (Hv : v_edges g = v_edges g').
  { rewrite !v_edges_map, <- Hc. apply map_ext_in. intros c Hin.
    apply py_range_8_in in Hin as (H8 & Hlt & Hmod).
    destruct (Hb c H8 Hmod) as [B0 B7].
    unfold mean_abs_diff, column. rewrite <- Hr. f_equal. f_equal. f_equal.
    - apply map_ext_in. intros r Hrin. apply in_seq in Hrin.
      apply Hat; [lia | lia |]. unfold on_block_boundary. now rewrite B0.
    - apply map_ext_in. intros r Hrin. apply in_seq in Hrin.
      apply Hat; [lia | lia |]. unfold on_block_boundary. now rewrite B7. }
  assert (Hh : h_edges g = h_edges g').
  { rewrite !h_edges_map, <- Hr. apply map_ext_in. intros r Hin.
    apply py_range_8_in in Hin as (H8 & Hlt & Hmod).
    destruct (Hb r H8 Hmod) as [B0 B7].
    unfold mean_abs_diff, row. rewrite <- Hc. f_equal. f_equal. f_equal.
    - apply map_ext_in. intros c Hcin. apply in_seq in Hcin.
      apply Hat; [lia | lia |]. unfold on_block_boundary. rewrite B0. apply orb_true_r.
    - apply map_ext_in. intros c Hcin. apply in_seq in Hcin.
      apply Hat; [lia | lia |]. unfold on_block_boundary. rewrite B7. apply orb_true_r. }
  unfold compute_blockiness. now rewrite <- Hr, <- Hc, Hv, Hh.
Qed.

End Findings.

Section ViewFacts.
Context {U : Unicode} {raster : Type} {L : Libs raster} {W : Web}.

(** ** The views *)

Lemma dict_with_key_truthy (k : string) (v : pyobj) (d : pydict) :
  dict_get k d = Some v -> py_bool (PDict d) = true.
Proof. destruct d; [discriminate | reflexivity]. Qed.

Lemma answer_spec (prefix : string) (data : list Byte.byte) :
  answer prefix data
  = match _load_image_from_bytes data with
    | Raise e => Ok (ErrorDoc (prefix ++ e), 400%Z)
    | Ok img =>
        result <- analyze_image img ;;
        rendered <- jsonify result ;;
        Ok (ResultDoc rendered, 200%Z)
    end.
Proof.
  unfold answer, analyze. destruct (_load_image_from_bytes data) as [img|e]; [|reflexivity].
  destruct (analyze_image img); reflexivity.
Qed.

(** X14: the upload view answers 400 in exactly three cases: no [file]
    field, an empty file, bytes the loader rejects; otherwise it answers
    200 with the rendered result of the analysis; and whatever it lets
    escape was raised by the resize, by [len()] of the ICC profile once
    the resize has succeeded, or by the rendering. *)
Theorem X14_upload_answers (files : upload_request) :
  (forall doc code, analyze_upload files = Ok (doc, code) ->
     (code = 400%Z /\
      ((files_get "file" files = None /\
        doc = ErrorDoc "Missing 'file' in multipart form-data") \/
       (files_get "file" files = Some [] /\ doc = ErrorDoc "Empty file") \/
       (exists data e, files_get "file" files = Some data /\ data <> [] /\
                       _load_image_from_bytes data = Raise e /\
                       doc = ErrorDoc ("Invalid image: " ++ e)))) \/
     (code = 200%Z /\
      exists data r rendered,
        files_get "file" files = Some data /\ data <> [] /\
        analyze data = Analysed r /\ jsonify r = Ok rendered /\
        doc = ResultDoc rendered)) /\
  (forall e, analyze_upload files = Raise e ->
     exists data img,
       files_get "file" files = Some data /\ data <> [] /\
       _load_image_from_bytes data = Ok img /\
       (_resize_for_metrics img = Raise e \/
        ((exists small, _resize_for_metrics img = Ok small) /\
         extract_metadata img = Raise e) \/
        exists r, analyze_image img = Ok r /\ jsonify r = Raise e)).
Proof.
  unfold analyze_upload.
  destruct (files_get "file" files) as [[|b data]|].
  - split; [|discriminate]. intros doc code H. injection H as <- <-.
    left. split; [reflexivity|]. right. left. now split.
  - assert (Hne : b :: data <> []) by discriminate.
    destruct (_load_image_from_bytes (b :: data)) as [img|e] eqn:Hload.
    + split.
      * intros doc code H. right.
        destruct (analyze_image img) as [r|e] eqn:Hr; cbn [bind] in H; [|discriminate H].
        destruct (jsonify r) as [rendered|e] eqn:Hj; cbn [bind] in H; [|discriminate H].
        injection H as <- <-. split; [reflexivity|].
        exists (b :: data), r, rendered. split; [reflexivity|]. split; [exact Hne|].
        split; [|split; [exact Hj | reflexivity]].
        unfold analyze. now rewrite Hload, Hr.
      * intros e H. exists (b :: data), img.
        split; [reflexivity|]. split; [exact Hne|]. split; [exact Hload|].
        destruct (analyze_image img) as [r|e'] eqn:Hr; cbn [bind] in H.
        -- right. right. exists r. split; [reflexivity|].
           destruct (jsonify r); cbn [bind] in H; [discriminate H | now injection H as ->].
        -- injection H as <-. apply analyze_image_raises in Hr as [Hr|Hr];
             [now left | right; now left].
    + split; [|discriminate]. intros doc code H. injection H as <- <-.
      left. split; [reflexivity|]. right. right.
      exists (b :: data), e.
      split; [reflexivity|]. split; [exact Hne|]. split; [exact Hload | reflexivity].
  - split; [|discriminate]. intros doc code H. injection H as <- <-.
    left. split; [reflexivity|]. left. now split.
Qed.

(** X15: a body that is not JSON, or whose JSON value is not an object
    holding [url], never gets a result: the view answers 400 "Provide
    JSON with 'url'", except that a JSON string containing the letters
    url, a list holding the string url, and a number or boolean that is
    not zero or false pass the test and make the view raise. *)
Theorem X15_url_payload_must_be_object (body : list Byte.byte) :
  (forall e, get_json body = Raise e ->
     analyze_url body = Ok (ErrorDoc "Provide JSON with 'url'", 400%Z)) /\
  (forall d, get_json body = Ok (PDict d) -> dict_get "url" d = None ->
     analyze_url body = Ok (ErrorDoc "Provide JSON with 'url'", 400%Z)) /\
  (forall p, get_json body = Ok p -> (forall d, p <> PDict d) ->
     analyze_url body = Ok (ErrorDoc "Provide JSON with 'url'", 400%Z) \/
     exists e, analyze_url body = Raise e) /\
  (forall s, get_json body = Ok (PStr s) -> py_in "url" s = true ->
     exists e, analyze_url body = Raise e) /\
  (forall l, get_json body = Ok (PList l) -> In (PStr "url") l ->
     exists e, analyze_url body = Raise e) /\
  (forall n, get_json body = Ok (PInt n) -> n <> 0%Z ->
     exists e, analyze_url body = Raise e) /\
  (forall r n, get_json body = Ok (POther r true n) ->
     exists e, analyze_url body = Raise e).
Proof.
  unfold analyze_url. repeat split.
  - intros e ->. reflexivity.
  - intros d -> Hd. cbn [try_except]. destruct (py_bool (PDict d)); [|reflexivity].
    cbn [negb py_contains bind]. now rewrite Hd.
  - intros p -> Hp. cbn [try_except].
    destruct (py_bool p); cbn [negb]; [|now left].
    destruct p as [ |s|n|r b len|l|d]; cbn [py_contains py_getitem bind].
    + right. eexists. reflexivity.
    + destruct (py_in "url" s); cbn [negb]; [right; eexists; reflexivity | now left].
    + right. eexists. reflexivity.
    + right. eexists. reflexivity.
    + destruct (existsb _ l); cbn [negb]; [right; eexists; reflexivity | now left].
    + now elim (Hp d).
  - intros s -> Hs. cbn [try_except].
    assert (Hb : py_bool (PStr s) = true).
    { destruct s; [discriminate Hs | reflexivity]. }
    rewrite Hb. cbn [negb py_contains py_getitem bind]. rewrite Hs. cbn [negb].
    eexists. reflexivity.
  - intros l -> Hl. cbn [try_except].
    assert (Hb : py_bool (PList l) = true).
    { destruct l; [destruct Hl | reflexivity]. }
    rewrite Hb. cbn [negb py_contains py_getitem bind].
    replace (existsb _ l) with true; [cbn [negb]; eexists; reflexivity|].
    symmetry. apply existsb_exists. exists (PStr "url"). split; [exact Hl | reflexivity].
  - intros n -> Hn. cbn [try_except py_bool].
    destruct (n =? 0)%Z eqn:E; [apply Z.eqb_eq in E; contradiction|].
    cbn [negb py_contains bind]. eexists. reflexivity.
  - intros r n ->. cbn [try_except py_bool negb py_contains bind]. eexists. reflexivity.
Qed.

(** X16: the two views treat the same bytes alike: once the URL view has
    fetched bytes that are not empty, it answers what the upload view
    answers for a file with those bytes, up to the wording of the
    invalid-image message; and bytes that cannot be fetched are answered
    with 400. *)
Theorem X16_url_view_agrees_with_upload
    (body : list Byte.byte) (d : pydict) (url : pyobj) :
  get_json body = Ok (PDict d) ->
  dict_get "url" d = Some url ->
  (forall e, urlopen_read url = Raise e ->
     analyze_url body = Ok (ErrorDoc ("Failed to fetch URL: " ++ e), 400%Z)) /\
  (forall data, urlopen_read url = Ok data ->
     analyze_url body = answer "Invalid image from URL: " data /\
     (data <> [] -> analyze_upload [("file", data)] = answer "Invalid image: " data) /\
     (data <> [] -> forall img, _load_image_from_bytes data = Ok img ->
        analyze_url body = analyze_upload [("file", data)])).
Proof.
  intros Hjson Hurl.
  assert (Hstart : analyze_url body
                   = match urlopen_read url with
                     | Raise e => Ok (ErrorDoc ("Failed to fetch URL: " ++ e), 400%Z)
                     | Ok data => answer "Invalid image from URL: " data
                     end).
  { unfold analyze_url. rewrite Hjson. cbn [try_except].
    rewrite (dict_with_key_truthy _ _ _ Hurl). cbn [negb py_contains py_getitem bind].
    rewrite Hurl. cbn [negb bind].
    destruct (urlopen_read url) as [data|e]; [|reflexivity].
    now rewrite answer_spec. }
  split.
  - intros e He. now rewrite Hstart, He.
  - intros data Hdata.
    assert (Hup : data <> [] -> analyze_upload [("file", data)] = answer "Invalid image: " data).
    { intros Hne. unfold analyze_upload. cbn [files_get]. rewrite String.eqb_refl.
      destruct data as [|b data]; [now elim Hne|]. now rewrite answer_spec. }
    split; [now rewrite Hstart, Hdata|]. split; [exact Hup|].
    intros Hne img Himg. rewrite Hstart, Hdata, (Hup Hne), !answer_spec, Himg. reflexivity.
Qed.

End ViewFacts.

(** ** Upper bounds on rounded results *)

Local Open Scope Z_scope.

Lemma grid_value : grid = 2200.
Proof. reflexivity. Qed.

Lemma shr_fexp_no_shift (m e : Z) (l : location) :
  fexp prec emax (Zdigits2 m + e) <= e ->
  fst (shr_fexp prec emax m e l) = shr_record_of_loc m l.
Proof.
  intros H. unfold shr_fexp, shr.
  destruct (fexp prec emax (Zdigits2 m + e) - e) as [|p|p] eqn:E; try reflexivity. lia.
Qed.

Lemma loc_of_record_of_loc (m : Z) (l : location) :
  loc_of_shr_record (shr_record_of_loc m l) = l.
Proof. destruct l as [|[ | | ]]; reflexivity. Qed.

Lemma Zdigits2_bounds (m : Z) :
  0 < m -> 2 ^ (Zdigits2 m - 1) <= m < 2 ^ Zdigits2 m.
Proof.
  destruct m as [|p|p]; try lia. intros _. apply digits2_pos_bounds.
Qed.

Lemma pow2_pos (n : Z) : 0 <= n -> 0 < 2 ^ n.
Proof. intros H. apply Z.pow_pos_nonneg; lia. Qed.

Lemma pow2_split (a b : Z) : 0 <= a -> 0 <= b -> 2 ^ (a + b) = 2 ^ a * 2 ^ b.
Proof. intros. apply Z.pow_add_r; assumption. Qed.

Lemma div_pow2_le (m k : Z) : 0 <= m -> 0 <= k -> (m / 2 ^ k) * 2 ^ k <= m.
Proof.
  intros Hm Hk. pose proof (pow2_pos k Hk).
  rewrite Z.mul_comm. apply Z.mul_div_le. assumption.
Qed.

(** Rounding [m * 2^e]: the result is a number, at most one part in
    2^52, or one least unit, above the value rounded. *)
Lemma round_aux_units (m e : Z) (l : location) (V : Z) :
  0 <= m -> - grid <= e ->
  (l <> loc_Exact -> e <= fexp prec emax (Zdigits2 m + e)) ->
  m * 2 ^ (e + grid) <= V -> V <= 2 ^ (grid + 900) ->
  exists u, units (binary_round_aux prec emax false m e l) = Some u /\
            u * 2 ^ 52 <= V * (2 ^ 52 + 1) + 2 ^ (grid - 1074 + 52).
Proof.
  intros Hm He Hl HV Hbig. pose proof grid_value as HK.
  unfold binary_round_aux.
  destruct (shr_fexp_value m e l Hm) as [He1 Hm1].
  pose proof (shr_fexp_no_shift m e l) as Hns.
  destruct (shr_fexp prec emax m e l) as [mrs1 e1]. cbn [fst snd] in He1, Hm1, Hns.
  set (f := fexp prec emax (Zdigits2 m + e)) in *.
  set (m1 := shr_m mrs1) in *.
  pose proof (round_nearest_even_bounds m1 (loc_of_shr_record mrs1)) as Hm2.
  assert (Hf : f = Z.max (Zdigits2 m + e - 53) (-1074)).
  { unfold f, fexp, SpecFloat.emin, prec, emax. lia. }
  assert (Hk : 0 <= e1 - e) by lia.
  assert (Hm1le : m1 * 2 ^ (e1 - e) <= m) by (rewrite Hm1; apply div_pow2_le; lia).
  assert (Hm1pos : 0 <= m1) by (rewrite Hm1; apply Z.div_pos; [lia | apply pow2_pos; lia]).
  assert (Hp52 : 2 ^ 52 = 4503599627370496) by reflexivity.
  assert (HeK : 0 < 2 ^ (e + grid)) by (apply pow2_pos; lia).
  assert (He1K : 2 ^ (e1 + grid) = 2 ^ (e1 - e) * 2 ^ (e + grid)).
  { rewrite <- pow2_split by lia. f_equal. lia. }
  assert (Hulp : 0 < 2 ^ (grid - 1074 + 52)) by (apply pow2_pos; lia).
  assert (HV0 : 0 <= V) by nia.
  (* the bound after the first rounding *)
  assert (Hround : round_nearest_even m1 (loc_of_shr_record mrs1) * 2 ^ (e1 + grid) * 2 ^ 52
                   <= V * (2 ^ 52 + 1) + 2 ^ (grid - 1074 + 52)).
  { set (m2 := round_nearest_even m1 (loc_of_shr_record mrs1)) in *.
    assert (Hbase : m1 * 2 ^ (e1 + grid) <= V).
    { rewrite He1K. apply Z.le_trans with (m * 2 ^ (e + grid)); [|exact HV].
      rewrite Z.mul_assoc. apply Z.mul_le_mono_nonneg_r; lia. }
    assert (He1Kpos : 0 < 2 ^ (e1 + grid)) by (apply pow2_pos; lia).
    destruct (Z_lt_le_dec f e) as [Hlt|Hge].
    - (* no shift, and the input was exact *)
      assert (l = loc_Exact).
      { destruct l as [|c]; [reflexivity|]. exfalso.
        assert (e <= f) by (apply Hl; discriminate). lia. }
      subst l. assert (Hrec : mrs1 = shr_record_of_loc m loc_Exact) by (apply Hns; lia).
      assert (m2 = m1).
      { unfold m2, m1. rewrite Hrec. reflexivity. }
      nia.
    - assert (e1 = f) by lia.
      destruct (Z.eq_dec f (-1074)) as [Hsub|Hnorm].
      + (* least exponent: one unit at most *)
        assert (2 ^ (e1 + grid) * 2 ^ 52 = 2 ^ (grid - 1074 + 52)).
        { rewrite <- pow2_split by lia. f_equal. lia. }
        nia.
      + (* 53 digits are kept *)
        assert (Hd : f = Zdigits2 m + e - 53) by lia.
        assert (Hmpos : 0 < m).
        { destruct m as [|p|p]; try lia. cbn [Zdigits2] in Hd. lia. }
        pose proof (Zdigits2_bounds m Hmpos) as Bm.
        assert (H52 : 2 ^ 52 <= m1).
        { rewrite Hm1. apply div_pow2_lower; try lia.
          replace (e1 - e + 52) with (Zdigits2 m - 1) by lia. lia. }
        nia. }
  set (m2 := round_nearest_even m1 (loc_of_shr_record mrs1)) in *.
  assert (Hm2pos : 0 <= m2) by lia.
  destruct (shr_fexp_value m2 e1 loc_Exact Hm2pos) as [He3 Hm3].
  destruct (shr_fexp prec emax m2 e1 loc_Exact) as [mrs3 e3]. cbn [fst snd] in He3, Hm3.
  assert (Hk3 : 0 <= e3 - e1) by lia.
  assert (Hm3le : shr_m mrs3 * 2 ^ (e3 - e1) <= m2) by (rewrite Hm3; apply div_pow2_le; lia).
  assert (He3K : 2 ^ (e3 + grid) = 2 ^ (e3 - e1) * 2 ^ (e1 + grid)).
  { rewrite <- pow2_split by lia. f_equal. lia. }
  assert (He1Kpos : 0 < 2 ^ (e1 + grid)) by (apply pow2_pos; lia).
  assert (Hm3pos : 0 <= shr_m mrs3)
    by (rewrite Hm3; apply Z.div_pos; [lia | apply pow2_pos; lia]).
  destruct (shr_m mrs3) as [|q|q] eqn:Eq; [| |lia].
  - exists 0. split; [reflexivity | lia].
  - assert (Hfin : Zpos q * 2 ^ (e3 + grid) * 2 ^ 52
                   <= V * (2 ^ 52 + 1) + 2 ^ (grid - 1074 + 52)).
    { apply Z.le_trans with (m2 * 2 ^ (e1 + grid) * 2 ^ 52); [|exact Hround].
      rewrite He3K. nia. }
    assert (He3max : e3 <= emax - prec).
    { unfold emax, prec.
      assert (Hlt : 2 ^ (e3 + grid) < 2 ^ (grid + 902)).
      { assert (2 ^ (grid + 902) = 2 ^ (grid + 900) * 4).
        { replace (grid + 902) with (grid + 900 + 2) by lia.
          rewrite pow2_split by lia. reflexivity. }
        assert (2 ^ (grid - 1074 + 52) <= 2 ^ (grid + 900))
          by (apply Z.pow_le_mono_r; lia).
        assert (0 < 2 ^ (e3 + grid)) by (apply pow2_pos; lia).
        nia. }
      apply Z.pow_lt_mono_r_iff in Hlt; lia. }
    apply Z.leb_le in He3max. rewrite He3max.
    eexists. split; [reflexivity | exact Hfin].
Qed.

Lemma bounded_range (m : positive) (e : Z) :
  bounded prec emax m e = true ->
  -1074 <= e <= 971 /\ Zpos (digits2_pos m) <= 53 /\
  (-1074 < e -> Zpos (digits2_pos m) = 53).
Proof.
  intros H. pose proof (bounded_digits m e H) as (H1 & H2 & H3).
  unfold bounded in H. apply andb_true_iff in H as [_ H]. apply Z.leb_le in H.
  unfold emax, prec in H. lia.
Qed.

Lemma some_inj {A : Type} (a b : A) : Some a = Some b -> a = b.
Proof. congruence. Qed.

(** On valid numbers the order of binary64 is the order of the units. *)
Lemma units_ltb (x y : spec_float) (u v : Z) :
  valid_binary x = true -> valid_binary y = true ->
  units x = Some u -> units y = Some v -> u < v -> SFltb x y = true.
Proof.
  pose proof grid_value as HK.
  destruct x as [sx|sx| |sx mx ex], y as [sy|sy| |sy my ey]; unfold units, valid_binary;
    intros Vx Vy Hu Hv Hlt; try discriminate.
  - apply some_inj in Hu; subst u. apply some_inj in Hv; subst v. now apply Z.lt_irrefl in Hlt.
  - destruct sy; [discriminate|]. reflexivity.
  - destruct sx; [discriminate|]. apply some_inj in Hu; subst u. apply some_inj in Hv; subst v.
    apply bounded_range in Vx as ((Hx1 & _) & _).
    assert (0 < 2 ^ (ex + grid)) by (apply pow2_pos; lia).
    assert (0 < Zpos mx * 2 ^ (ex + grid)) by (apply Z.mul_pos_pos; lia).
    exfalso. lia.
  - destruct sx; [discriminate|]. destruct sy; [discriminate|].
    apply some_inj in Hu; subst u. apply some_inj in Hv; subst v.
    apply bounded_range in Vx as ((Hx1 & Hx2) & Hdx & Hnx).
    apply bounded_range in Vy as ((Hy1 & Hy2) & Hdy & Hny).
    pose proof (digits2_pos_bounds mx) as Bx. pose proof (digits2_pos_bounds my) as By.
    unfold SFltb, SFcompare. fold (Pos.compare mx my).
    destruct (Z.compare_spec ex ey) as [Heq|Hl|Hg].
    + subst ey. assert (0 < 2 ^ (ex + grid)) by (apply pow2_pos; lia).
      destruct (Pos.compare_spec mx my) as [E|E|E];
        [exfalso; subst; lia | reflexivity | exfalso; nia].
    + reflexivity.
    + exfalso. rewrite (Hnx ltac:(lia)) in Bx.
      assert (Hs : 2 ^ (ex + grid) = 2 ^ (ex - ey) * 2 ^ (ey + grid)).
      { rewrite <- pow2_split by lia. f_equal. lia. }
      assert (0 < 2 ^ (ey + grid)) by (apply pow2_pos; lia).
      assert (2 ^ 1 <= 2 ^ (ex - ey)) by (apply Z.pow_le_mono_r; lia).
      assert (2 ^ Zpos (digits2_pos my) <= 2 ^ 53) by (apply Z.pow_le_mono_r; lia).
      change (2 ^ (53 - 1)) with 4503599627370496 in Bx.
      change (2 ^ 53) with 9007199254740992 in *. change (2 ^ 1) with 2 in *.
      rewrite Hs in Hlt. nia.
Qed.

Lemma units_not_ltb (x y : spec_float) (u v : Z) :
  valid_binary x = true -> valid_binary y = true ->
  units x = Some u -> units y = Some v -> SFltb x y = false -> v <= u.
Proof.
  intros Vx Vy Hu Hv Hlt. destruct (Z_lt_le_dec u v) as [H|H]; [|exact H].
  rewrite (units_ltb x y u v Vx Vy Hu Hv H) in Hlt. discriminate.
Qed.

Lemma shl_align_units (m : positive) (e e' : Z) :
  - grid <= e -> - grid <= e' ->
  - grid <= snd (shl_align m e e') <= e /\
  Zpos (fst (shl_align m e e')) * 2 ^ (snd (shl_align m e e') + grid)
  = Zpos m * 2 ^ (e + grid).
Proof.
  intros He He'. unfold shl_align.
  destruct (e' - e) as [|d|d] eqn:Hd; cbn [fst snd]; try (split; [lia | reflexivity]).
  split; [lia|]. rewrite iter_xO_value.
  replace (e + grid) with (Zpos d + (e' + grid)) by lia.
  rewrite (pow2_split (Zpos d) (e' + grid)) by lia. ring.
Qed.

Lemma binary_round_units (M : positive) (e V : Z) :
  -1074 <= e -> Zpos M * 2 ^ (e + grid) <= V -> V <= 2 ^ (grid + 900) ->
  exists u, units (binary_round prec emax false M e) = Some u /\
            u * 2 ^ 52 <= V * (2 ^ 52 + 1) + 2 ^ (grid - 1074 + 52).
Proof.
  intros He HV Hbig. pose proof grid_value as HK. unfold binary_round.
  assert (Hf : -1074 <= fexp prec emax (Zpos (digits2_pos M) + e)).
  { unfold fexp, SpecFloat.emin, prec, emax. lia. }
  destruct (shl_align_units M e (fexp prec emax (Zpos (digits2_pos M) + e))
              ltac:(lia) ltac:(lia)) as [Hr Hval].
  destruct (shl_align M e _) as [mz ez]. cbn [fst snd] in Hr, Hval.
  apply round_aux_units; try lia. intros H. now elim H.
Qed.

Lemma SFadd_units (x t : spec_float) (a b : Z) :
  valid_binary x = true -> valid_binary t = true ->
  units x = Some a -> units t = Some b -> a + b <= 2 ^ (grid + 900) ->
  exists u, units (SFadd prec emax x t) = Some u /\
            u * 2 ^ 52 <= (a + b) * (2 ^ 52 + 1) + 2 ^ (grid - 1074 + 52).
Proof.
  pose proof grid_value as HK.
  assert (Hulp : 0 < 2 ^ (grid - 1074 + 52)) by (apply pow2_pos; lia).
  destruct x as [sx|sx| |sx mx ex], t as [st|st| |st mt et]; unfold units, valid_binary;
    intros Vx Vt Ha Hb Hbig; try discriminate.
  - apply some_inj in Ha; subst a. apply some_inj in Hb; subst b. exists 0.
    split; [destruct sx, st; reflexivity | lia].
  - destruct st; [discriminate|]. apply some_inj in Ha; subst a. apply some_inj in Hb; subst b.
    eexists. split; [reflexivity|].
    apply bounded_range in Vt as ((? & _) & _).
    assert (0 < 2 ^ (et + grid)) by (apply pow2_pos; lia). nia.
  - destruct sx; [discriminate|]. apply some_inj in Ha; subst a. apply some_inj in Hb; subst b.
    eexists. split; [reflexivity|].
    apply bounded_range in Vx as ((? & _) & _).
    assert (0 < 2 ^ (ex + grid)) by (apply pow2_pos; lia). nia.
  - destruct sx; [discriminate|]. destruct st; [discriminate|].
    apply some_inj in Ha; subst a. apply some_inj in Hb; subst b.
    apply bounded_range in Vx as ((Hx1 & _) & _).
    apply bounded_range in Vt as ((Ht1 & _) & _).
    unfold SFadd, cond_Zopp. set (ez := Z.min ex et).
    assert (Hzx : ez <= ex) by (unfold ez; lia).
    assert (Hzt : ez <= et) by (unfold ez; lia).
    pose proof (shl_align_value mx ex ez Hzx) as Hx'.
    pose proof (shl_align_value mt et ez Hzt) as Ht'.
    set (mx' := fst (shl_align mx ex ez)) in *.
    set (mt' := fst (shl_align mt et ez)) in *.
    change (Zpos mx' + Zpos mt') with (Zpos (mx' + mt')).
    cbn [binary_normalize].
    apply binary_round_units; [unfold ez; lia | | exact Hbig].
    rewrite Pos2Z.inj_add, Hx', Ht'.
    replace (ex + grid) with ((ex - ez) + (ez + grid)) by lia.
    replace (et + grid) with ((et - ez) + (ez + grid)) by lia.
    rewrite (pow2_split (ex - ez) (ez + grid)) by (unfold ez; lia).
    rewrite (pow2_split (et - ez) (ez + grid)) by (unfold ez; lia).
    apply Z.eq_le_incl. ring.
Qed.

Lemma SFsub_units (mc : positive) (ec : Z) (y : spec_float) (b : Z) :
  let c := S754_finite false mc ec in
  let uc := Zpos mc * 2 ^ (ec + grid) in
  valid_binary c = true -> valid_binary y = true ->
  units y = Some b -> b <= uc -> uc <= 2 ^ (grid + 900) ->
  exists u, units (SFsub prec emax c y) = Some u /\
            u * 2 ^ 52 <= uc * (2 ^ 52 + 1) + 2 ^ (grid - 1074 + 52).
Proof.
  pose proof grid_value as HK.
  assert (Hulp : 0 < 2 ^ (grid - 1074 + 52)) by (apply pow2_pos; lia).
  intros c uc Vc Vy Hb Hle Hbig. subst c. unfold valid_binary in Vc.
  apply bounded_range in Vc as ((Hc1 & _) & _).
  assert (Hucpos : 0 < uc).
  { unfold uc. assert (0 < 2 ^ (ec + grid)) by (apply pow2_pos; lia). nia. }
  destruct y as [sy|sy| |sy my ey]; unfold units, valid_binary in *; try discriminate.
  - eexists. split; [reflexivity|]. fold uc. nia.
  - destruct sy; [discriminate|]. apply some_inj in Hb; subst b.
    apply bounded_range in Vy as ((Hy1 & _) & _).
    unfold SFsub, cond_Zopp. set (ez := Z.min ec ey).
    assert (Hzc : ez <= ec) by (unfold ez; lia).
    assert (Hzy : ez <= ey) by (unfold ez; lia).
    pose proof (shl_align_value mc ec ez Hzc) as Hc'.
    pose proof (shl_align_value my ey ez Hzy) as Hy'.
    set (mc' := fst (shl_align mc ec ez)) in *.
    set (my' := fst (shl_align my ey ez)) in *.
    assert (Hez : 0 < 2 ^ (ez + grid)) by (apply pow2_pos; unfold ez; lia).
    assert (Huc : uc = Zpos mc' * 2 ^ (ez + grid)).
    { unfold uc. rewrite Hc'.
      replace (ec + grid) with ((ec - ez) + (ez + grid)) by lia.
      rewrite (pow2_split (ec - ez) (ez + grid)) by (unfold ez; lia). ring. }
    assert (Hub : Zpos my * 2 ^ (ey + grid) = Zpos my' * 2 ^ (ez + grid)).
    { rewrite Hy'.
      replace (ey + grid) with ((ey - ez) + (ez + grid)) by lia.
      rewrite (pow2_split (ey - ez) (ez + grid)) by (unfold ez; lia). ring. }
    destruct (Zpos mc' - Zpos my') as [|M|M] eqn:EM; cbn [binary_normalize].
    + exists 0. split; [reflexivity | lia].
    + apply binary_round_units; [unfold ez; lia | | exact Hbig].
      rewrite <- EM, Huc. nia.
    + exfalso. nia.
Qed.

Lemma SFmul_units (x : spec_float) (mk : positive) (ek : Z) (a V : Z) :
  valid_binary x = true -> bounded prec emax mk ek = true ->
  units x = Some a ->
  a * (Zpos mk * 2 ^ (ek + grid)) <= V * 2 ^ grid -> V <= 2 ^ (grid + 900) ->
  exists u, units (SFmul prec emax x (S754_finite false mk ek)) = Some u /\
            u * 2 ^ 52 <= V * (2 ^ 52 + 1) + 2 ^ (grid - 1074 + 52).
Proof.
  pose proof grid_value as HK.
  assert (Hulp : 0 < 2 ^ (grid - 1074 + 52)) by (apply pow2_pos; lia).
  assert (Hg : 0 < 2 ^ grid) by (apply pow2_pos; lia).
  intros Vx Vk Ha HV Hbig.
  apply bounded_range in Vk as ((Hk1 & _) & _).
  destruct x as [sx|sx| |sx mx ex]; unfold units, valid_binary in *; try discriminate.
  - apply some_inj in Ha; subst a. exists 0. split; [reflexivity | nia].
  - destruct sx; [discriminate|]. apply some_inj in Ha; subst a.
    apply bounded_range in Vx as ((Hx1 & _) & _).
    cbn [SFmul xorb].
    apply round_aux_units; try lia.
    + intros H. now elim H.
    + assert (Hs : 2 ^ (ex + ek + grid) * 2 ^ grid = 2 ^ (ex + grid) * 2 ^ (ek + grid)).
      { rewrite <- !pow2_split by lia. f_equal. lia. }
      rewrite Pos2Z.inj_mul.
      assert (0 < 2 ^ (ex + ek + grid)) by (apply pow2_pos; lia).
      assert (0 < 2 ^ (ex + grid)) by (apply pow2_pos; lia).
      assert (0 < 2 ^ (ek + grid)) by (apply pow2_pos; lia).
      apply Z.mul_le_mono_pos_r with (2 ^ grid); [exact Hg|].
      apply Z.le_trans with (Zpos mx * 2 ^ (ex + grid) * (Zpos mk * 2 ^ (ek + grid)));
        [|exact HV].
      replace (Zpos mx * Zpos mk * 2 ^ (ex + ek + grid) * 2 ^ grid)
        with (Zpos mx * Zpos mk * (2 ^ (ex + ek + grid) * 2 ^ grid)) by ring.
      rewrite Hs. apply Z.eq_le_incl. ring.
Qed.

Lemma SFdiv_units (x : spec_float) (mc : positive) (ec : Z) (a V : Z) :
  valid_binary x = true -> bounded prec emax mc ec = true ->
  units x = Some a ->
  a * 2 ^ grid <= V * (Zpos mc * 2 ^ (ec + grid)) -> V <= 2 ^ (grid + 900) ->
  exists u, units (SFdiv prec emax x (S754_finite false mc ec)) = Some u /\
            u * 2 ^ 52 <= V * (2 ^ 52 + 1) + 2 ^ (grid - 1074 + 52).
Proof.
  pose proof grid_value as HK.
  assert (Hulp : 0 < 2 ^ (grid - 1074 + 52)) by (apply pow2_pos; lia).
  assert (Hg : 0 < 2 ^ grid) by (apply pow2_pos; lia).
  intros Vx Vc Ha HV Hbig.
  apply bounded_range in Vc as ((Hc1 & Hc2) & Hdc & _).
  assert (Hcpos : 0 < 2 ^ (ec + grid)) by (apply pow2_pos; lia).
  assert (Hucpos : 0 < Zpos mc * 2 ^ (ec + grid)) by (apply Z.mul_pos_pos; lia).
  destruct x as [sx|sx| |sx mx ex]; unfold units, valid_binary in *; try discriminate.
  - apply some_inj in Ha; subst a. exists 0. split; [reflexivity | nia].
  - destruct sx; [discriminate|]. apply some_inj in Ha; subst a.
    apply bounded_range in Vx as ((Hx1 & Hx2) & Hdx & _).
    assert (Hxpos : 0 < 2 ^ (ex + grid)) by (apply pow2_pos; lia).
    cbn [SFdiv xorb]. unfold SFdiv_core_binary. cbn [Zdigits2].
    set (d1 := Zpos (digits2_pos mx)) in *. set (d2 := Zpos (digits2_pos mc)) in *.
    set (D := d1 + ex - (d2 + ec)).
    set (e' := Z.min (fexp prec emax D) (ex - ec)).
    assert (HfD : fexp prec emax D = Z.max (D - 53) (-1074)).
    { unfold fexp, SpecFloat.emin, prec, emax. lia. }
    assert (Hd1 : 1 <= d1) by (unfold d1; lia).
    assert (Hd2 : 1 <= d2) by (unfold d2; lia).
    assert (He'lo : - grid <= e') by (unfold e'; lia).
    set (s := ex - ec - e').
    assert (Hs : 0 <= s) by (unfold s, e'; lia).
    set (m' := match s with 0 => Zpos mx | Zpos _ => Z.shiftl (Zpos mx) s | Zneg _ => 0 end).
    assert (Hm' : m' = Zpos mx * 2 ^ s).
    { unfold m'. destruct s as [|p|p] eqn:Es; [simpl; lia | | lia].
      apply Z.shiftl_mul_pow2. lia. }
    pose proof (Z_div_mod m' (Zpos mc) ltac:(lia)) as Hdm.
    unfold Z.div_eucl in Hdm |- *. fold (Z.div_eucl m' (Z.pos mc)) in *.
    destruct (Z.div_eucl m' (Z.pos mc)) as [q r]. destruct Hdm as [Hdm Hr].
    assert (Hspos : 0 < 2 ^ s) by (apply pow2_pos; lia).
    assert (Hq : 0 <= q) by nia.
    apply round_aux_units; try assumption.
    + (* enough digits for an inexact quotient *)
      intros _. destruct (Z_le_gt_dec e' (-1074)) as [Hlow|Hhigh].
      * unfold fexp, SpecFloat.emin, prec, emax. lia.
      * assert (He' : e' = D - 53) by (unfold e' in *; unfold D in *; lia).
        assert (Hsv : s = 53 - d1 + d2) by (unfold s, D in *; lia).
        pose proof (digits2_pos_bounds mx) as Bx. fold d1 in Bx.
        pose proof (digits2_pos_bounds mc) as Bc. fold d2 in Bc.
        assert (Hlow : 2 ^ 52 * Zpos mc <= m').
        { rewrite Hm'.
          assert (H1 : 2 ^ (d1 - 1) * 2 ^ s = 2 ^ 52 * 2 ^ d2).
          { rewrite <- !pow2_split by lia. f_equal. lia. }
          assert (0 < 2 ^ 52) by reflexivity.
          apply Z.le_trans with (2 ^ 52 * 2 ^ d2); [nia|].
          rewrite <- H1. nia. }
        assert (H52 : 2 ^ 52 <= q).
        { assert (Hp : 2 ^ 52 = 4503599627370496) by reflexivity.
          rewrite Hp in *. nia. }
        assert (Hqpos : 0 < q) by (assert (0 < 2 ^ 52) by reflexivity; lia).
        pose proof (Zdigits2_bounds q Hqpos) as Bq.
        assert (Hdq : 52 < Zdigits2 q).
        { apply (Z.pow_lt_mono_r_iff 2); [lia | | lia].
          destruct q; cbn [Zdigits2]; lia. }
        unfold fexp, SpecFloat.emin, prec, emax. lia.
    + (* the quotient is below the bound *)
      apply Z.mul_le_mono_pos_r with (Zpos mc * 2 ^ (ec + grid)); [exact Hucpos|].
      apply Z.le_trans with (Zpos mx * 2 ^ (ex + grid) * 2 ^ grid); [|exact HV].
      assert (Hpow : 2 ^ s * (2 ^ (e' + grid) * 2 ^ (ec + grid))
                     = 2 ^ (ex + grid) * 2 ^ grid).
      { rewrite <- !pow2_split by lia. f_equal. unfold s. lia. }
      assert (0 < 2 ^ (e' + grid)) by (apply pow2_pos; lia).
      apply Z.le_trans with (m' * (2 ^ (e' + grid) * 2 ^ (ec + grid))).
      * replace (q * 2 ^ (e' + grid) * (Zpos mc * 2 ^ (ec + grid)))
          with ((Zpos mc * q) * (2 ^ (e' + grid) * 2 ^ (ec + grid))) by ring.
        apply Z.mul_le_mono_nonneg_r; [nia | lia].
      * rewrite Hm'. apply Z.eq_le_incl.
        replace (Zpos mx * 2 ^ s * (2 ^ (e' + grid) * 2 ^ (ec + grid)))
          with (Zpos mx * (2 ^ s * (2 ^ (e' + grid) * 2 ^ (ec + grid)))) by ring.
        rewrite Hpow. ring.
Qed.

Lemma up_spec (u V : Z) :
  u * 2 ^ 52 <= V * (2 ^ 52 + 1) + 2 ^ (grid - 1074 + 52) -> u <= up V.
Proof.
  intros H. unfold up. rewrite Z.shiftr_div_pow2 by lia.
  apply Z.div_le_lower_bound; [reflexivity|]. lia.
Qed.

Lemma up_mono (V W : Z) : V <= W -> up V <= up W.
Proof.
  intros H. unfold up. rewrite !Z.shiftr_div_pow2 by lia.
  apply Z.div_le_mono; [reflexivity|]. nia.
Qed.

Lemma units_nonneg (x : spec_float) (u : Z) :
  valid_binary x = true -> units x = Some u -> 0 <= u.
Proof.
  pose proof grid_value as HK.
  destruct x as [s|s| |s m e]; unfold units, valid_binary; intros V H; try discriminate.
  - apply some_inj in H. lia.
  - destruct s; [discriminate|]. apply some_inj in H. subst u.
    apply bounded_range in V as ((? & _) & _).
    assert (0 < 2 ^ (e + grid)) by (apply pow2_pos; lia). nia.
Qed.

Lemma between_units (x : float) :
  between 0 x 1 -> exists u, units (Prim2SF x) = Some u.
Proof.
  unfold between. rewrite !leb_spec.
  change (Prim2SF 0) with (S754_zero false).
  change (Prim2SF 1) with (S754_finite false 4503599627370496 (-52)).
  destruct (Prim2SF x) as [s|s| |s m e]; intros [H0 H1].
  - now exists 0.
  - destruct s; discriminate.
  - discriminate.
  - destruct s; [discriminate H0|]. eexists. reflexivity.
Qed.

Lemma float_units_finite (c : float) (m : positive) (e : Z) :
  Prim2SF c = S754_finite false m e -> float_units c = Zpos m * 2 ^ (e + grid).
Proof. intros H. unfold float_units. rewrite H. reflexivity. Qed.

Lemma at_most_add (x t : float) (A B : Z) :
  at_most x A -> at_most t B -> (A + B <=? 2 ^ (grid + 900)) = true ->
  at_most (x + t) (up (A + B)).
Proof.
  intros (a & Ha & HA) (b & Hb & HB) Hbig. apply Z.leb_le in Hbig.
  destruct (SFadd_units (Prim2SF x) (Prim2SF t) a b
              (Prim2SF_valid x) (Prim2SF_valid t) Ha Hb ltac:(lia)) as (u & Hu & Hle).
  exists u. rewrite add_spec. split; [exact Hu|].
  apply Z.le_trans with (up (a + b)); [now apply up_spec | apply up_mono; lia].
Qed.

Lemma at_most_ramp (c k x : float) :
  positive_finite c -> positive_finite k ->
  (exists u, units (Prim2SF x) = Some u) ->
  ramp_in_range c k = true ->
  at_most (ramp c k x) (ramp_bound k).
Proof.
  intros (mc & ec & Hc) (mk & ek & Hk) (ux & Hux) Hrange.
  pose proof grid_value as HK.
  assert (Hg : 0 < 2 ^ grid) by (apply pow2_pos; lia).
  unfold ramp_in_range in Hrange. apply andb_true_iff in Hrange as [Hrange R3].
  apply andb_true_iff in Hrange as [Hrange R2].
  apply andb_true_iff in Hrange as [R1 RQ].
  apply Z.leb_le in R1. apply Z.leb_le in R2. apply Z.leb_le in R3. apply Z.leb_le in RQ.
  unfold ramp_bound. unfold product_bound in *.
  rewrite (float_units_finite c mc ec Hc) in *.
  rewrite (float_units_finite k mk ek Hk) in *.
  set (uc := Zpos mc * 2 ^ (ec + grid)) in *.
  set (uk := Zpos mk * 2 ^ (ek + grid)) in *.
  set (Vq := quotient_bound) in *.
  pose proof (Prim2SF_valid c) as Vc. rewrite Hc in Vc.
  pose proof (Prim2SF_valid k) as Vk. rewrite Hk in Vk.
  pose proof Vc as Bc. unfold valid_binary in Bc. apply bounded_range in Bc as ((Hc1 & _) & _).
  pose proof Vk as Bk. unfold valid_binary in Bk. apply bounded_range in Bk as ((Hk1 & _) & _).
  assert (Hucpos : 0 < uc).
  { unfold uc. apply Z.mul_pos_pos; [lia | apply pow2_pos; lia]. }
  assert (Hukpos : 0 < uk).
  { unfold uk. apply Z.mul_pos_pos; [lia | apply pow2_pos; lia]. }
  (* the smaller of the reading and the threshold *)
  assert (Hy : exists b, units (Prim2SF (py_min x c)) = Some b /\ b <= uc).
  { unfold py_min. destruct (c <? x)%float eqn:E.
    - exists uc. rewrite Hc. split; [reflexivity | lia].
    - exists ux. split; [exact Hux|]. rewrite ltb_spec, Hc in E.
      apply (units_not_ltb _ _ uc ux Vc (Prim2SF_valid x) eq_refl Hux E). }
  destruct Hy as (b & Hb & Hble).
  (* the difference *)
  destruct (SFsub_units mc ec (Prim2SF (py_min x c)) b Vc (Prim2SF_valid _) Hb Hble R1)
    as (ud & Hud & Hudle).
  fold uc in Hudle. apply up_spec in Hudle.
  assert (Vd : valid_binary (Prim2SF (c - py_min x c)) = true) by apply Prim2SF_valid.
  assert (Hud' : units (Prim2SF (c - py_min x c)) = Some ud).
  { rewrite sub_spec, Hc. exact Hud. }
  pose proof (units_nonneg _ _ Vd Hud') as Hud0.
  (* the quotient *)
  assert (HVq : ud * 2 ^ grid <= Vq * uc).
  { apply Z.le_trans with (up uc * 2 ^ grid); [|exact RQ].
    apply Z.mul_le_mono_nonneg_r; lia. }
  destruct (SFdiv_units (Prim2SF (c - py_min x c)) mc ec ud Vq Vd Vc Hud' HVq R2)
    as (uq & Huq & Huqle).
  apply up_spec in Huqle.
  assert (Vqd : valid_binary (Prim2SF ((c - py_min x c) / c)) = true) by apply Prim2SF_valid.
  assert (Huq' : units (Prim2SF ((c - py_min x c) / c)) = Some uq).
  { rewrite div_spec, Hc. exact Huq. }
  pose proof (units_nonneg _ _ Vqd Huq') as Huq0.
  (* the product *)
  set (Vr := Z.shiftr (up Vq * uk) grid + 1) in *.
  assert (HVr : uq * uk <= Vr * 2 ^ grid).
  { unfold Vr. rewrite Z.shiftr_div_pow2 by lia.
    pose proof (Z.mul_succ_div_gt (up Vq * uk) (2 ^ grid) Hg) as Hgt.
    unfold Z.succ in Hgt. nia. }
  destruct (SFmul_units (Prim2SF ((c - py_min x c) / c)) mk ek uq Vr Vqd Vk Huq' HVr R3)
    as (ur & Hur & Hurle).
  apply up_spec in Hurle.
  exists ur. split; [|exact Hurle].
  unfold ramp. rewrite mul_spec, Hk. exact Hur.
Qed.

Lemma below_after_clip (s t : float) (A : Z) :
  at_most s A -> (A <? float_units t) = true ->
  (0 <? t)%float = true -> (t <=? 1)%float = true ->
  (np_clip s 0 1 <? t)%float = true.
Proof.
  intros (u & Hu & HA) Hlt H0 H1. apply Z.ltb_lt in Hlt.
  assert (Hut : units (Prim2SF t) = Some (float_units t)).
  { unfold float_units. destruct (units (Prim2SF t)) as [v|] eqn:E; [reflexivity|].
    exfalso. unfold float_units in Hlt. rewrite E in Hlt.
    pose proof (units_nonneg _ _ (Prim2SF_valid s) Hu). lia. }
  assert (Hst : (s <? t)%float = true).
  { rewrite ltb_spec.
    apply (units_ltb _ _ u (float_units t) (Prim2SF_valid s) (Prim2SF_valid t) Hu Hut).
    lia. }
  assert (Hnan : is_nan s = false).
  { apply is_nan_false. intros E. rewrite E in Hu. discriminate Hu. }
  unfold np_clip, np_max, np_min. rewrite Hnan.
  destruct (0 <? s)%float eqn:E0.
  - rewrite Hnan, (ltb_leb_trans s t 1 Hst H1). exact Hst.
  - change (is_nan 0) with false. change (0 <? 1)%float with true. cbv iota. exact H0.
Qed.

Local Close Scope Z_scope.
Lemma ramps_in_range :
  ramp_in_range 0.35 0.10 = true /\ ramp_in_range 0.20 0.10 = true /\
  ramp_in_range 0.05 0.05 = true.
Proof. split; [|split]; vm_compute; reflexivity. Qed.

Lemma score_bound_without_tag_low :
  (score_bound_without_tag <? float_units 0.45)%Z = true.
Proof. vm_compute. reflexivity. Qed.

Lemma sums_in_range :
  ((float_units 0.15 + ramp_bound 0.10 <=? 2 ^ (grid + 900))
   && (up (float_units 0.15 + ramp_bound 0.10) + ramp_bound 0.10
       <=? 2 ^ (grid + 900))
   && (up (up (float_units 0.15 + ramp_bound 0.10) + ramp_bound 0.10)
       + ramp_bound 0.05 <=? 2 ^ (grid + 900)))%Z = true.
Proof. vm_compute. reflexivity. Qed.

Lemma at_most_weaken (x : float) (A B : Z) : at_most x A -> (A <= B)%Z -> at_most x B.
Proof. intros (u & Hu & HA) H. exists u. split; [exact Hu | lia]. Qed.

Section Verdict.
Context {U : Unicode} {raster : Type} {L : Libs raster}.

(** Without a generator keyword the score stays below 0.45. *)
Lemma score_formula_without_tag (md : pydict) (m : MetricSet) :
  signature_term md = 0 ->
  between 0 (hist_entropy m) 1 -> between 0 (noise_estimate m) 1 ->
  between 0 (blockiness m) 1 ->
  (score_formula md m <? 0.45) = true.
Proof.
  intros Hsig He Hn Hb.
  destruct positive_finite_consts as (P35 & P20 & P05 & P10 & _).
  destruct ramps_in_range as (R1 & R2 & R3).
  pose proof sums_in_range as Hs.
  apply andb_true_iff in Hs as [Hs S3]. apply andb_true_iff in Hs as [S1 S2].
  unfold score_formula, clamp01. rewrite Hsig.
  apply below_after_clip with score_bound_without_tag;
    [| exact score_bound_without_tag_low | reflexivity | reflexivity].
  unfold score_bound_without_tag.
  assert (Hstart : at_most (0 + exif_term md) (float_units 0.15)).
  { unfold exif_term. destruct (exif_absent md).
    - eexists. split; [vm_compute; reflexivity|]. apply Z.leb_le. vm_compute. reflexivity.
    - eexists. split; [vm_compute; reflexivity|]. apply Z.leb_le. vm_compute. reflexivity. }
  apply at_most_add; [| apply at_most_ramp; try assumption; now apply between_units | exact S3].
  apply at_most_add; [| apply at_most_ramp; try assumption; now apply between_units | exact S2].
  apply at_most_add; [exact Hstart | apply at_most_ramp; try assumption; now apply between_units
                     | exact S1].
Qed.

Lemma signature_term_cases (md : pydict) :
  match detect_generator_reasons (PDict md) with
  | [] => signature_term md = 0
  | _ :: _ => signature_term md = 0.60
  end.
Proof.
  unfold detect_generator_reasons, signature_term. rewrite detect_with_filter.
  pose proof (filter_nil_existsb (found (PDict md)) GENERATOR_KEYWORDS) as H.
  destruct (filter (found (PDict md)) GENERATOR_KEYWORDS); cbn [map]; now rewrite H.
Qed.

(** X17: as long as the raw readings are numbers (the mean of the
    boundary differences is only asked for on a grid of at least 16
    rows and 16 columns), the pixels alone never change the verdict:
    without a listed keyword in the record the score stays below 0.45,
    and the label is "Likely human-captured" exactly when the detector
    found no keyword. *)
Theorem X17_label_is_human_iff_no_tag (img small : Image raster) (md : pydict) :
  _resize_for_metrics img = Ok small ->
  extract_metadata img = Ok md ->
  ((16 <= rows (_pil_to_nd_gray small))%nat ->
   (16 <= cols (_pil_to_nd_gray small))%nat ->
   is_nan (F32.to_float
             (np_mean (v_edges (_pil_to_nd_gray small)
                       ++ h_edges (_pil_to_nd_gray small)))) = false) ->
  is_nan (F32.to_float (np_std (laplace (_pil_to_nd_gray small)))) = false ->
  is_nan (shannon_entropy (_pil_to_nd_gray small)) = false ->
  exists res,
    analyze_image img = Ok res /\
    (detect_generator_reasons (PDict (metadata res)) = [] ->
     (score res <? 0.45) = true) /\
    (label res = "Likely human-captured" <->
     detect_generator_reasons (PDict (metadata res)) = []).
Proof.
  intros Hsmall Hmd Hb Hn He.
  destruct (analyze_image_returns img small md Hsmall Hmd)
    as (res & Hres & _ & Hm & _ & Hscore & Hlabel).
  apply blockiness_between_on_grid in Hb.
  apply noise_between in Hn. apply entropy_between in He.
  exists res. split; [exact Hres|].
  pose proof (signature_term_cases (metadata res)) as Hsig.
  assert (Hlow : detect_generator_reasons (PDict (metadata res)) = [] ->
                 (score res <? 0.45) = true).
  { intros Hnone. rewrite Hnone in Hsig. rewrite Hscore.
    apply score_formula_without_tag; [exact Hsig | | | ]; rewrite Hm; assumption. }
  split; [exact Hlow|]. split.
  - intros Hhuman.
    destruct (detect_generator_reasons (PDict (metadata res))) as [|r rs] eqn:Hdet;
      [reflexivity|].
    exfalso.
    assert (H60 : (0.6 <=? score res) = true).
    { rewrite Hscore. apply score_formula_lower_bound; [exact Hsig | | | ];
        rewrite Hm; apply between_nonneg; assumption. }
    pose proof (ltb_leb _ _ (ltb_leb_trans 0.45 0.6 (score res) eq_refl H60)) as H45.
    revert Hhuman. rewrite Hlabel. unfold label_for. rewrite H45.
    destruct (0.75 <=? score res); discriminate.
  - intros Hnone. rewrite Hlabel. apply label_for_low. exact (Hlow Hnone).
Qed.

End Verdict.

(** ** The size asked of the resize *)

Local Open Scope Z_scope.

Lemma digits_iter_xO (m d : positive) :
  digits2_pos (Pos.iter xO m d) = (digits2_pos m + d)%positive.
Proof.
  induction d as [|d IH] using Pos.peano_ind.
  - simpl. lia.
  - rewrite Pos.iter_succ. cbn [digits2_pos]. rewrite IH. lia.
Qed.

(** Rounding a number that is in canonical form already gives it back. *)
Lemma round_aux_canonical (m : positive) (e : Z) :
  fexp prec emax (Zpos (digits2_pos m) + e) = e -> e <= emax - prec ->
  binary_round_aux prec emax false (Zpos m) e loc_Exact = S754_finite false m e.
Proof.
  intros Hf He. unfold binary_round_aux.
  assert (Hs : shr_fexp prec emax (Zpos m) e loc_Exact
               = (shr_record_of_loc (Zpos m) loc_Exact, e)).
  { unfold shr_fexp, shr. cbn [Zdigits2]. rewrite Hf, Z.sub_diag. reflexivity. }
  rewrite Hs. cbn [shr_record_of_loc shr_m loc_of_shr_record round_nearest_even].
  change (round_nearest_even (Zpos m) loc_Exact) with (Zpos m).
  rewrite Hs. cbn [shr_record_of_loc shr_m].
  apply Z.leb_le in He. now rewrite He.
Qed.

(** [float(n)] is exact below 2^53. *)
Lemma float_of_Z_exact (n : positive) :
  Zpos n < 2 ^ 53 ->
  exists m e, Prim2SF (float_of_Z (Zpos n)) = S754_finite false m e /\
              Zpos m * 2 ^ (e + grid) = Zpos n * 2 ^ grid.
Proof.
  intros Hn. pose proof grid_value as HK.
  unfold float_of_Z. rewrite of_uint63_spec, Uint63.of_Z_spec.
  rewrite Z.mod_small.
  2:{ split; [lia|]. apply Z.lt_trans with (2 ^ 53); [exact Hn | reflexivity]. }
  cbn [binary_normalize]. unfold binary_round.
  pose proof (digits2_pos_bounds n) as Bn.
  assert (Hd : Zpos (digits2_pos n) <= 53).
  { assert (H : 2 ^ (Zpos (digits2_pos n) - 1) < 2 ^ 53) by lia.
    apply Z.pow_lt_mono_r_iff in H; lia. }
  assert (Hf : fexp prec emax (Zpos (digits2_pos n) + 0) = Zpos (digits2_pos n) - 53).
  { unfold fexp, SpecFloat.emin, prec, emax. lia. }
  rewrite Hf. unfold shl_align.
  destruct (Zpos (digits2_pos n) - 53 - 0) as [|d|d] eqn:Ed; try lia.
  - exists n, 0. rewrite round_aux_canonical.
    + split; [reflexivity | now rewrite Z.add_0_l].
    + rewrite Hf. lia.
    + unfold emax, prec. lia.
  - exists (Pos.iter xO n d), (Zpos (digits2_pos n) - 53).
    rewrite round_aux_canonical.
    + split; [reflexivity|]. rewrite iter_xO_value.
      replace grid with (Zpos d + (Zpos (digits2_pos n) - 53 + grid)) at 2 by lia.
      rewrite (pow2_split (Zpos d)) by lia. ring.
    + rewrite digits_iter_xO, Pos2Z.inj_add.
      unfold fexp, SpecFloat.emin, prec, emax. lia.
    + unfold emax, prec. lia.
Qed.

Lemma scale_bound_low : (up scale_bound <? 2 ^ grid) = true.
Proof. vm_compute. reflexivity. Qed.

Lemma scale_bound_in_range : (scale_bound <=? 2 ^ (grid + 900)) = true.
Proof. vm_compute. reflexivity. Qed.

Lemma units_one : units (Prim2SF 1) = Some (2 ^ grid).
Proof. vm_compute. reflexivity. Qed.

(** The scale of an image whose longer side exceeds 1024. *)
Lemma scale_at_most (n : positive) :
  1024 < Zpos n < 2 ^ 53 ->
  at_most (float_of_Z 1024 / float_of_Z (Zpos n)) (up scale_bound).
Proof.
  intros [Hlo Hhi]. pose proof grid_value as HK.
  destruct (float_of_Z_exact n Hhi) as (m & e & Hc & Hval).
  destruct (float_of_Z_exact 1024 ltac:(reflexivity)) as (m0 & e0 & Hc0 & Hval0).
  pose proof (Prim2SF_valid (float_of_Z (Zpos n))) as Vc. rewrite Hc in Vc.
  assert (Hg11 : 2 ^ grid = 2048 * 2 ^ (grid - 11)).
  { replace grid with (11 + (grid - 11)) at 1 by lia.
    rewrite (pow2_split 11) by lia. reflexivity. }
  assert (Hp : 0 < 2 ^ (grid - 11)) by (apply pow2_pos; lia).
  destruct (SFdiv_units (Prim2SF (float_of_Z 1024)) m e (1024 * 2 ^ grid) scale_bound
              (Prim2SF_valid _) Vc) as (u & Hu & Hle).
  - rewrite Hc0. unfold units. now rewrite Hval0.
  - rewrite Hval. unfold scale_bound. rewrite Hg11.
    set (P := 2 ^ (grid - 11)) in *. nia.
  - apply Z.leb_le. exact scale_bound_in_range.
  - exists u. rewrite div_spec, Hc. split; [exact Hu | now apply up_spec].
Qed.

Lemma scale_below_one (n : positive) :
  1024 < Zpos n < 2 ^ 53 ->
  (float_of_Z 1024 / float_of_Z (Zpos n) <? 1)%float = true.
Proof.
  intros Hn. destruct (scale_at_most n Hn) as (u & Hu & Hle).
  rewrite ltb_spec.
  apply (units_ltb _ _ u (2 ^ grid) (Prim2SF_valid _) (Prim2SF_valid _) Hu units_one).
  pose proof scale_bound_low as H. apply Z.ltb_lt in H. lia.
Qed.

Lemma up_le (V : Z) :
  up V * 2 ^ 52 <= V * (2 ^ 52 + 1) + 2 ^ (grid - 1074 + 52).
Proof.
  unfold up. rewrite Z.shiftr_div_pow2 by lia.
  rewrite Z.mul_comm. apply Z.mul_div_le. reflexivity.
Qed.

(** [round] of a number below [N + 1/2]. *)
Lemma py_round_le (x : float) (u N : Z) :
  units (Prim2SF x) = Some u -> 0 <= N ->
  2 * u < (2 * N + 1) * 2 ^ grid ->
  0 <= py_round x <= N.
Proof.
  intros Hu HN Hlt. pose proof grid_value as HK.
  pose proof (Prim2SF_valid x) as V. unfold py_round.
  destruct (Prim2SF x) as [s|s| |s m e]; unfold units in Hu; try discriminate; [lia|].
  destruct s; [discriminate|]. apply some_inj in Hu. subst u.
  unfold valid_binary in V. apply bounded_range in V as ((He1 & He2) & _).
  assert (Hg : 0 < 2 ^ grid) by (apply pow2_pos; lia).
  destruct e as [|p|p].
  - rewrite Z.add_0_l in Hlt. change (2 ^ 0) with 1. nia.
  - rewrite (pow2_split (Zpos p) grid) in Hlt by lia.
    assert (0 < 2 ^ Zpos p) by (apply pow2_pos; lia).
    set (mag := Zpos m * 2 ^ Zpos p) in *.
    assert (0 < mag) by (unfold mag; nia).
    replace (Zpos m * (2 ^ Zpos p * 2 ^ grid)) with (mag * 2 ^ grid) in Hlt
      by (unfold mag; ring).
    nia.
  - rewrite Z.pow_pos_fold. set (d := 2 ^ Zpos p) in *.
    assert (Hd : 0 < d) by (apply pow2_pos; lia).
    assert (Hs : 2 ^ grid = d * 2 ^ (Zneg p + grid)).
    { unfold d. rewrite <- pow2_split by lia. f_equal. lia. }
    assert (Hr : 0 < 2 ^ (Zneg p + grid)) by (apply pow2_pos; lia).
    rewrite Hs in Hlt.
    assert (Hm : 2 * Zpos m < (2 * N + 1) * d).
    { set (R := 2 ^ (Zneg p + grid)) in *. nia. }
    pose proof (Z.div_mod (Zpos m) d ltac:(lia)) as Hdm.
    pose proof (Z.mod_pos_bound (Zpos m) d Hd) as Hmod.
    set (q := Zpos m / d) in *. set (r := Zpos m mod d) in *.
    assert (Hq0 : 0 <= q) by (apply Z.div_pos; lia).
    assert (Hq : q <= N) by nia.
    destruct (Z.compare_spec (2 * r) d) as [E|E|E].
    + destruct (Z.even q); [lia|]. assert (q < N) by nia. lia.
    + lia.
    + assert (q < N) by nia. lia.
Qed.

Lemma SFmul_units_l (mx : positive) (ex : Z) (y : spec_float) (b V : Z) :
  bounded prec emax mx ex = true -> valid_binary y = true ->
  units y = Some b ->
  Zpos mx * 2 ^ (ex + grid) * b <= V * 2 ^ grid -> V <= 2 ^ (grid + 900) ->
  exists u, units (SFmul prec emax (S754_finite false mx ex) y) = Some u /\
            u * 2 ^ 52 <= V * (2 ^ 52 + 1) + 2 ^ (grid - 1074 + 52).
Proof.
  pose proof grid_value as HK.
  assert (Hulp : 0 < 2 ^ (grid - 1074 + 52)) by (apply pow2_pos; lia).
  assert (Hg : 0 < 2 ^ grid) by (apply pow2_pos; lia).
  intros Vx Vy Hb HV Hbig.
  apply bounded_range in Vx as ((Hx1 & _) & _).
  destruct y as [sy|sy| |sy my ey]; unfold units, valid_binary in *; try discriminate.
  - apply some_inj in Hb; subst b. exists 0. split; [reflexivity | nia].
  - destruct sy; [discriminate|]. apply some_inj in Hb; subst b.
    apply bounded_range in Vy as ((Hy1 & _) & _).
    cbn [SFmul xorb].
    apply round_aux_units; try lia.
    + intros H. now elim H.
    + assert (Hs : 2 ^ (ex + ey + grid) * 2 ^ grid = 2 ^ (ex + grid) * 2 ^ (ey + grid)).
      { rewrite <- !pow2_split by lia. f_equal. lia. }
      rewrite Pos2Z.inj_mul.
      apply Z.mul_le_mono_pos_r with (2 ^ grid); [exact Hg|].
      apply Z.le_trans with (Zpos mx * 2 ^ (ex + grid) * (Zpos my * 2 ^ (ey + grid)));
        [|exact HV].
      replace (Zpos mx * Zpos my * 2 ^ (ex + ey + grid) * 2 ^ grid)
        with (Zpos mx * Zpos my * (2 ^ (ex + ey + grid) * 2 ^ grid)) by ring.
      rewrite Hs. apply Z.eq_le_incl. ring.
Qed.

(** One side of the requested size: [w] times the scale, in units. *)
Lemma requested_side_units (w n : positive) :
  1024 < Zpos n < 2 ^ 53 -> Zpos w <= Zpos n ->
  exists u,
    units (Prim2SF (float_of_Z (Zpos w)
                    * (float_of_Z 1024 / float_of_Z (Zpos n)))%float) = Some u /\
    u * 2 ^ 104 * Zpos n
    <= Zpos w * ((1024 * 2 ^ grid + Zpos n) * (2 ^ 52 + 1) * (2 ^ 52 + 1)
                 + Zpos n * 2 ^ (grid - 1074 + 52) * (2 * 2 ^ 52 + 1)).
Proof.
  intros [Hlo Hhi] Hw. pose proof grid_value as HK.
  assert (Hg : 0 < 2 ^ grid) by (apply pow2_pos; lia).
  assert (HT : 0 < 2 ^ (grid - 1074 + 52)) by (apply pow2_pos; lia).
  destruct (float_of_Z_exact n Hhi) as (mn & en & Hn & Hnval).
  destruct (float_of_Z_exact w ltac:(lia)) as (mw & ew & Hwf & Hwval).
  destruct (float_of_Z_exact 1024 ltac:(reflexivity)) as (m0 & e0 & H0 & H0val).
  pose proof (Prim2SF_valid (float_of_Z (Zpos n))) as Vn. rewrite Hn in Vn.
  pose proof (Prim2SF_valid (float_of_Z (Zpos w))) as Vw. rewrite Hwf in Vw.
  set (Vq := 1024 * 2 ^ grid / Zpos n + 1).
  assert (HVq : 1024 * 2 ^ grid < Vq * Zpos n /\ Vq * Zpos n <= 1024 * 2 ^ grid + Zpos n).
  { unfold Vq. pose proof (Z.mul_succ_div_gt (1024 * 2 ^ grid) (Zpos n) ltac:(lia)) as H1.
    pose proof (Z.mul_div_le (1024 * 2 ^ grid) (Zpos n) ltac:(lia)) as H2.
    unfold Z.succ in H1. lia. }
  assert (HVq0 : 0 < Vq) by nia.
  assert (HVqbig : Vq <= 2 ^ (grid + 900)).
  { assert (Vq <= 1024 * 2 ^ grid).
    { apply Z.lt_succ_r. unfold Z.succ.
      apply (Z.mul_lt_mono_pos_r (Zpos n)); [lia|]. nia. }
    assert (2 ^ (grid + 900) = 2 ^ 900 * 2 ^ grid) by (rewrite Z.add_comm; apply pow2_split; lia).
    assert (1024 <= 2 ^ 900) by (apply Z.leb_le; reflexivity).
    nia. }
  (* the scale *)
  destruct (SFdiv_units (Prim2SF (float_of_Z 1024)) mn en (1024 * 2 ^ grid) Vq
              (Prim2SF_valid _) Vn) as (uq & Huq & Huqle).
  { rewrite H0. unfold units. now rewrite H0val. }
  { rewrite Hnval. nia. }
  { exact HVqbig. }
  apply up_spec in Huqle.
  assert (Huq' : units (Prim2SF (float_of_Z 1024 / float_of_Z (Zpos n))%float) = Some uq).
  { rewrite div_spec, Hn. exact Huq. }
  pose proof (units_nonneg _ _ (Prim2SF_valid _) Huq') as Huq0.
  pose proof (up_le Vq) as HA. set (A := up Vq) in *.
  (* the product *)
  assert (HX : Zpos w * A <= 2 ^ (grid + 900)).
  { assert (2 ^ (grid + 900) = 2 ^ 900 * 2 ^ grid) by (rewrite Z.add_comm; apply pow2_split; lia).
    assert (Hn53 : Zpos n * (2 ^ 53) <= 2 ^ 106) by (change (2 ^ 106) with (2 ^ 53 * 2 ^ 53); nia).
    assert (2 ^ (grid - 1074 + 52) <= 2 ^ grid) by (apply Z.pow_le_mono_r; lia).
    assert (Hbig : (2 ^ 108 <= 2 ^ 900)) by (apply Z.leb_le; reflexivity).
    assert (HnA : Zpos n * A * 2 ^ 52
                  <= (1024 * 2 ^ grid + Zpos n) * (2 ^ 52 + 1) + Zpos n * 2 ^ (grid - 1074 + 52)).
    { apply Z.le_trans with (Zpos n * (Vq * (2 ^ 52 + 1) + 2 ^ (grid - 1074 + 52))).
      - rewrite <- Z.mul_assoc. apply Z.mul_le_mono_nonneg_l; lia.
      - replace (Zpos n * (Vq * (2 ^ 52 + 1) + 2 ^ (grid - 1074 + 52)))
          with (Vq * Zpos n * (2 ^ 52 + 1) + Zpos n * 2 ^ (grid - 1074 + 52)) by ring.
        apply Z.add_le_mono_r. apply Z.mul_le_mono_nonneg_r; lia. }
    assert (HA0 : 0 <= A) by (unfold A; apply Z.le_trans with uq; lia).
    assert (HwA : Zpos w * A <= Zpos n * A) by (apply Z.mul_le_mono_nonneg_r; lia).
    assert (HnT : Zpos n * 2 ^ (grid - 1074 + 52) <= 2 ^ 53 * 2 ^ grid).
    { apply Z.mul_le_mono_nonneg; lia. }
    assert (H2p : 2 ^ 52 = 4503599627370496) by reflexivity.
    assert (H3p : 2 ^ 53 = 9007199254740992) by reflexivity.
    assert (H4p : 2 ^ 108 = 324518553658426726783156020576256) by reflexivity.
    rewrite H2p in *. rewrite H3p in *. rewrite H4p in *.
    set (G := 2 ^ grid) in *. set (T := 2 ^ (grid - 1074 + 52)) in *.
    set (nA := Zpos n * A) in *. set (wA := Zpos w * A) in *.
    set (B9 := 2 ^ 900) in *. nia. }
  destruct (SFmul_units_l mw ew _ uq (Zpos w * A) Vw (Prim2SF_valid _) Huq')
    as (u & Hu & Hule).
  { rewrite Hwval.
    replace (Zpos w * 2 ^ grid * uq) with (Zpos w * uq * 2 ^ grid) by ring.
    apply Z.mul_le_mono_nonneg_r; [lia|]. apply Z.mul_le_mono_nonneg_l; lia. }
  { exact HX. }
  exists u. split; [rewrite mul_spec, Hwf; exact Hu|].
  (* u * E <= wA * (E+1) + T ; A * E <= Vq (E+1) + T ; Vq * n <= 1024 G + n *)
  set (E := 2 ^ 52) in *. set (T := 2 ^ (grid - 1074 + 52)) in *.
  change (2 ^ 104) with (E * E).
  apply Z.le_trans with ((Zpos w * A * (E + 1) + T) * E * Zpos n).
  { replace (u * (E * E) * Zpos n) with (u * E * (E * Zpos n)) by ring.
    replace ((Zpos w * A * (E + 1) + T) * E * Zpos n)
      with ((Zpos w * A * (E + 1) + T) * (E * Zpos n)) by ring.
    apply Z.mul_le_mono_nonneg_r; [unfold E; lia | exact Hule]. }
  assert (HAn : A * E * Zpos n <= (1024 * 2 ^ grid + Zpos n) * (E + 1) + Zpos n * T).
  { apply Z.le_trans with ((Vq * (E + 1) + T) * Zpos n).
    - apply Z.mul_le_mono_nonneg_r; lia.
    - replace ((Vq * (E + 1) + T) * Zpos n) with (Vq * Zpos n * (E + 1) + Zpos n * T) by ring.
      apply Z.add_le_mono_r. apply Z.mul_le_mono_nonneg_r; [unfold E; lia | lia]. }
  replace ((Zpos w * A * (E + 1) + T) * E * Zpos n)
    with (Zpos w * ((A * E * Zpos n) * (E + 1)) + T * E * Zpos n) by ring.
  apply Z.le_trans with
    (Zpos w * (((1024 * 2 ^ grid + Zpos n) * (E + 1) + Zpos n * T) * (E + 1))
     + T * E * Zpos n).
  { apply Z.add_le_mono_r. apply Z.mul_le_mono_nonneg_l; [lia|].
    apply Z.mul_le_mono_nonneg_r; [unfold E; lia | exact HAn]. }
  assert (Hw1 : T * E * Zpos n <= Zpos w * (Zpos n * T * E)).
  { replace (T * E * Zpos n) with (1 * (Zpos n * T * E)) by ring.
    apply Z.mul_le_mono_nonneg_r; [unfold E; nia | lia]. }
  replace (Zpos w * ((1024 * 2 ^ grid + Zpos n) * (E + 1) * (E + 1) + Zpos n * T * (2 * E + 1)))
    with (Zpos w * (((1024 * 2 ^ grid + Zpos n) * (E + 1) + Zpos n * T) * (E + 1))
          + Zpos w * (Zpos n * T * E)) by ring.
  lia.
Qed.

Lemma Zdigits2_upper (m : Z) : 0 <= m -> m < 2 ^ Zdigits2 m.
Proof.
  intros H. destruct m as [|p|p]; [reflexivity | | lia].
  apply digits2_pos_bounds.
Qed.

Lemma Zdigits2_le_53 (m : Z) : 0 < m -> m < 2 ^ 53 -> Zdigits2 m <= 53.
Proof.
  intros H0 H. pose proof (Zdigits2_bounds m H0) as B.
  assert (Hlt : 2 ^ (Zdigits2 m - 1) < 2 ^ 53) by lia.
  apply Z.pow_lt_mono_r_iff in Hlt; lia.
Qed.

(** Rounding [m * 2^e] loses at most one part in 2^52, or one unit of
    the least exponent. *)
Lemma round_aux_units_lower (m e : Z) (l : location) (u : Z) :
  0 <= m -> - grid <= e ->
  units (binary_round_aux prec emax false m e l) = Some u ->
  m * 2 ^ (e + grid) * 2 ^ 52 <= u * (2 ^ 52 + 1) + 2 ^ (grid - 1074 + 52).
Proof.
  intros Hm He. pose proof grid_value as HK.
  unfold binary_round_aux.
  destruct (shr_fexp_value m e l Hm) as [He1 Hm1].
  destruct (shr_fexp prec emax m e l) as [mrs1 e1]. cbn [fst snd] in He1, Hm1.
  set (f := fexp prec emax (Zdigits2 m + e)) in *.
  set (m1 := shr_m mrs1) in *.
  pose proof (round_nearest_even_bounds m1 (loc_of_shr_record mrs1)) as Hm2.
  set (m2 := round_nearest_even m1 (loc_of_shr_record mrs1)) in *.
  assert (Hf : f = Z.max (Zdigits2 m + e - 53) (-1074)).
  { unfold f, fexp, SpecFloat.emin, prec, emax. lia. }
  assert (Hk : 0 <= e1 - e) by lia.
  assert (Hkpos : 0 < 2 ^ (e1 - e)) by (apply pow2_pos; lia).
  assert (Hm1pos : 0 <= m1) by (rewrite Hm1; apply Z.div_pos; lia).
  assert (Hm1gt : m < (m1 + 1) * 2 ^ (e1 - e)).
  { rewrite Hm1. pose proof (Z.mul_succ_div_gt m (2 ^ (e1 - e)) Hkpos) as H.
    unfold Z.succ in H. lia. }
  assert (Hp52 : 2 ^ 52 = 4503599627370496) by reflexivity.
  assert (Hp53 : 2 ^ 53 = 9007199254740992) by reflexivity.
  assert (HeK : 0 < 2 ^ (e + grid)) by (apply pow2_pos; lia).
  assert (He1K : 2 ^ (e1 + grid) = 2 ^ (e1 - e) * 2 ^ (e + grid)).
  { rewrite <- pow2_split by lia. f_equal. lia. }
  assert (He1Kpos : 0 < 2 ^ (e1 + grid)) by (apply pow2_pos; lia).
  assert (Hulp : 0 < 2 ^ (grid - 1074 + 52)) by (apply pow2_pos; lia).
  (* fewer than 54 digits are left *)
  assert (Hm1lt : m1 < 2 ^ 53).
  { rewrite Hm1. apply Z.div_lt_upper_bound; [exact Hkpos|].
    apply Z.lt_le_trans with (2 ^ Zdigits2 m); [now apply Zdigits2_upper|].
    rewrite <- pow2_split by lia. apply Z.pow_le_mono_r; lia. }
  (* what the first step keeps *)
  assert (Hkeep : m * 2 ^ (e + grid) * 2 ^ 52
                  <= m1 * 2 ^ (e1 + grid) * (2 ^ 52 + 1) + 2 ^ (grid - 1074 + 52)).
  { destruct (Z.eq_dec e1 e) as [Heq|Hne].
    - assert (m1 = m).
      { rewrite Hm1, Heq, Z.sub_diag. apply Z.div_1_r. }
      subst m1. rewrite Heq. nia.
    - assert (e1 = f) by lia.
      assert (Hloss : m * 2 ^ (e + grid) < m1 * 2 ^ (e1 + grid) + 2 ^ (e1 + grid)).
      { rewrite He1K. nia. }
      destruct (Z.eq_dec f (-1074)) as [Hsub|Hnorm].
      + assert (2 ^ (e1 + grid) * 2 ^ 52 = 2 ^ (grid - 1074 + 52)).
        { rewrite <- pow2_split by lia. f_equal. lia. }
        nia.
      + assert (Hd : f = Zdigits2 m + e - 53) by lia.
        assert (Hmpos : 0 < m).
        { destruct m as [|p|p]; try lia. cbn [Zdigits2] in Hd. lia. }
        pose proof (Zdigits2_bounds m Hmpos) as Bm.
        assert (H52 : 2 ^ 52 <= m1).
        { rewrite Hm1. apply div_pow2_lower; try lia.
          replace (e1 - e + 52) with (Zdigits2 m - 1) by lia. lia. }
        nia. }
  assert (Hm2pos : 0 <= m2) by lia.
  destruct (shr_fexp_value m2 e1 loc_Exact Hm2pos) as [He3 Hm3].
  destruct (shr_fexp prec emax m2 e1 loc_Exact) as [mrs3 e3]. cbn [fst snd] in He3, Hm3.
  (* the second step loses nothing *)
  assert (Hexact : shr_m mrs3 * 2 ^ (e3 + grid) = m2 * 2 ^ (e1 + grid)).
  { destruct (Z.eq_dec m2 (2 ^ 53)) as [Htop|Hlow].
    - rewrite Htop in He3. change (Zdigits2 (2 ^ 53)) with 54 in He3.
      assert (H3 : e3 = e1 + 1).
      { revert He3. unfold fexp, SpecFloat.emin, prec, emax. lia. }
      clear He3. subst e3. rewrite Hm3, Htop. replace (e1 + 1 - e1) with 1 by lia.
      change (2 ^ 53 / 2 ^ 1) with (2 ^ 52).
      replace (e1 + 1 + grid) with (1 + (e1 + grid)) by lia.
      rewrite (pow2_split 1) by lia. change (2 ^ 1) with 2.
      rewrite Hp52, Hp53. ring.
    - assert (H3 : e3 = e1).
      { destruct (Z.eq_dec m2 0) as [Hz|Hnz].
        - rewrite Hz in He3. cbn [Zdigits2] in He3.
          revert He3. unfold fexp, SpecFloat.emin, prec, emax. lia.
        - pose proof (Zdigits2_le_53 m2 ltac:(lia) ltac:(lia)) as Hd.
          revert He3. unfold fexp, SpecFloat.emin, prec, emax. lia. }
      clear He3. subst e3. rewrite Hm3, Z.sub_diag. change (2 ^ 0) with 1. now rewrite Z.div_1_r. }
  assert (Hm3pos : 0 <= shr_m mrs3)
    by (rewrite Hm3; apply Z.div_pos; [lia | apply pow2_pos; lia]).
  assert (Hfinal : m * 2 ^ (e + grid) * 2 ^ 52
                   <= shr_m mrs3 * 2 ^ (e3 + grid) * (2 ^ 52 + 1) + 2 ^ (grid - 1074 + 52)).
  { rewrite Hexact. apply Z.le_trans with (1 := Hkeep).
    apply Z.add_le_mono_r. apply Z.mul_le_mono_nonneg_r; [lia|].
    apply Z.mul_le_mono_nonneg_r; lia. }
  destruct (shr_m mrs3) as [|q|q] eqn:Eq; [| |lia].
  - intros Hu. unfold units in Hu. apply some_inj in Hu. subst u. lia.
  - destruct (e3 <=? emax - prec); intros Hu; unfold units in Hu; [|discriminate].
    apply some_inj in Hu. subst u. exact Hfinal.
Qed.

Lemma SFmul_units_lower (mx : positive) (ex : Z) (y : spec_float) (b u : Z) :
  bounded prec emax mx ex = true -> valid_binary y = true ->
  units y = Some b ->
  units (SFmul prec emax (S754_finite false mx ex) y) = Some u ->
  Zpos mx * 2 ^ (ex + grid) * b * 2 ^ 52
  <= (u * (2 ^ 52 + 1) + 2 ^ (grid - 1074 + 52)) * 2 ^ grid.
Proof.
  pose proof grid_value as HK.
  assert (Hulp : 0 < 2 ^ (grid - 1074 + 52)) by (apply pow2_pos; lia).
  assert (Hg : 0 < 2 ^ grid) by (apply pow2_pos; lia).
  intros Vx Vy Hb.
  apply bounded_range in Vx as ((Hx1 & _) & _).
  destruct y as [sy|sy| |sy my ey]; unfold valid_binary in Vy; unfold units in Hb;
    try discriminate.
  - apply some_inj in Hb; subst b. cbn [SFmul xorb]. unfold units. intros Hu.
    apply some_inj in Hu. subst u. nia.
  - destruct sy; [discriminate|]. apply some_inj in Hb; subst b.
    apply bounded_range in Vy as ((Hy1 & _) & _).
    cbn [SFmul xorb]. intros Hu.
    apply round_aux_units_lower in Hu; [|lia|lia].
    assert (Hs : 2 ^ (ex + ey + grid) * 2 ^ grid = 2 ^ (ex + grid) * 2 ^ (ey + grid)).
    { rewrite <- !pow2_split by lia. f_equal. lia. }
    rewrite Pos2Z.inj_mul in Hu.
    replace (Zpos mx * 2 ^ (ex + grid) * (Zpos my * 2 ^ (ey + grid)) * 2 ^ 52)
      with (Zpos mx * Zpos my * (2 ^ (ex + grid) * 2 ^ (ey + grid)) * 2 ^ 52) by ring.
    rewrite <- Hs.
    replace (Zpos mx * Zpos my * (2 ^ (ex + ey + grid) * 2 ^ grid) * 2 ^ 52)
      with (Zpos mx * Zpos my * 2 ^ (ex + ey + grid) * 2 ^ 52 * 2 ^ grid) by ring.
    apply Z.mul_le_mono_nonneg_r; [lia | exact Hu].
Qed.

Lemma SFdiv_units_lower (mx : positive) (ex : Z) (mc : positive) (ec : Z) (u : Z) :
  bounded prec emax mx ex = true -> bounded prec emax mc ec = true ->
  units (SFdiv prec emax (S754_finite false mx ex) (S754_finite false mc ec)) = Some u ->
  Zpos mx * 2 ^ (ex + grid) * 2 ^ grid * (2 ^ 52 * 2 ^ 52)
  <= ((u * (2 ^ 52 + 1) + 2 ^ (grid - 1074 + 52)) * (2 ^ 52 + 1)
      + 2 ^ (grid - 1074 + 52) * 2 ^ 52) * (Zpos mc * 2 ^ (ec + grid)).
Proof.
  pose proof grid_value as HK.
  assert (Hulp : 0 < 2 ^ (grid - 1074 + 52)) by (apply pow2_pos; lia).
  assert (Hg : 0 < 2 ^ grid) by (apply pow2_pos; lia).
  intros Vx Vc.
  apply bounded_range in Vc as ((Hc1 & Hc2) & Hdc & _).
  apply bounded_range in Vx as ((Hx1 & Hx2) & Hdx & _).
  assert (Hcpos : 0 < 2 ^ (ec + grid)) by (apply pow2_pos; lia).
  assert (Hxpos : 0 < 2 ^ (ex + grid)) by (apply pow2_pos; lia).
  cbn [SFdiv xorb]. unfold SFdiv_core_binary. cbn [Zdigits2].
  set (d1 := Zpos (digits2_pos mx)) in *. set (d2 := Zpos (digits2_pos mc)) in *.
  set (D := d1 + ex - (d2 + ec)).
  set (e' := Z.min (fexp prec emax D) (ex - ec)).
  assert (HfD : fexp prec emax D = Z.max (D - 53) (-1074)).
  { unfold fexp, SpecFloat.emin, prec, emax. lia. }
  assert (Hd1 : 1 <= d1) by (unfold d1; lia).
  assert (Hd2 : 1 <= d2) by (unfold d2; lia).
  assert (He'lo : - grid <= e') by (unfold e'; lia).
  set (s := ex - ec - e').
  assert (Hs : 0 <= s) by (unfold s, e'; lia).
  set (m' := match s with 0 => Zpos mx | Zpos _ => Z.shiftl (Zpos mx) s | Zneg _ => 0 end).
  assert (Hm' : m' = Zpos mx * 2 ^ s).
  { unfold m'. destruct s as [|p|p] eqn:Es; [simpl; lia | | lia].
    apply Z.shiftl_mul_pow2. lia. }
  pose proof (Z_div_mod m' (Zpos mc) ltac:(lia)) as Hdm.
  unfold Z.div_eucl in Hdm |- *. fold (Z.div_eucl m' (Z.pos mc)) in *.
  destruct (Z.div_eucl m' (Z.pos mc)) as [q r]. destruct Hdm as [Hdm Hr].
  assert (Hspos : 0 < 2 ^ s) by (apply pow2_pos; lia).
  assert (Hq : 0 <= q) by nia.
  intros Hu. apply round_aux_units_lower in Hu; [|exact Hq | exact He'lo].
  assert (He'K : 0 < 2 ^ (e' + grid)) by (apply pow2_pos; lia).
  (* one unit of the quotient is small *)
  assert (Hunit : 2 ^ (e' + grid) * 2 ^ 52 <= q * 2 ^ (e' + grid) + 2 ^ (grid - 1074 + 52)).
  { destruct (Z_le_gt_dec e' (-1074)) as [Hlow|Hhigh].
    - assert (2 ^ (e' + grid) * 2 ^ 52 <= 2 ^ (grid - 1074 + 52)).
      { rewrite <- pow2_split by lia. apply Z.pow_le_mono_r; lia. }
      nia.
    - assert (He' : e' = D - 53) by (unfold e' in *; unfold D in *; lia).
      assert (Hsv : s = 53 - d1 + d2) by (unfold s, D in *; lia).
      pose proof (digits2_pos_bounds mx) as Bx. fold d1 in Bx.
      pose proof (digits2_pos_bounds mc) as Bc. fold d2 in Bc.
      assert (Hlow : 2 ^ 52 * Zpos mc <= m').
      { rewrite Hm'.
        assert (H1 : 2 ^ (d1 - 1) * 2 ^ s = 2 ^ 52 * 2 ^ d2).
        { rewrite <- !pow2_split by lia. f_equal. lia. }
        assert (0 < 2 ^ 52) by reflexivity.
        apply Z.le_trans with (2 ^ 52 * 2 ^ d2); [nia|].
        rewrite <- H1. nia. }
      assert (H52 : 2 ^ 52 <= q).
      { assert (Hp : 2 ^ 52 = 4503599627370496) by reflexivity.
        rewrite Hp in *. nia. }
      nia. }
  (* the exact quotient is below the next multiple *)
  assert (Hpow : 2 ^ s * (2 ^ (e' + grid) * 2 ^ (ec + grid))
                 = 2 ^ (ex + grid) * 2 ^ grid).
  { rewrite <- !pow2_split by lia. f_equal. unfold s. lia. }
  assert (Hnext : Zpos mx * 2 ^ (ex + grid) * 2 ^ grid
                  <= (q * 2 ^ (e' + grid) + 2 ^ (e' + grid)) * (Zpos mc * 2 ^ (ec + grid))).
  { replace (Zpos mx * 2 ^ (ex + grid) * 2 ^ grid)
      with (Zpos mx * (2 ^ (ex + grid) * 2 ^ grid)) by ring.
    rewrite <- Hpow.
    replace (Zpos mx * (2 ^ s * (2 ^ (e' + grid) * 2 ^ (ec + grid))))
      with (m' * (2 ^ (e' + grid) * 2 ^ (ec + grid))) by (rewrite Hm'; ring).
    replace ((q * 2 ^ (e' + grid) + 2 ^ (e' + grid)) * (Zpos mc * 2 ^ (ec + grid)))
      with ((Zpos mc * (q + 1)) * (2 ^ (e' + grid) * 2 ^ (ec + grid))) by ring.
    apply Z.mul_le_mono_nonneg_r; nia. }
  set (uc := Zpos mc * 2 ^ (ec + grid)) in *.
  assert (Hucpos : 0 < uc) by (unfold uc; nia).
  set (Q := q * 2 ^ (e' + grid)) in *. set (S1 := 2 ^ (e' + grid)) in *.
  set (T := 2 ^ (grid - 1074 + 52)) in *.
  set (a2 := Zpos mx * 2 ^ (ex + grid) * 2 ^ grid) in *.
  assert (HQ0 : 0 <= Q) by (unfold Q; nia).
  assert (Hp : 2 ^ 52 = 4503599627370496) by reflexivity.
  rewrite Hp in *.
  (* a2 <= (Q + S1) uc ; S1 E <= Q + T ; Q E <= u (E+1) + T *)
  apply Z.le_trans with
    (((Q * 4503599627370496 + (Q + T)) * 4503599627370496) * uc).
  - replace (a2 * (4503599627370496 * 4503599627370496))
      with (a2 * 4503599627370496 * 4503599627370496) by ring.
    replace ((Q * 4503599627370496 + (Q + T)) * 4503599627370496 * uc)
      with ((Q * 4503599627370496 + (Q + T)) * uc * 4503599627370496) by ring.
    apply Z.mul_le_mono_nonneg_r; [lia|].
    apply Z.le_trans with ((Q + S1) * uc * 4503599627370496).
    + apply Z.mul_le_mono_nonneg_r; [lia | exact Hnext].
    + replace ((Q + S1) * uc * 4503599627370496)
        with ((Q * 4503599627370496 + S1 * 4503599627370496) * uc) by ring.
      apply Z.mul_le_mono_nonneg_r; lia.
  - apply Z.mul_le_mono_nonneg_r; [lia|]. nia.
Qed.

(** [round] of a number above [N - 1/2]. *)
Lemma py_round_ge (x : float) (u N : Z) :
  units (Prim2SF x) = Some u ->
  (2 * N - 1) * 2 ^ grid < 2 * u ->
  N <= py_round x.
Proof.
  intros Hu Hlt. pose proof grid_value as HK.
  pose proof (Prim2SF_valid x) as V. unfold py_round.
  assert (Hg : 0 < 2 ^ grid) by (apply pow2_pos; lia).
  destruct (Prim2SF x) as [s|s| |s m e]; unfold units in Hu; try discriminate.
  - apply some_inj in Hu. subst u. nia.
  - destruct s; [discriminate|]. apply some_inj in Hu. subst u.
    unfold valid_binary in V. apply bounded_range in V as ((He1 & He2) & _).
    destruct e as [|p|p].
    + rewrite Z.add_0_l in Hlt. change (2 ^ 0) with 1. nia.
    + rewrite (pow2_split (Zpos p) grid) in Hlt by lia.
      set (mag := Zpos m * 2 ^ Zpos p) in *.
      replace (Zpos m * (2 ^ Zpos p * 2 ^ grid)) with (mag * 2 ^ grid) in Hlt
        by (unfold mag; ring).
      nia.
    + rewrite Z.pow_pos_fold. set (d := 2 ^ Zpos p) in *.
      assert (Hd : 0 < d) by (apply pow2_pos; lia).
      assert (Hs : 2 ^ grid = d * 2 ^ (Zneg p + grid)).
      { unfold d. rewrite <- pow2_split by lia. f_equal. lia. }
      assert (Hr : 0 < 2 ^ (Zneg p + grid)) by (apply pow2_pos; lia).
      rewrite Hs in Hlt.
      assert (Hm : (2 * N - 1) * d < 2 * Zpos m).
      { set (R := 2 ^ (Zneg p + grid)) in *. nia. }
      pose proof (Z.div_mod (Zpos m) d ltac:(lia)) as Hdm.
      pose proof (Z.mod_pos_bound (Zpos m) d Hd) as Hmod.
      set (q := Zpos m / d) in *. set (r := Zpos m mod d) in *.
      assert (Hq : N - 1 <= q) by nia.
      destruct (Z.compare_spec (2 * r) d) as [E|E|E].
      * destruct (Z.even q); [|lia]. assert (N <= q) by nia. lia.
      * assert (N <= q) by nia. lia.
      * lia.
Qed.

Lemma grid_facts :
  0 < 2 ^ grid /\ 0 < 2 ^ (grid - 1074 + 52) /\
  2 ^ (grid - 1074 + 52) * 2 ^ 200 <= 2 ^ grid.
Proof.
  pose proof grid_value as HK. split; [apply pow2_pos; lia|].
  split; [apply pow2_pos; lia|].
  rewrite <- pow2_split by lia. apply Z.pow_le_mono_r; lia.
Qed.

(** The side [w] of an image whose longer side is [n], times the scale:
    at most [N + 1/2] as soon as [2049 w <= (2 N + 1) n]. *)
Lemma requested_side_le (w n : positive) (N : Z) :
  1024 < Zpos n < 2 ^ 53 -> Zpos w <= Zpos n -> 0 <= N ->
  2049 * Zpos w <= (2 * N + 1) * Zpos n ->
  0 <= py_round (float_of_Z (Zpos w)
                 * (float_of_Z 1024 / float_of_Z (Zpos n)))%float <= N.
Proof.
  intros Hn Hw HN Hratio.
  destruct (requested_side_units w n Hn Hw) as (u & Hu & Hle).
  destruct grid_facts as (Hg & HT & HTG).
  apply (py_round_le _ u N Hu HN).
  assert (Hp52 : 2 ^ 52 = 4503599627370496) by reflexivity.
  assert (Hp53 : 2 ^ 53 = 9007199254740992) by reflexivity.
  assert (Hp104 : 2 ^ 104 = 20282409603651670423947251286016) by reflexivity.
  assert (Hp200 : 2 ^ 200
                  = 1606938044258990275541962092341162602522202993782792835301376)
    by reflexivity.
  rewrite Hp52, Hp104 in Hle. rewrite Hp53 in Hn. rewrite Hp200 in HTG.
  set (G := 2 ^ grid) in *. set (T := 2 ^ (grid - 1074 + 52)) in *.
  set (R := (1024 * G + Zpos n) * (4503599627370496 + 1) * (4503599627370496 + 1)
            + Zpos n * T * (2 * 4503599627370496 + 1)) in *.
  assert (HnT : Zpos n * T <= 9007199254740992 * T)
    by (apply Z.mul_le_mono_nonneg_r; lia).
  assert (HR : 2 * R < 2049 * G * 20282409603651670423947251286016).
  { unfold R. set (nT := Zpos n * T) in *. nia. }
  assert (HR0 : 0 <= R) by (unfold R; nia).
  (* 2 u E^2 n <= 2 w R < 2049 w G E^2 <= (2N+1) n G E^2 *)
  apply (Z.mul_lt_mono_pos_r (20282409603651670423947251286016 * Zpos n)); [lia|].
  apply Z.le_lt_trans with (2 * (Zpos w * R)).
  { replace (2 * u * (20282409603651670423947251286016 * Zpos n))
      with (2 * (u * 20282409603651670423947251286016 * Zpos n)) by ring.
    lia. }
  apply Z.lt_le_trans with (Zpos w * (2049 * G * 20282409603651670423947251286016)).
  { replace (2 * (Zpos w * R)) with (Zpos w * (2 * R)) by ring.
    apply Z.mul_lt_mono_pos_l; lia. }
  replace (Zpos w * (2049 * G * 20282409603651670423947251286016))
    with ((2049 * Zpos w) * (G * 20282409603651670423947251286016)) by ring.
  replace ((2 * N + 1) * G * (20282409603651670423947251286016 * Zpos n))
    with (((2 * N + 1) * Zpos n) * (G * 20282409603651670423947251286016)) by ring.
  apply Z.mul_le_mono_nonneg_r; [nia | exact Hratio].
Qed.

(** The longer side times the scale rounds to 1024. *)
Lemma requested_longer_side (n : positive) :
  1024 < Zpos n < 2 ^ 53 ->
  py_round (float_of_Z (Zpos n)
            * (float_of_Z 1024 / float_of_Z (Zpos n)))%float = 1024.
Proof.
  intros Hn.
  pose proof (requested_side_le n n 1024 Hn ltac:(lia) ltac:(lia) ltac:(lia)) as Hup.
  assert (Hlow : 1024 <= py_round (float_of_Z (Zpos n)
                                   * (float_of_Z 1024 / float_of_Z (Zpos n)))%float);
    [|lia].
  destruct (requested_side_units n n Hn ltac:(lia)) as (u & Hu & _).
  destruct (scale_at_most n Hn) as (uq & Huq & _).
  destruct grid_facts as (Hg & HT & HTG).
  destruct Hn as [Hlo Hhi].
  destruct (float_of_Z_exact n Hhi) as (mn & en & Hnf & Hnval).
  destruct (float_of_Z_exact 1024 ltac:(reflexivity)) as (m0 & e0 & H0 & H0val).
  pose proof (Prim2SF_valid (float_of_Z (Zpos n))) as Vn. rewrite Hnf in Vn.
  pose proof (Prim2SF_valid (float_of_Z 1024)) as V0. rewrite H0 in V0.
  unfold valid_binary in Vn, V0.
  apply (py_round_ge _ u 1024 Hu).
  (* the scale from below *)
  pose proof Huq as Hq. rewrite div_spec, H0, Hnf in Hq.
  apply (SFdiv_units_lower m0 e0 mn en uq V0 Vn) in Hq.
  rewrite H0val, Hnval in Hq.
  (* the product from below *)
  pose proof Hu as Hp. rewrite mul_spec, Hnf in Hp.
  apply (SFmul_units_lower mn en _ uq u Vn (Prim2SF_valid _) Huq) in Hp.
  rewrite Hnval in Hp.
  assert (Hp52 : 2 ^ 52 = 4503599627370496) by reflexivity.
  assert (Hp53 : 2 ^ 53 = 9007199254740992) by reflexivity.
  assert (Hp200 : 2 ^ 200
                  = 1606938044258990275541962092341162602522202993782792835301376)
    by reflexivity.
  rewrite Hp52 in *. rewrite Hp53 in *. rewrite Hp200 in *.
  set (G := 2 ^ grid) in *. set (T := 2 ^ (grid - 1074 + 52)) in *.
  set (P := Zpos n * uq) in *.
  assert (HnT : Zpos n * T <= 9007199254740992 * T)
    by (apply Z.mul_le_mono_nonneg_r; lia).
  set (nT := Zpos n * T) in *.
  assert (L1 : 1024 * G * (4503599627370496 * 4503599627370496)
               <= P * ((4503599627370496 + 1) * (4503599627370496 + 1))
                  + nT * (2 * 4503599627370496 + 1)).
  { apply (Z.mul_le_mono_pos_r _ _ G Hg).
    replace (1024 * G * (4503599627370496 * 4503599627370496) * G)
      with (1024 * G * G * (4503599627370496 * 4503599627370496)) by ring.
    apply Z.le_trans with (1 := Hq). apply Z.eq_le_incl. unfold P, nT. ring. }
  assert (L2 : P * 4503599627370496 <= u * (4503599627370496 + 1) + T).
  { apply (Z.mul_le_mono_pos_r _ _ G Hg).
    replace (P * 4503599627370496 * G)
      with (Zpos n * G * uq * 4503599627370496) by (unfold P; ring).
    exact Hp. }
  lia.
Qed.

Section Resize.
Context {U : Unicode} {raster : Type} {L : Libs raster}.

Lemma resize_request (img : Image raster) :
  1024 < Z.max (Zpos (fst (size img))) (Zpos (snd (size img))) < 2 ^ 53 ->
  _resize_for_metrics img
  = Image_resize img
      (py_round (float_of_Z (Zpos (fst (size img)))
                 * (float_of_Z 1024
                    / float_of_Z (Z.max (Zpos (fst (size img)))
                                        (Zpos (snd (size img))))))%float,
       py_round (float_of_Z (Zpos (snd (size img)))
                 * (float_of_Z 1024
                    / float_of_Z (Z.max (Zpos (fst (size img)))
                                        (Zpos (snd (size img))))))%float).
Proof.
  intros Hn.
  assert (Hscale : (float_of_Z 1024
                    / float_of_Z (Z.max (Zpos (fst (size img))) (Zpos (snd (size img))))
                    <? 1)%float = true).
  { destruct (Z.max (Zpos (fst (size img))) (Zpos (snd (size img)))) as [|n|n] eqn:E;
      try lia.
    now apply scale_below_one. }
  unfold _resize_for_metrics, _resize_for_metrics_with.
  destruct (size img) as [w h]. cbn [fst snd] in *.
  unfold py_min. rewrite Hscale. now rewrite Hscale.
Qed.

(** X18: for sides below 2^53, an image whose longer side exceeds 1024
    is always handed to the resize, and the size asked for has its
    longer side at exactly 1024 and the other side between 0 and 1024;
    a side is asked at most [N] as soon as 2049 times it is at most
    [2 N + 1] times the longer side. *)
Theorem X18_requested_size (img : Image raster) :
  1024 < Z.max (Zpos (fst (size img))) (Zpos (snd (size img))) < 2 ^ 53 ->
  exists nw nh,
    _resize_for_metrics img = Image_resize img (nw, nh) /\
    0 <= nw <= 1024 /\ 0 <= nh <= 1024 /\ Z.max nw nh = 1024 /\
    (forall N, 0 <= N ->
       2049 * Zpos (fst (size img))
       <= (2 * N + 1) * Z.max (Zpos (fst (size img))) (Zpos (snd (size img))) ->
       nw <= N) /\
    (forall N, 0 <= N ->
       2049 * Zpos (snd (size img))
       <= (2 * N + 1) * Z.max (Zpos (fst (size img))) (Zpos (snd (size img))) ->
       nh <= N).
Proof.
  intros Hn. rewrite (resize_request img Hn).
  destruct (size img) as [w h]. cbn [fst snd] in *.
  set (M := Z.max (Zpos w) (Zpos h)) in *.
  assert (HM : exists n, M = Zpos n) by (destruct M as [|n|n]; try lia; now exists n).
  destruct HM as (n & HM). rewrite HM in *.
  eexists. eexists. split; [reflexivity|].
  pose proof (requested_side_le w n 1024 Hn ltac:(lia) ltac:(lia) ltac:(lia)) as Hw.
  pose proof (requested_side_le h n 1024 Hn ltac:(lia) ltac:(lia) ltac:(lia)) as Hh.
  pose proof (requested_longer_side n Hn) as Hlong.
  split; [exact Hw|]. split; [exact Hh|]. split.
  - assert (Hcase : Zpos n = Zpos w \/ Zpos n = Zpos h) by lia.
    destruct Hcase as [E|E]; injection E as E; subst n; rewrite Hlong in *; lia.
  - split; intros N HN Hr.
    + apply (requested_side_le w n N Hn); lia.
    + apply (requested_side_le h n N Hn); lia.
Qed.

(** X19: an image whose longer side is above 1024 and at least 2049
    times the shorter one is asked to shrink to a side of zero; if the
    resize rejects that, as Pillow's does, the error escapes the
    analysis although the bytes decoded. *)
Theorem X19_thin_image_escapes
    (data : list Byte.byte) (img : Image raster) :
  _load_image_from_bytes data = Ok img ->
  1024 < Z.max (Zpos (fst (size img))) (Zpos (snd (size img))) < 2 ^ 53 ->
  2049 * Z.min (Zpos (fst (size img))) (Zpos (snd (size img)))
  <= Z.max (Zpos (fst (size img))) (Zpos (snd (size img))) ->
  (forall new_size, fst new_size = 0 \/ snd new_size = 0 ->
     exists e, Image_resize img new_size = Raise e) ->
  exists e, analyze data = Uncaught e /\ _resize_for_metrics img = Raise e.
Proof.
  intros Hload Hn Hthin Hreject.
  pose proof (resize_request img Hn) as Hreq.
  set (nw := py_round _) in Hreq. set (nh := py_round _) in Hreq.
  assert (Hzero : nw = 0 \/ nh = 0).
  { unfold nw, nh. clear Hreq nw nh. destruct (size img) as [w h]. cbn [fst snd] in *.
    set (M := Z.max (Zpos w) (Zpos h)) in *.
    assert (HM : exists n, M = Zpos n) by (destruct M as [|n|n]; try lia; now exists n).
    destruct HM as (n & HM). rewrite HM in *.
    destruct (Z.le_ge_cases (Zpos w) (Zpos h)) as [Hle|Hge].
    - left. rewrite Z.min_l in Hthin by lia.
      pose proof (requested_side_le w n 0 Hn ltac:(lia) ltac:(lia) ltac:(lia)). lia.
    - right. rewrite Z.min_r in Hthin by lia.
      pose proof (requested_side_le h n 0 Hn ltac:(lia) ltac:(lia) ltac:(lia)). lia. }
  destruct (Hreject (nw, nh) Hzero) as (e & He).
  exists e. rewrite Hreq. split; [|exact He].
  unfold analyze. rewrite Hload. unfold analyze_image. rewrite Hreq, He. reflexivity.
Qed.

End Resize.

Local Close Scope Z_scope.

(** * Worked examples on the executable instance *)

#[local] Existing Instance Demo.unicode.

Lemma C1_score_is_clamped_sum_witness :
  _resize_for_metrics (L := Demo.libs) Demo.png_picture = Ok Demo.png_picture /\
  extract_metadata (L := Demo.libs) Demo.png_picture = Ok Demo.png_record /\
  exists res,
    analyze_image (L := Demo.libs) Demo.png_picture = Ok res /\
    score res = 0.88207282807145804.
Proof.
  split; [vm_compute; reflexivity|]. split; [vm_compute; reflexivity|].
  destruct (C1_score_is_clamped_sum (L := Demo.libs)
              Demo.png_picture Demo.png_picture Demo.png_record)
    as (res & Hres & _ & _ & Hscore);
    [vm_compute; reflexivity | vm_compute; reflexivity |].
  exists res. split; [exact Hres|].
  rewrite Hscore. vm_compute in Hres. injection Hres as <-. vm_compute. reflexivity.
Defined.

Lemma C2_label_thresholds_witness :
  _resize_for_metrics (L := Demo.libs) Demo.png_picture = Ok Demo.png_picture /\
  extract_metadata (L := Demo.libs) Demo.png_picture = Ok Demo.png_record /\
  exists res,
    analyze_image (L := Demo.libs) Demo.png_picture = Ok res /\
    label res = "Likely AI-generated"%string.
Proof.
  split; [vm_compute; reflexivity|]. split; [vm_compute; reflexivity|].
  destruct (C2_label_thresholds (L := Demo.libs)
              Demo.png_picture Demo.png_picture Demo.png_record)
    as (res & Hres & Hlabel & Hhigh & _);
    [vm_compute; reflexivity | vm_compute; reflexivity |].
  exists res. split; [exact Hres|].
  rewrite Hlabel. apply Hhigh.
  vm_compute in Hres. injection Hres as <-. vm_compute. reflexivity.
Defined.

Lemma C3_generator_signatures_witness :
  let md := PDict Demo.png_record in
  extract_metadata (L := Demo.libs) Demo.png_picture = Ok Demo.png_record /\
  text_at "Made with MidJourney v6" md /\
  substring_of_ci "midjourney" "Made with MidJourney v6" /\
  In "Generator tag detected: midjourney"%string (detect_generator_reasons md) /\
  (exists res,
      analyze_image (L := Demo.libs) Demo.png_picture = Ok res /\
      In "Generator tag detected: midjourney"%string (reasons res) /\
      (0.60 <=? score res) = true) /\
  detect_generator_reasons Demo.kelvin_tag
  = ["Generator tag detected: invokeai"%string].
Proof.
  intros md.
  assert (Hmd : extract_metadata (L := Demo.libs) Demo.png_picture = Ok Demo.png_record)
    by (vm_compute; reflexivity).
  assert (Hat : text_at "Made with MidJourney v6" md).
  { apply at_value with "pil_info"%string
      (PDict [("Software"%string, PStr "Made with MidJourney v6")]);
      [simpl; tauto|].
    apply at_value with "Software"%string (PStr "Made with MidJourney v6"); [now left|].
    now constructor. }
  assert (Hci : substring_of_ci "midjourney" "Made with MidJourney v6").
  { exists "Made with "%string, "MidJourney"%string, " v6"%string. split; reflexivity. }
  split; [exact Hmd|]. split; [exact Hat|]. split; [exact Hci|].
  destruct (C3_generator_signatures (L := Demo.libs) md) as (_ & _ & _ & _ & _ & Hmid).
  destruct (Hmid _ Hat Hci) as (Hin & _ & Hrun).
  split; [exact Hin|]. split; [|vm_compute; reflexivity].
  destruct (Hrun Demo.png_picture Demo.png_picture Demo.png_record Hmd eq_refl)
    as (res & Hres & Hreason & _ & Hbound); [vm_compute; reflexivity|].
  exists res. split; [exact Hres|]. split; [exact Hreason|].
  apply Hbound; vm_compute in Hres; injection Hres as <-; vm_compute; split; reflexivity.
Defined.


Lemma C5_png_file_is_not_exempt_witness :
  Image_open (Libs := Demo.libs) Demo.png_file = Ok Demo.png_opened /\
  format Demo.png_opened = Some "PNG"%string /\
  _load_image_from_bytes (L := Demo.libs) Demo.png_file = Ok Demo.png_loaded /\
  format Demo.png_loaded = None /\
  exists res,
    analyze (L := Demo.libs) Demo.png_file = Analysed res /\
    dict_get "format" (metadata res) = Some PNone /\
    (blockiness (metrics res) <? 0.05) = true /\
    In "Very low JPEG blockiness"%string (reasons res).
Proof.
  assert (Hopen : Image_open (Libs := Demo.libs) Demo.png_file = Ok Demo.png_opened)
    by (vm_compute; reflexivity).
  split; [exact Hopen|]. split; [reflexivity|].
  split; [vm_compute; reflexivity|]. split; [reflexivity|].
  destruct (C5_png_file_is_not_exempt (L := Demo.libs) Demo.png_file
              Demo.png_opened Demo.png_loaded Demo.png_loaded Demo.png_file_record
              Hopen eq_refl)
    as (res & Hres & Hfmt & Hiff & _);
    [reflexivity | reflexivity | vm_compute; reflexivity | vm_compute; reflexivity |].
  exists res. split; [exact Hres|]. split; [exact Hfmt|].
  assert (Hlow : (blockiness (metrics res) <? 0.05) = true)
    by (vm_compute in Hres; injection Hres as <-; vm_compute; reflexivity).
  split; [exact Hlow | exact (proj2 Hiff Hlow)].
Defined.


Lemma C7_score_and_metrics_in_unit_interval_witness :
  _resize_for_metrics (L := Demo.libs) Demo.png_picture = Ok Demo.png_picture /\
  extract_metadata (L := Demo.libs) Demo.png_picture = Ok Demo.png_record /\
  exists res,
    analyze_image (L := Demo.libs) Demo.png_picture = Ok res /\
    between 0 (score res) 1 /\
    between 0 (blockiness (metrics res)) 1 /\
    between 0 (noise_estimate (metrics res)) 1 /\
    between 0 (hist_entropy (metrics res)) 1.
Proof.
  split; [vm_compute; reflexivity|]. split; [vm_compute; reflexivity|].
  apply (C7_score_and_metrics_in_unit_interval (L := Demo.libs)
           Demo.png_picture Demo.png_picture Demo.png_record);
    [vm_compute; reflexivity | vm_compute; reflexivity
    | intros _ _; vm_compute; reflexivity
    | vm_compute; reflexivity | vm_compute; reflexivity].
Defined.

Lemma C8_small_grid_blockiness_zero_witness :
  (rows (Demo.flat_plane 8 8 40) < 16 \/ cols (Demo.flat_plane 8 8 40) < 16)%nat /\
  compute_blockiness (L := Demo.libs) (Demo.flat_plane 8 8 40) = 0.
Proof.
  assert (H : (rows (Demo.flat_plane 8 8 40) < 16 \/ cols (Demo.flat_plane 8 8 40) < 16)%nat)
    by (left; simpl; lia).
  split; [exact H|].
  exact (proj1 (C8_small_grid_blockiness_zero (L := Demo.libs) (Demo.flat_plane 8 8 40) H)).
Defined.

Lemma C9_tall_picture_escapes_witness :
  _load_image_from_bytes (L := Demo.libs) Demo.tall_file = Ok Demo.tall_picture /\
  size Demo.tall_picture = (1, 2048)%positive /\
  analyze (L := Demo.libs) Demo.tall_file
  = Uncaught "ValueError: height and width must be > 0"%string.
Proof.
  assert (Hload : _load_image_from_bytes (L := Demo.libs) Demo.tall_file
                  = Ok Demo.tall_picture) by (vm_compute; reflexivity).
  split; [exact Hload|]. split; [reflexivity|].
  refine (proj1 (C9_tall_picture_escapes (L := Demo.libs)
                   Demo.tall_file Demo.tall_picture _ Hload _ _));
    vm_compute; reflexivity.
Defined.

Lemma C10_reasons_have_no_duplicates_witness :
  _resize_for_metrics (L := Demo.libs) Demo.png_picture = Ok Demo.png_picture /\
  extract_metadata (L := Demo.libs) Demo.png_picture = Ok Demo.png_record /\
  exists res,
    analyze_image (L := Demo.libs) Demo.png_picture = Ok res /\
    NoDup (detect_generator_reasons (PDict (metadata res))) /\
    NoDup (reasons res).
Proof.
  split; [vm_compute; reflexivity|]. split; [vm_compute; reflexivity|].
  apply (C10_reasons_have_no_duplicates (L := Demo.libs)
           Demo.png_picture Demo.png_picture Demo.png_record);
    vm_compute; reflexivity.
Defined.

(** * Further worked examples *)

Lemma X1_metadata_keys_and_basics_witness :
  extract_metadata (L := Demo.libs) Demo.odd_picture
  = Raise "TypeError: object of type 'int' has no len()" /\
  exists md,
    extract_metadata (L := Demo.libs) Demo.text_icc_picture = Ok md /\
    map fst md = ["format"; "mode"; "size"; "pil_info"; "icc_profile_length"] /\
    dict_get "icc_profile_length" md = Some (PInt 3).
Proof.
  split.
  - apply (proj1 (X1_metadata_keys_and_basics (L := Demo.libs) Demo.odd_picture)).
    exists (InfoObj (PInt 7)). split; [reflexivity|]. split; reflexivity.
  - assert (Hmd : extract_metadata (L := Demo.libs) Demo.text_icc_picture
                  = Ok (record_with (L := Demo.libs) (Some 3%Z) Demo.text_icc_picture))
      by (vm_compute; reflexivity).
    eexists. split; [exact Hmd|].
    destruct (proj2 (X1_metadata_keys_and_basics (L := Demo.libs) Demo.text_icc_picture)
                _ Hmd) as (Hkeys & _ & _ & _ & _ & Hlen).
    split; [rewrite Hkeys; vm_compute; reflexivity|].
    destruct (Hlen _ eq_refl eq_refl) as (n & Hn & Hget).
    vm_compute in Hn. injection Hn as <-. exact Hget.
Defined.

Lemma X2_pil_info_holds_placeholders_witness :
  NoDup (map fst (info Demo.jpeg_picture)) /\
  exists md d,
    extract_metadata (L := Demo.libs) Demo.jpeg_picture = Ok md /\
    dict_get "pil_info" md = Some (PDict d) /\
    dict_get "exif" d = Some (PDict [("type", PStr "bytes"); ("length", PInt 3)]).
Proof.
  assert (H : NoDup (map fst (info Demo.jpeg_picture)))
    by (repeat constructor; simpl; tauto).
  split; [exact H|].
  assert (Hmd : extract_metadata (L := Demo.libs) Demo.jpeg_picture
                = Ok (record_with (L := Demo.libs) None Demo.jpeg_picture))
    by (vm_compute; reflexivity).
  destruct (X2_pil_info_holds_placeholders (L := Demo.libs)
              Demo.jpeg_picture _ "exif" Hmd H) as (d & Hd & Hk).
  eexists. exists d. split; [exact Hmd|]. split; [exact Hd | exact Hk].
Defined.

Lemma X3_exif_key_iff_some_tag_witness :
  exists md,
    extract_metadata (L := Demo.libs) Demo.jpeg_picture = Ok md /\
    dict_get "exif" md <> None.
Proof.
  assert (Hmd : extract_metadata (L := Demo.libs) Demo.jpeg_picture
                = Ok (record_with (L := Demo.libs) None Demo.jpeg_picture))
    by (vm_compute; reflexivity).
  eexists. split; [exact Hmd|].
  apply (proj1 (X3_exif_key_iff_some_tag (L := Demo.libs) Demo.jpeg_picture _ Hmd)).
  exists [("0th"%string, IfdDict [(305%Z, ExifBytes [Byte.x43; Byte.x61; Byte.x6d])])],
    "0th"%string, [(305%Z, ExifBytes [Byte.x43; Byte.x61; Byte.x6d])].
  split; [vm_compute; reflexivity|]. split; [now left | discriminate].
Defined.

Lemma X4_detection_ignores_entry_order_witness :
  Permutation [("a", PStr "x"); ("Software", PStr "Midjourney")]
              [("Software", PStr "Midjourney"); ("a", PStr "x")] /\
  detect_generator_reasons (PDict [("a", PStr "x"); ("Software", PStr "Midjourney")])
  = detect_generator_reasons (PDict [("Software", PStr "Midjourney"); ("a", PStr "x")]).
Proof.
  assert (H : Permutation [("a", PStr "x"); ("Software", PStr "Midjourney")]
                          [("Software", PStr "Midjourney"); ("a", PStr "x")])
    by apply perm_swap.
  split; [exact H | exact (X4_detection_ignores_entry_order _ _ H)].
Defined.

Lemma X6_exif_reason_iff_no_tag_witness :
  _resize_for_metrics (L := Demo.libs) Demo.png_picture = Ok Demo.png_picture /\
  extract_metadata (L := Demo.libs) Demo.png_picture = Ok Demo.png_record /\
  load_exif (L := Demo.libs) Demo.png_picture = Raise "InvalidImageDataError" /\
  exists res,
    analyze_image (L := Demo.libs) Demo.png_picture = Ok res /\
    In "No EXIF metadata present" (reasons res).
Proof.
  assert (H : _resize_for_metrics (L := Demo.libs) Demo.png_picture = Ok Demo.png_picture)
    by (vm_compute; reflexivity).
  assert (Hmd : extract_metadata (L := Demo.libs) Demo.png_picture = Ok Demo.png_record)
    by (vm_compute; reflexivity).
  assert (Hload : load_exif (L := Demo.libs) Demo.png_picture
                  = Raise "InvalidImageDataError") by (vm_compute; reflexivity).
  split; [exact H|]. split; [exact Hmd|]. split; [exact Hload|].
  destruct (X6_exif_reason_iff_no_tag (L := Demo.libs)
              Demo.png_picture Demo.png_picture Demo.png_record H Hmd)
    as (res & Hres & _ & Hfail).
  exists res. split; [exact Hres | exact (proj2 (Hfail _ Hload))].
Defined.

Lemma X7_info_text_is_detected_witness :
  _resize_for_metrics (L := Demo.libs) Demo.png_picture = Ok Demo.png_picture /\
  extract_metadata (L := Demo.libs) Demo.png_picture = Ok Demo.png_record /\
  exists res,
    analyze_image (L := Demo.libs) Demo.png_picture = Ok res /\
    In "Generator tag detected: midjourney" (reasons res).
Proof.
  assert (H : _resize_for_metrics (L := Demo.libs) Demo.png_picture = Ok Demo.png_picture)
    by (vm_compute; reflexivity).
  assert (Hmd : extract_metadata (L := Demo.libs) Demo.png_picture = Ok Demo.png_record)
    by (vm_compute; reflexivity).
  split; [exact H|]. split; [exact Hmd|].
  destruct (X7_info_text_is_detected (L := Demo.libs) Demo.png_picture Demo.png_picture
              Demo.png_record
              "Software" (PStr "Made with MidJourney v6") "midjourney"
              "Made with MidJourney v6" H Hmd)
    as (res & Hres & _ & Hin).
  - repeat constructor. simpl. tauto.
  - left. reflexivity.
  - right. constructor. reflexivity.
  - exact midjourney_is_keyword.
  - exists "made with ", " v6". vm_compute. reflexivity.
  - exists res. split; [exact Hres | exact Hin].
Defined.

Lemma X8_exif_text_is_detected_witness :
  _resize_for_metrics (L := Demo.libs) Demo.tagged_picture = Ok Demo.tagged_picture /\
  exists res,
    analyze_image (L := Demo.libs) Demo.tagged_picture = Ok res /\
    In "Generator tag detected: sdxl" (reasons res) /\
    ~ In "No EXIF metadata present" (reasons res).
Proof.
  assert (H : _resize_for_metrics (L := Demo.libs) Demo.tagged_picture
              = Ok Demo.tagged_picture) by (vm_compute; reflexivity).
  assert (Hmd : extract_metadata (L := Demo.libs) Demo.tagged_picture
                = Ok (record_with (L := Demo.libs) None Demo.tagged_picture))
    by (vm_compute; reflexivity).
  split; [exact H|].
  apply (X8_exif_text_is_detected (L := Demo.libs) Demo.tagged_picture Demo.tagged_picture
           _
           [("0th", IfdDict [(305%Z, ExifBytes [Byte.x53; Byte.x44; Byte.x58; Byte.x4c])])]
           "0th" [(305%Z, ExifBytes [Byte.x53; Byte.x44; Byte.x58; Byte.x4c])]
           305%Z [Byte.x53; Byte.x44; Byte.x58; Byte.x4c] "SDXL" "sdxl" H Hmd).
  - vm_compute. reflexivity.
  - repeat constructor. simpl. tauto.
  - left. reflexivity.
  - repeat constructor. simpl. tauto.
  - left. reflexivity.
  - vm_compute. reflexivity.
  - unfold GENERATOR_KEYWORDS. do 13 right. left. reflexivity.
  - exists EmptyString, EmptyString. vm_compute. reflexivity.
Defined.

Lemma X9_small_image_is_analysed_as_is_witness :
  (Z.max (Zpos (fst (size Demo.png_picture))) (Zpos (snd (size Demo.png_picture)))
   <= 1024)%Z /\
  extract_metadata (L := Demo.libs) Demo.png_picture = Ok Demo.png_record /\
  exists res,
    analyze_image (L := Demo.libs) Demo.png_picture = Ok res /\
    blockiness (metrics res)
    = compute_blockiness (L := Demo.libs)
        (_pil_to_nd_gray (L := Demo.libs) Demo.png_picture).
Proof.
  assert (H : (Z.max (Zpos (fst (size Demo.png_picture)))
                     (Zpos (snd (size Demo.png_picture))) <= 1024)%Z)
    by (vm_compute; discriminate).
  assert (Hmd : extract_metadata (L := Demo.libs) Demo.png_picture = Ok Demo.png_record)
    by (vm_compute; reflexivity).
  split; [exact H|]. split; [exact Hmd|].
  destruct (X9_small_image_is_analysed_as_is (L := Demo.libs)
              Demo.png_picture Demo.png_record H Hmd)
    as (_ & res & Hres & _ & Hm & _).
  exists res. split; [exact Hres|]. rewrite Hm. reflexivity.
Defined.

Lemma X10_reasons_vocabulary_witness :
  exists res,
    analyze_image (L := Demo.libs) Demo.png_picture = Ok res /\
    (List.length (reasons res) <= 23)%nat.
Proof.
  destruct (analyze_image (L := Demo.libs) Demo.png_picture) as [res|e] eqn:E;
    [|vm_compute in E; discriminate E].
  exists res. split; [reflexivity|].
  exact (proj2 (X10_reasons_vocabulary (L := Demo.libs) Demo.png_picture res E)).
Defined.

Lemma X11_generator_tag_decides_label_witness :
  _resize_for_metrics (L := Demo.libs) Demo.png_picture = Ok Demo.png_picture /\
  extract_metadata (L := Demo.libs) Demo.png_picture = Ok Demo.png_record /\
  found (PDict Demo.png_record) "midjourney" = true /\
  exists res,
    analyze_image (L := Demo.libs) Demo.png_picture = Ok res /\
    label res <> "Likely human-captured".
Proof.
  assert (H : _resize_for_metrics (L := Demo.libs) Demo.png_picture = Ok Demo.png_picture)
    by (vm_compute; reflexivity).
  assert (Hmd : extract_metadata (L := Demo.libs) Demo.png_picture = Ok Demo.png_record)
    by (vm_compute; reflexivity).
  assert (Hf : found (PDict Demo.png_record) "midjourney" = true)
    by (vm_compute; reflexivity).
  split; [exact H|]. split; [exact Hmd|]. split; [exact Hf|].
  destruct (X11_generator_tag_decides_label (L := Demo.libs)
              Demo.png_picture Demo.png_picture Demo.png_record "midjourney" H Hmd)
    as (res & Hres & _ & Hlabel & _);
    [intros _ _; vm_compute; reflexivity | vm_compute; reflexivity
    | vm_compute; reflexivity | exact midjourney_is_keyword | exact Hf |].
  exists res. split; [exact Hres | exact Hlabel].
Defined.

Lemma X13_blockiness_reads_boundaries_only_witness :
  at_ (Demo.flat_plane 32 32 128) 1 1 <> at_ (Demo.dented_plane 32 32 128) 1 1 /\
  compute_blockiness (L := Demo.libs) (Demo.flat_plane 32 32 128)
  = compute_blockiness (L := Demo.libs) (Demo.dented_plane 32 32 128).
Proof.
  split; [vm_compute; discriminate|].
  apply (X13_blockiness_reads_boundaries_only (L := Demo.libs)
           (Demo.flat_plane 32 32 128) (Demo.dented_plane 32 32 128)).
  - reflexivity.
  - reflexivity.
  - intros r c _ _ Hb. cbn [at_ Demo.flat_plane Demo.dented_plane].
    destruct (r =? 1)%nat eqn:Er; [|reflexivity].
    destruct (c =? 1)%nat eqn:Ec; [|reflexivity].
    apply Nat.eqb_eq in Er. apply Nat.eqb_eq in Ec. subst r c.
    vm_compute in Hb. discriminate Hb.
Defined.

Lemma X16_url_view_agrees_with_upload_witness :
  get_json (Web := Demo.web) Demo.tiny_body
  = Ok (PDict [("url", PStr "demo://tiny")]) /\
  analyze_url (L := Demo.libs) (W := Demo.web) Demo.tiny_body
  = analyze_upload (L := Demo.libs) (W := Demo.web) [("file", Demo.tiny_file)] /\
  analyze_url (L := Demo.libs) (W := Demo.web) Demo.tiny_body
  = Ok (ResultDoc "Likely human-captured", 200%Z).
Proof.
  assert (H : get_json (Web := Demo.web) Demo.tiny_body
              = Ok (PDict [("url", PStr "demo://tiny")])) by (vm_compute; reflexivity).
  split; [exact H|].
  destruct (X16_url_view_agrees_with_upload (L := Demo.libs) (W := Demo.web)
              Demo.tiny_body [("url", PStr "demo://tiny")] (PStr "demo://tiny")
              H eq_refl) as [_ Hdata].
  destruct (Hdata Demo.tiny_file eq_refl) as (_ & _ & Hsame).
  assert (Hload : exists img, _load_image_from_bytes (L := Demo.libs) Demo.tiny_file = Ok img)
    by (eexists; vm_compute; reflexivity).
  destruct Hload as (img & Himg).
  assert (Heq := Hsame ltac:(discriminate) img Himg).
  split; [exact Heq|]. rewrite Heq. vm_compute. reflexivity.
Defined.

Lemma X17_label_is_human_iff_no_tag_witness :
  _resize_for_metrics (L := Demo.libs) Demo.plain_picture = Ok Demo.plain_picture /\
  exists res,
    analyze_image (L := Demo.libs) Demo.plain_picture = Ok res /\
    detect_generator_reasons (PDict (metadata res)) = [] /\
    label res = "Likely human-captured".
Proof.
  assert (H : _resize_for_metrics (L := Demo.libs) Demo.plain_picture = Ok Demo.plain_picture)
    by (vm_compute; reflexivity).
  assert (Hmd : extract_metadata (L := Demo.libs) Demo.plain_picture
                = Ok (record_with (L := Demo.libs) None Demo.plain_picture))
    by (vm_compute; reflexivity).
  split; [exact H|].
  destruct (X17_label_is_human_iff_no_tag (L := Demo.libs)
              Demo.plain_picture Demo.plain_picture _ H Hmd)
    as (res & Hres & _ & Hiff);
    [intros _ _; vm_compute; reflexivity | vm_compute; reflexivity
    | vm_compute; reflexivity |].
  assert (Hnone : detect_generator_reasons (PDict (metadata res)) = []).
  { revert Hres. unfold analyze_image. rewrite H. cbn [bind]. rewrite Hmd. cbn [bind].
    intros Hres. apply (f_equal (fun r => match r with Ok a => metadata a | Raise _ => [] end))
      in Hres. cbn [metadata] in Hres. rewrite <- Hres. vm_compute. reflexivity. }
  exists res. split; [exact Hres|]. split; [exact Hnone | exact (proj2 Hiff Hnone)].
Defined.

Lemma X18_requested_size_witness :
  (1024 < Z.max (Zpos (fst (size Demo.tall_picture)))
                (Zpos (snd (size Demo.tall_picture))) < 2 ^ 53)%Z /\
  exists nw nh,
    _resize_for_metrics (L := Demo.libs) Demo.tall_picture
    = Image_resize (Libs := Demo.libs) Demo.tall_picture (nw, nh) /\
    Z.max nw nh = 1024%Z.
Proof.
  assert (H : (1024 < Z.max (Zpos (fst (size Demo.tall_picture)))
                            (Zpos (snd (size Demo.tall_picture))) < 2 ^ 53)%Z)
    by (split; reflexivity).
  split; [exact H|].
  destruct (X18_requested_size (L := Demo.libs) Demo.tall_picture H)
    as (nw & nh & Hreq & _ & _ & Hmax & _).
  exists nw, nh. split; [exact Hreq | exact Hmax].
Defined.

Lemma X19_thin_image_escapes_witness :
  _load_image_from_bytes (L := Demo.libs) Demo.thin_file = Ok Demo.thin_picture /\
  exists e, analyze (L := Demo.libs) Demo.thin_file = Uncaught e.
Proof.
  assert (Hload : _load_image_from_bytes (L := Demo.libs) Demo.thin_file
                  = Ok Demo.thin_picture) by (vm_compute; reflexivity).
  split; [exact Hload|].
  destruct (X19_thin_image_escapes (L := Demo.libs) Demo.thin_file Demo.thin_picture Hload)
    as (e & He & _).
  - split; reflexivity.
  - vm_compute. discriminate.
  - intros [w h] [Hz|Hz]; cbn [fst snd] in Hz; subst;
      unfold Image_resize, Demo.libs, Demo.resize.
    + eexists. reflexivity.
    + destruct (w <? 1)%Z; eexists; reflexivity.
  - exists e. exact He.
Defined.
